(** * santa-lang Prancer: the runner and the command-line front end

    A shallow embedding of the parts of the Prancer tree-walking
    interpreter that drive an evaluation and report it: the JSON
    formatters of [cli/src/output.ts], the injected I/O handle of
    [cli/src/io.ts], the run-mode and test-mode dispatch of
    [cli/src/index.ts], and, as far as the specification describes them,
    the solution runner and the hashable runtime values that
    [evaluator/object/type.ts] declares.

    Conventions.
    - A JavaScript [number] that counts things (test counters, indices)
      is a [nat]; one that can be any integer (source positions,
      millisecond clock readings, exit codes) is a [Z].  All of them stay
      far below 2^53, where JavaScript's addition is exact.
    - A JavaScript string is a [string], one character per UTF-16 code
      unit, restricted to code units below 256.
    - An optional property ([partOne?: ...]) is an [option].
    - Records live in small modules so that fields keep the names they
      have in the TypeScript source. *)

From Stdlib Require Import ZArith Lia Bool Ascii String SpecFloat.
From Stdlib Require Import DecimalString DecimalNat.
From stdpp Require Import base gmap strings list.

Local Open Scope Z_scope.
Local Open Scope string_scope.
Local Open Scope list_scope.
Local Set Warnings "-register-all".

(** ** Types of [output.ts] *)

Module ConsoleEntry.
Record t := mk { timestamp_ms : Z; message : string }.
End ConsoleEntry.

Module TestCaseResult.
Record t := mk { expected : string; actual : string; hasPassed : bool }.
End TestCaseResult.

Module TestCase.
Record t := mk {
    partOne : option TestCaseResult.t;
    partTwo : option TestCaseResult.t;
    slow : bool;
    skipped : bool }.
End TestCase.

Module JsonTestPartResult.
Record t := mk { passed : bool; expected : string; actual : string }.
End JsonTestPartResult.

Inductive TestStatus := complete | status_skipped.

Module JsonTestCase.
Record t := mk {
    index : nat;
    slow : bool;
    status : TestStatus;
    part_one : option JsonTestPartResult.t;
    part_two : option JsonTestPartResult.t }.
End JsonTestCase.

Module TestSummary.
Record t := mk { total : nat; passed : nat; failed : nat; skipped : nat }.
End TestSummary.

(** The constant fields [type: 'test'] and [status: 'complete'] of a
    [JsonTestOutput] are carried by the type itself. *)
Module JsonTestOutput.
Record t := mk {
    success : bool;
    summary : TestSummary.t;
    tests : list JsonTestCase.t;
    console : list ConsoleEntry.t }.
End JsonTestOutput.

Module ErrorInfo.
Record t := mk { message : string; line : Z; column : Z }.
End ErrorInfo.

Module ErrorLocation.
Record t := mk { line : Z; column : Z }.
End ErrorLocation.

Inductive OutputType := type_solution | type_script | type_test | type_error.

(** [stack] is a list of frames (function, line, column). *)
Module JsonErrorOutput.
Record t := mk {
    type : OutputType;
    message : string;
    location : ErrorLocation.t;
    stack : list (string * Z * Z) }.
End JsonErrorOutput.

Inductive OutputMode := text | json | jsonl.

(** ** [formatTestJson]

    The callback of [testCases.map] increments one of three counters that
    live in the enclosing function.  The counters are threaded through the
    traversal explicitly, left to right, as [Array.prototype.map] visits
    the elements. *)

Module Counters.
Record t := mk { passed : nat; failed : nat; skipped : nat }.
Definition zero : t := mk 0 0 0.
Definition incPassed (c : t) : t := mk (S (passed c)) (failed c) (skipped c).
Definition incFailed (c : t) : t := mk (passed c) (S (failed c)) (skipped c).
Definition incSkipped (c : t) : t := mk (passed c) (failed c) (S (skipped c)).
End Counters.

(** [tc.partOne === undefined || tc.partOne.hasPassed] *)
Definition partPassed (p : option TestCaseResult.t) : bool :=
  match p with
  | None => true
  | Some r => TestCaseResult.hasPassed r
  end.

Definition allPassed (tc : TestCase.t) : bool :=
  partPassed (TestCase.partOne tc) && partPassed (TestCase.partTwo tc).

(** [hasPartOne && tc.partOne] followed by the construction of the part. *)
Definition jsonPart (hasPart : bool) (p : option TestCaseResult.t)
  : option JsonTestPartResult.t :=
  if hasPart then
    match p with
    | Some r => Some (JsonTestPartResult.mk (TestCaseResult.hasPassed r)
                        (TestCaseResult.expected r) (TestCaseResult.actual r))
    | None => None
    end
  else None.

(** The body of the [map] callback: the element built for test [tc] at
    zero-based position [i], and the counters after the call. *)
Definition formatTestCase (hasPartOne hasPartTwo : bool) (i : nat)
    (tc : TestCase.t) (c : Counters.t) : JsonTestCase.t * Counters.t :=
  if TestCase.skipped tc then
    (JsonTestCase.mk (i + 1) (TestCase.slow tc) status_skipped None None,
     Counters.incSkipped c)
  else
    (JsonTestCase.mk (i + 1) (TestCase.slow tc) complete
       (jsonPart hasPartOne (TestCase.partOne tc))
       (jsonPart hasPartTwo (TestCase.partTwo tc)),
     if allPassed tc then Counters.incPassed c else Counters.incFailed c).

Fixpoint formatTestCases (hasPartOne hasPartTwo : bool) (i : nat)
    (testCases : list TestCase.t) (c : Counters.t)
  : list JsonTestCase.t * Counters.t :=
  match testCases with
  | [] => ([], c)
  | tc :: rest =>
      let '(j, c1) := formatTestCase hasPartOne hasPartTwo i tc c in
      let '(js, c2) := formatTestCases hasPartOne hasPartTwo (S i) rest c1 in
      (j :: js, c2)
  end.

Definition formatTestJson (testCases : list TestCase.t)
    (hasPartOne hasPartTwo : bool) (console : list ConsoleEntry.t)
  : JsonTestOutput.t :=
  let '(tests, c) :=
    formatTestCases hasPartOne hasPartTwo 0%nat testCases Counters.zero in
  JsonTestOutput.mk
    (Nat.eqb (Counters.failed c) 0)
    (TestSummary.mk (length testCases) (Counters.passed c)
       (Counters.failed c) (Counters.skipped c))
    tests console.

(** ** [formatErrorJson] *)

Definition formatErrorJson (error : ErrorInfo.t) : JsonErrorOutput.t :=
  JsonErrorOutput.mk type_error
    (ErrorInfo.message error)
    (ErrorLocation.mk (ErrorInfo.line error + 1) (ErrorInfo.column error + 1))
    [].

(** ** Test mode of the CLI ([cli/src/index.ts])

    After [runTests] has returned its list of test cases the CLI reports
    them in one of three formats and leaves through [process.exit].  The
    three branches are modelled by the lines they log and the exit code
    they pass to [process.exit]. *)

(** The [console.log] calls of the text branch, one constructor per format
    string (the ANSI colour codes are part of the format, not of the
    data). *)
Inductive LogLine :=
| blankLine                                   (* console.log() *)
| testcaseSkipped (n : nat)                   (* Testcase #n (skipped) *)
| testcaseSlow (n : nat)                      (* Testcase #n (slow) *)
| testcase (n : nat)                          (* Testcase #n *)
| noExpectations                              (* No expectations *)
| partOk (part : nat) (actual : string)       (* Part p: actual ✔ *)
| partFail (part : nat) (actual expected : string).  (* Part p: actual ✘ (Expected: e) *)

(** [if (testCase.partOne) { if (hasPassed) log else { log; exitCode = 3 } }] *)
Definition textPart (part : nat) (p : option TestCaseResult.t) (exitCode : Z)
  : list LogLine * Z :=
  match p with
  | None => ([], exitCode)
  | Some r =>
      if TestCaseResult.hasPassed r
      then ([partOk part (TestCaseResult.actual r)], exitCode)
      else ([partFail part (TestCaseResult.actual r) (TestCaseResult.expected r)], 3)
  end.

(** One iteration of the [for ... of Object.entries(testCases)] loop. *)
Definition textTestCase (idx : nat) (testCase : TestCase.t) (exitCode : Z)
  : list LogLine * Z :=
  let sep := if (0 <? idx)%nat then [blankLine] else [] in
  if TestCase.skipped testCase then
    (sep ++ [testcaseSkipped (idx + 1)], exitCode)
  else
    let header :=
      if TestCase.slow testCase then testcaseSlow (idx + 1) else testcase (idx + 1) in
    match TestCase.partOne testCase, TestCase.partTwo testCase with
    | None, None => (sep ++ [header; noExpectations], exitCode)
    | p1, p2 =>
        let '(l1, e1) := textPart 1 p1 exitCode in
        let '(l2, e2) := textPart 2 p2 e1 in
        (sep ++ header :: l1 ++ l2, e2)
    end.

Fixpoint textTestCases (idx : nat) (testCases : list TestCase.t) (exitCode : Z)
  : list LogLine * Z :=
  match testCases with
  | [] => ([], exitCode)
  | tc :: rest =>
      let '(l, e) := textTestCase idx tc exitCode in
      let '(ls, e') := textTestCases (S idx) rest e in
      (l ++ ls, e')
  end.

(** [let exitCode = 0; for (...) {...}; process.exit(exitCode)] *)
Definition textTestMode (testCases : list TestCase.t) : list LogLine * Z :=
  textTestCases 0%nat testCases 0.

(** [tc.partOne && !tc.partOne.hasPassed] *)
Definition partFailed (p : option TestCaseResult.t) : bool :=
  match p with
  | Some r => negb (TestCaseResult.hasPassed r)
  | None => false
  end.

(** The predicate of [testCases.some(...)] in the JSON branch. *)
Definition hasFailure (tc : TestCase.t) : bool :=
  negb (TestCase.skipped tc)
  && (partFailed (TestCase.partOne tc) || partFailed (TestCase.partTwo tc)).

Definition hasFailures (testCases : list TestCase.t) : bool :=
  existsb hasFailure testCases.

(** The JSON branch: the object written to stdout and the exit code. *)
Definition jsonTestMode (testCases : list TestCase.t)
    (hasPartOne hasPartTwo : bool) (consoleEntries : list ConsoleEntry.t)
  : JsonTestOutput.t * Z :=
  (formatTestJson testCases hasPartOne hasPartTwo consoleEntries,
   if hasFailures testCases then 3 else 0).

(** The JSONL branch keeps its own three counters in a [for] loop; the
    patches it writes do not influence the control flow and are left out. *)
Definition jsonlTestCase (c : Counters.t) (tc : TestCase.t) : Counters.t :=
  if TestCase.skipped tc then Counters.incSkipped c
  else if allPassed tc then Counters.incPassed c
  else Counters.incFailed c.

Definition jsonlTestMode (testCases : list TestCase.t) : Counters.t * Z :=
  let c := fold_left jsonlTestCase testCases Counters.zero in
  let success := Nat.eqb (Counters.failed c) 0 in
  (c, if success then 0 else 3).

(** The code handed to [process.exit] in test mode, per output mode. *)
Definition testModeExitCode (outputMode : OutputMode)
    (testCases : list TestCase.t) (hasPartOne hasPartTwo : bool)
    (consoleEntries : list ConsoleEntry.t) : Z :=
  match outputMode with
  | text => snd (textTestMode testCases)
  | json => snd (jsonTestMode testCases hasPartOne hasPartTwo consoleEntries)
  | jsonl => snd (jsonlTestMode testCases)
  end.

(** ** String helpers of the JavaScript platform used by [io.ts] *)

(** [args.join(sep)] *)
Fixpoint join (sep : string) (args : list string) : string :=
  match args with
  | [] => ""
  | [a] => a
  | a :: rest => a +:+ sep +:+ join sep rest
  end.

(** [s.substring(1)] *)
Definition substring1 (s : string) : string :=
  match s with
  | EmptyString => ""
  | String _ rest => rest
  end.

(** The first [n] characters of [rest] followed by [pad] repeated: the
    filler that [padStart] puts in front of the string. *)
Fixpoint padding (n : nat) (pad rest : string) : string :=
  match n with
  | O => ""
  | S n' =>
      match rest with
      | String c r => String c (padding n' pad r)
      | EmptyString =>
          match pad with
          | String c r => String c (padding n' pad r)
          | EmptyString => ""
          end
      end
  end.

(** [s.padStart(targetLength, padString)] *)
Definition padStart (targetLength : nat) (padString s : string) : string :=
  padding (targetLength - String.length s) padString "" +:+ s.

(** White space and line terminators of ECMAScript among the code units
    below 256: TAB, LF, VT, FF, CR, SP and NBSP. *)
Definition isWhiteSpace (c : ascii) : bool :=
  let n := nat_of_ascii c in
  ((9 <=? n) && (n <=? 13) || (n =? 32) || (n =? 160))%nat.

(** [s.trimEnd()]: an all-blank suffix is dropped, the rest is kept. *)
Fixpoint trimEnd (s : string) : string :=
  match s with
  | EmptyString => ""
  | String c rest =>
      match trimEnd rest with
      | EmptyString => if isWhiteSpace c then "" else String c ""
      | t => String c t
      end
  end.

(** ** The world the I/O handle acts on

    [io.ts] keeps two module-level variables ([consoleBuffer],
    [captureStartTime]) and talks to the operating system: the wall clock
    ([Date.now]), standard output ([console.log]), the file system
    ([readFileSync], [writeFileSync]), the process environment and child
    processes ([Bun.spawnSync] running curl).  All of it is one explicit
    state. *)

(** The three properties of a WHATWG [URL] object that [io.ts] reads. *)
Module URL.
Record t := mk { protocol : string; host : string; pathname : string }.
End URL.

(** What [Bun.spawnSync] reports: [stdout] is the output already
    decoded by [TextDecoder]; a process that was killed counts as a
    non-zero exit code. *)
Module SpawnResult.
Record t := mk { exitCode : Z; stdout : string }.
End SpawnResult.

Module World.
Record t := mk {
    consoleBuffer : option (list ConsoleEntry.t);  (* null = not capturing *)
    captureStartTime : Z;
    printed : list string;          (* lines written by console.log, oldest first *)
    clock : nat -> Z;               (* the n-th reading of Date.now() *)
    clockReads : nat;               (* readings taken so far *)
    files : gmap string string;     (* readable files and their content *)
    writable : string -> bool;      (* whether writeFileSync succeeds on a path *)
    env : gmap string string;       (* process.env *)
    spawn : list string -> SpawnResult.t;  (* outcome of running a command line *)
    newURL : string -> option URL.t (* new URL(path); None when it throws *)
  }.
Definition setConsoleBuffer (b : option (list ConsoleEntry.t)) (w : t) : t :=
  mk b (captureStartTime w) (printed w) (clock w) (clockReads w) (files w)
     (writable w) (env w) (spawn w) (newURL w).
Definition setCaptureStartTime (z : Z) (w : t) : t :=
  mk (consoleBuffer w) z (printed w) (clock w) (clockReads w) (files w)
     (writable w) (env w) (spawn w) (newURL w).
Definition setPrinted (p : list string) (w : t) : t :=
  mk (consoleBuffer w) (captureStartTime w) p (clock w) (clockReads w) (files w)
     (writable w) (env w) (spawn w) (newURL w).
Definition setClockReads (n : nat) (w : t) : t :=
  mk (consoleBuffer w) (captureStartTime w) (printed w) (clock w) n (files w)
     (writable w) (env w) (spawn w) (newURL w).
Definition setFiles (f : gmap string string) (w : t) : t :=
  mk (consoleBuffer w) (captureStartTime w) (printed w) (clock w) (clockReads w) f
     (writable w) (env w) (spawn w) (newURL w).
End World.

(** What a JavaScript call can throw here: an [Error] built by [io.ts]
    with a message, or the system error of a failed file operation. *)
Inductive Exception :=
| JsError (message : string)
| SystemError (path : string).

Inductive Result (A : Type) :=
| Returned (a : A)
| Thrown (e : Exception).
Arguments Returned {A} a.
Arguments Thrown {A} e.

(** A computation of [io.ts]: it returns or throws, and leaves a world. *)
Definition IO (A : Type) : Type := World.t -> Result A * World.t.

Definition ret {A} (a : A) : IO A := fun w => (Returned a, w).
Definition throw {A} (e : Exception) : IO A := fun w => (Thrown e, w).
Definition bind {A B} (m : IO A) (k : A -> IO B) : IO B :=
  fun w =>
    match m w with
    | (Returned a, w') => k a w'
    | (Thrown e, w') => (Thrown e, w')
    end.
(** [try { m } catch (err) { handler }] *)
Definition tryCatch {A} (m : IO A) (handler : Exception -> IO A) : IO A :=
  fun w =>
    match m w with
    | (Returned a, w') => (Returned a, w')
    | (Thrown e, w') => handler e w'
    end.

Declare Scope io_scope.
Delimit Scope io_scope with io.
Notation "x <- m ;; k" := (bind m (fun x => k))
  (at level 100, m at next level, k at level 200, only parsing) : io_scope.
Notation "m ;; k" := (bind m (fun _ => k))
  (at level 100, k at level 200, only parsing) : io_scope.
Local Open Scope io_scope.

(** Platform primitives. *)
Definition dateNow : IO Z :=
  fun w => (Returned (World.clock w (World.clockReads w)),
            World.setClockReads (S (World.clockReads w)) w).
Definition consoleLog (line : string) : IO unit :=
  fun w => (Returned tt, World.setPrinted (World.printed w ++ [line]) w).
Definition readFileSync (path : string) : IO string :=
  fun w =>
    match World.files w !! path with
    | Some content => (Returned content, w)
    | None => (Thrown (SystemError path), w)
    end.
Definition writeFileSync (path content : string) : IO unit :=
  fun w =>
    if World.writable w path
    then (Returned tt, World.setFiles (<[path := content]> (World.files w)) w)
    else (Thrown (SystemError path), w).
Definition processEnv (name : string) : IO (option string) :=
  fun w => (Returned (World.env w !! name), w).
Definition spawnSync (cmd : list string) : IO SpawnResult.t :=
  fun w => (Returned (World.spawn w cmd), w).
(** [parseUrl]: [new URL(path)], or [null] when the constructor throws. *)
Definition parseUrl (path : string) : IO (option URL.t) :=
  fun w => (Returned (World.newURL w path), w).

(** Module variables of [io.ts]. *)
Definition getConsoleBuffer : IO (option (list ConsoleEntry.t)) :=
  fun w => (Returned (World.consoleBuffer w), w).
Definition putConsoleBuffer (b : option (list ConsoleEntry.t)) : IO unit :=
  fun w => (Returned tt, World.setConsoleBuffer b w).
Definition getCaptureStartTime : IO Z :=
  fun w => (Returned (World.captureStartTime w), w).
Definition putCaptureStartTime (z : Z) : IO unit :=
  fun w => (Returned tt, World.setCaptureStartTime z w).

(** ** [io.ts] *)

Definition enableConsoleCapture : IO unit :=
  now <- dateNow ;;
  putCaptureStartTime now ;;
  putConsoleBuffer (Some []).

Definition disableConsoleCapture : IO (list ConsoleEntry.t) :=
  buffer <- getConsoleBuffer ;;
  let entries := match buffer with Some b => b | None => [] end in
  putConsoleBuffer None ;;
  ret entries.

(** [!token]: an absent variable and the empty string are both falsy. *)
Definition tokenMissing (token : option string) : bool :=
  match token with
  | None => true
  | Some EmptyString => true
  | Some _ => false
  end.

Definition tokenText (token : option string) : string :=
  match token with Some t => t | None => "" end.

Definition aocFilename (year day : string) : string :=
  "aoc" +:+ year +:+ "_day" +:+ padStart 2 "0" day +:+ ".input".

Definition aocCommand (token year day : string) : list string :=
  ["curl"; "-sfL"; "-H"; "Cookie: session=" +:+ token;
   "https://adventofcode.com/" +:+ year +:+ "/day/" +:+ day +:+ "/input"].

Definition readAoC (url : URL.t) (path : string) : IO string :=
  let year := URL.host url in
  let day := substring1 (URL.pathname url) in
  let filename := aocFilename year day in
  cached <- tryCatch (content <- readFileSync filename ;; ret (Some content))
                     (fun _ => ret None) ;;
  match cached with
  | Some content => ret content
  | None =>
      token <- processEnv "SANTA_CLI_SESSION_TOKEN" ;;
      if tokenMissing token then
        throw (JsError ("Unable to read AOC input: " +:+ path +:+
          ", missing session token within SANTA_CLI_SESSION_TOKEN environment variable"))
      else
        result <- spawnSync (aocCommand (tokenText token) year day) ;;
        if negb (Z.eqb (SpawnResult.exitCode result) 0) then
          throw (JsError ("Unable to read AOC input: " +:+ path))
        else
          let content := trimEnd (SpawnResult.stdout result) in
          writeFileSync filename content ;;
          ret content
  end.

Definition readUrl (path : string) : IO string :=
  result <- spawnSync ["curl"; "-sfL"; path] ;;
  if negb (Z.eqb (SpawnResult.exitCode result) 0) then
    throw (JsError ("Unable to read HTTP input: " +:+ path))
  else ret (SpawnResult.stdout result).

(** The two operations of the default export, the injected I/O handle. *)
Definition input (path : string) : IO string :=
  url <- parseUrl path ;;
  match url with
  | None =>
      tryCatch (readFileSync path)
               (fun _ => throw (JsError ("Unable to read path: " +:+ path)))
  | Some url =>
      if String.eqb (URL.protocol url) "aoc:" then readAoC url path
      else readUrl path
  end.

Definition output (args : list string) : IO unit :=
  if (length args =? 0)%nat then ret tt
  else
    let message := join " " args in
    buffer <- getConsoleBuffer ;;
    match buffer with
    | Some entries =>
        now <- dateNow ;;
        start <- getCaptureStartTime ;;
        putConsoleBuffer (Some (entries ++ [ConsoleEntry.mk (now - start) message]))
    | None => consoleLog message
    end.

(** A run of the interpreter seen from the handle: the [puts] calls it
    makes, in order. *)
Fixpoint outputs (calls : list (list string)) : IO unit :=
  match calls with
  | [] => ret tt
  | args :: rest => output args ;; outputs rest
  end.

(** Capture as the CLI uses it in JSON mode: enable, run, collect. *)
Definition captured (calls : list (list string)) : IO (list ConsoleEntry.t) :=
  enableConsoleCapture ;;
  outputs calls ;;
  disableConsoleCapture.

(** ** [isSolutionSource] and the run-mode dispatch *)

(** [s.includes(needle)] *)
Fixpoint includes (s needle : string) : bool :=
  String.prefix needle s
  || match s with
     | EmptyString => false
     | String _ rest => includes rest needle
     end.

Module SolutionSource.
Record t := mk { hasPartOne : bool; hasPartTwo : bool }.
End SolutionSource.

Definition isSolutionSource (source : string) : SolutionSource.t :=
  SolutionSource.mk (includes source "part_one:") (includes source "part_two:").

(** [const isSolution = hasPartOne || hasPartTwo] *)
Definition isSolution (source : string) : bool :=
  let s := isSolutionSource source in
  SolutionSource.hasPartOne s || SolutionSource.hasPartTwo s.

Module ResultValue.
Record t := mk { value : string; duration : Z }.
End ResultValue.

(** What [run] hands back: a script result has [value] and [duration], a
    solution result has the optional parts. *)
Inductive RunResult :=
| ScriptResult (value : string) (duration : Z)
| SolutionResult (partOne partTwo : option ResultValue.t).

(** ** The front end, as far as the runner and the CLI need it *)

Definition dquote : ascii := ascii_of_nat 34.
Definition backslash : ascii := ascii_of_nat 92.
Definition newline : ascii := ascii_of_nat 10.
Definition slash : ascii := ascii_of_nat 47.

(** [quoted s] is the source text of the string literal with content [s]. *)
Definition quoted (s : string) : string :=
  String dquote (s +:+ String dquote EmptyString).

(** Modelled from the spec: the source position tracker (section 2, item
    1), which is not among the source files.  It maps an offset into the
    source text to a zero-indexed (line, column): a line feed starts a new
    line at column 0, any other character advances the column. *)
Fixpoint positionFrom (line column : Z) (source : string) (offset : nat) : Z * Z :=
  match offset, source with
  | O, _ => (line, column)
  | S _, EmptyString => (line, column)
  | S n, String c rest =>
      if Ascii.eqb c newline then positionFrom (line + 1) 0 rest n
      else positionFrom line (column + 1) rest n
  end.

Definition positionAt (source : string) (offset : nat) : Z * Z :=
  positionFrom 0 0 source offset.

(** Modelled from the spec: the tokens (section 4.1) that section
    declarations and literal expressions are made of. *)
Inductive Token :=
| TInteger (literal : string)
| TString (literal : string)
| TIdentifier (literal : string)
| TColon
| TSemicolon
| TLBrace
| TRBrace
| TAt.

Definition isDigit (c : ascii) : bool :=
  let n := nat_of_ascii c in ((48 <=? n) && (n <=? 57))%nat.
Definition isAlpha (c : ascii) : bool :=
  let n := nat_of_ascii c in
  ((65 <=? n) && (n <=? 90) || (97 <=? n) && (n <=? 122))%nat.
Definition isIdentifierChar (c : ascii) : bool :=
  isAlpha c || isDigit c || (nat_of_ascii c =? 95)%nat.
Definition isIntegerChar (c : ascii) : bool :=
  isDigit c || (nat_of_ascii c =? 95)%nat.

(** The longest prefix whose characters satisfy [p], and what follows. *)
Fixpoint spanWhile (p : ascii -> bool) (s : string) : string * string :=
  match s with
  | EmptyString => (EmptyString, EmptyString)
  | String c rest =>
      if p c then let '(taken, more) := spanWhile p rest in (String c taken, more)
      else (EmptyString, s)
  end.

(** After an opening quote: the raw text up to the closing quote and what
    follows it; an escape keeps the character after the backslash. *)
Fixpoint scanString (s : string) : option (string * string) :=
  match s with
  | EmptyString => None
  | String c rest =>
      if Ascii.eqb c dquote then Some (EmptyString, rest)
      else if Ascii.eqb c backslash then
        match rest with
        | EmptyString => None
        | String c' rest' =>
            match scanString rest' with
            | Some (lit, more) => Some (String c (String c' lit), more)
            | None => None
            end
        end
      else
        match scanString rest with
        | Some (lit, more) => Some (String c lit, more)
        | None => None
        end
  end.

(** Modelled from the spec: the lexer of section 4.1, which is not among
    the source files, for the token kinds that section declarations and
    literal expressions are made of.  White space separates tokens, a line
    comment yields no token, a string literal is one token that records
    its raw text, an identifier is a letter followed by letters, digits
    and underscores, and the lexer produces identifier then colon for a
    section header.  [None] stands for a lexing error or for a character
    outside the modelled token kinds. *)
Fixpoint lex (fuel : nat) (s : string) : option (list Token) :=
  match fuel with
  | O => None
  | S fuel' =>
      match s with
      | EmptyString => Some []
      | String c rest =>
          if isWhiteSpace c then lex fuel' rest
          else if Ascii.eqb c slash then
            match rest with
            | String c' rest' =>
                if Ascii.eqb c' slash
                then lex fuel' (snd (spanWhile (fun x => negb (Ascii.eqb x newline)) rest'))
                else None
            | EmptyString => None
            end
          else if Ascii.eqb c dquote then
            match scanString rest with
            | Some (lit, more) => option_map (cons (TString lit)) (lex fuel' more)
            | None => None
            end
          else if isDigit c then
            let '(lit, more) := spanWhile isIntegerChar s in
            option_map (cons (TInteger lit)) (lex fuel' more)
          else if isAlpha c then
            let '(lit, more) := spanWhile isIdentifierChar s in
            option_map (cons (TIdentifier lit)) (lex fuel' more)
          else if (nat_of_ascii c =? 58)%nat then option_map (cons TColon) (lex fuel' rest)
          else if (nat_of_ascii c =? 59)%nat then option_map (cons TSemicolon) (lex fuel' rest)
          else if (nat_of_ascii c =? 123)%nat then option_map (cons TLBrace) (lex fuel' rest)
          else if (nat_of_ascii c =? 125)%nat then option_map (cons TRBrace) (lex fuel' rest)
          else if (nat_of_ascii c =? 64)%nat then option_map (cons TAt) (lex fuel' rest)
          else None
      end
  end.

(** The tokens of a source text; a lexer step consumes at least one
    character, so the length of the text is fuel enough. *)
Definition tokenize (source : string) : option (list Token) :=
  lex (S (String.length source)) source.

(** Modelled from the spec: the statements of the AST (section 3), which
    is not among the source files, over any type [E] of expressions and
    patterns: the runner never looks inside an expression. *)
Inductive Statement (E : Type) :=
| Let (mutable : bool) (pattern value : E)
| Return (value : E)
| Break (value : E)
| Section_ (name : string) (body : list (Statement E))
| ExpressionStatement (expression : E)
| Annotated (annotation : string) (statement : Statement E).
Arguments Let {E} mutable pattern value.
Arguments Return {E} value.
Arguments Break {E} value.
Arguments Section_ {E} name body.
Arguments ExpressionStatement {E} expression.
Arguments Annotated {E} annotation statement.

(** Modelled from the spec: the literal expressions (section 3) of the
    modelled fragment. *)
Inductive Literal :=
| IntegerLiteral (literal : string)
| StringLiteral (literal : string)
| IdentifierLiteral (name : string).

(** Modelled from the spec: the prefix parsers of the literal tokens
    (section 4.2). *)
Definition parseLiteral (tokens : list Token) : option (Literal * list Token) :=
  match tokens with
  | TInteger l :: rest => Some (IntegerLiteral l, rest)
  | TString l :: rest => Some (StringLiteral l, rest)
  | TIdentifier l :: rest => Some (IdentifierLiteral l, rest)
  | _ => None
  end.

(** Semicolons terminate statements and are optional. *)
Definition skipSemicolon (tokens : list Token) : list Token :=
  match tokens with
  | TSemicolon :: rest => rest
  | _ => tokens
  end.

(** Modelled from the spec: the statement recogniser of section 4.2, which
    is not among the source files, restricted to annotations, section
    declarations and expression statements made of one literal.  An
    [@name] annotation attaches to the following statement; a bare
    identifier followed by a colon becomes a Section whose body is the
    following brace-block, or the single expression that follows, as in
    [input: "..."]; anything else is an expression statement.  [None]
    stands for a parse error or for a construct outside the fragment. *)
Fixpoint parseStatement (fuel : nat) (tokens : list Token)
  : option (Statement Literal * list Token) :=
  match fuel with
  | O => None
  | S fuel' =>
      match tokens with
      | TAt :: TIdentifier a :: rest =>
          match parseStatement fuel' rest with
          | Some (s, more) => Some (Annotated a s, more)
          | None => None
          end
      | TIdentifier n :: TColon :: TLBrace :: rest =>
          match parseBlock fuel' rest with
          | Some (body, more) => Some (Section_ n body, skipSemicolon more)
          | None => None
          end
      | TIdentifier n :: TColon :: rest =>
          match parseLiteral rest with
          | Some (e, more) => Some (Section_ n [ExpressionStatement e], skipSemicolon more)
          | None => None
          end
      | _ =>
          match parseLiteral tokens with
          | Some (e, more) => Some (ExpressionStatement e, skipSemicolon more)
          | None => None
          end
      end
  end
with parseBlock (fuel : nat) (tokens : list Token)
  : option (list (Statement Literal) * list Token) :=
  match fuel with
  | O => None
  | S fuel' =>
      match tokens with
      | TRBrace :: rest => Some ([], rest)
      | _ =>
          match parseStatement fuel' tokens with
          | Some (s, more) =>
              match parseBlock fuel' more with
              | Some (ss, more') => Some (s :: ss, more')
              | None => None
              end
          | None => None
          end
      end
  end.

(** Modelled from the spec: the program is the ordered sequence of the
    statements up to the end of the tokens. *)
Fixpoint parseStatements (fuel : nat) (tokens : list Token)
  : option (list (Statement Literal)) :=
  match fuel with
  | O => None
  | S fuel' =>
      match tokens with
      | [] => Some []
      | _ =>
          match parseStatement fuel' tokens with
          | Some (s, more) => option_map (cons s) (parseStatements fuel' more)
          | None => None
          end
      end
  end.

(** The program node of a source text: its top-level statement list. *)
Definition parse (source : string) : option (list (Statement Literal)) :=
  match tokenize source with
  | Some tokens => parseStatements (S (length tokens)) tokens
  | None => None
  end.

(** ** The solution runner in test mode *)

(** Modelled from the spec: how the runner scans a statement (section
    4.8).  A section declaration with its [@slow] marker: the section
    under any annotations, slow when one of them is [slow]. *)
Fixpoint sectionOf {E} (s : Statement E)
  : option (bool * string * list (Statement E)) :=
  match s with
  | Section_ name body => Some (false, name, body)
  | Annotated a s' =>
      match sectionOf s' with
      | Some (slow, name, body) => Some (slow || String.eqb a "slow", name, body)
      | None => None
      end
  | _ => None
  end.

(** Modelled from the spec: the scan of a statement list for the Section
    declarations called [name] (section 4.8), in declaration order, each
    with its slow flag. *)
Fixpoint sectionsNamed {E} (name : string) (program : list (Statement E))
  : list (bool * list (Statement E)) :=
  match program with
  | [] => []
  | s :: rest =>
      match sectionOf s with
      | Some (slow, n, body) =>
          if String.eqb n name then (slow, body) :: sectionsNamed name rest
          else sectionsNamed name rest
      | None => sectionsNamed name rest
      end
  end.

(** Modelled from the spec: whether the top-level statement list declares
    [part_one] or [part_two], the glossary's definition of a solution. *)
Definition declaresPart {E} (program : list (Statement E)) : bool :=
  negb (Nat.eqb (length (sectionsNamed "part_one" program)) 0)
  || negb (Nat.eqb (length (sectionsNamed "part_two" program)) 0).

(** Modelled from the spec: an evaluation yields a value or the error
    that surfaces at the top of the run (section 7). *)
Inductive Evaluated (A : Type) :=
| Done (a : A)
| Failed (error : ErrorInfo.t).
Arguments Done {A} a.
Arguments Failed {A} error.

(** Modelled from the spec: the Dict a [test] section evaluates to
    (section 4.8), the test's input and the optional expected values. *)
Module TestSpec.
Record t (V : Type) := mk {
    input : V;
    part_one : option V;
    part_two : option V }.
Arguments mk {V} input part_one part_two.
Arguments input {V} t.
Arguments part_one {V} t.
Arguments part_two {V} t.
End TestSpec.

(** Modelled from the spec: the evaluator as the runner uses it; the
    evaluator itself is not among the source files and stays abstract.
    [evalPart program bodies input]
    evaluates the part declared by [bodies] inside [program] with [input]
    bound; [evalInput program] evaluates the top-level bindings and the
    [input] section; [evalScript program] evaluates the statements as one
    sequence and yields the last value. *)
Class Evaluator (E V : Type) := {
  inspect : V -> string;
  evalTest : list (Statement E) -> Evaluated (TestSpec.t V);
  evalPart : list (Statement E) -> list (list (Statement E)) -> V -> Evaluated V;
  evalInput : list (Statement E) -> Evaluated V;
  evalScript : list (Statement E) -> Evaluated V
}.

(** The two parts of a solution. *)
Inductive Part := part_one | part_two.

Definition partName (p : Part) : string :=
  match p with part_one => "part_one" | part_two => "part_two" end.

(** What the runner asks of the evaluator, tagged with the zero-based
    position of the test it is asked for. *)
Inductive Event :=
| EvalTest (test : nat)
| EvalPart (test : nat) (part : Part).

Definition eventTest (e : Event) : nat :=
  match e with EvalTest i => i | EvalPart i _ => i end.

(** A runner computation: the evaluations it performed, in order, and
    either its value or the error it threw. *)
Definition Traced (A : Type) : Type := list Event * Evaluated A.

Section Runner.
Context {E V : Type} `{Evaluator E V}.

(** Modelled from the spec: one part of one test (section 4.8, test
    mode).  Evaluate the part for test [i] and compare [inspect(result)]
    with [inspect(expected)]; no result when the test expects nothing for
    the part or the program does not declare it. *)
Definition runPart (program : list (Statement E)) (i : nat) (p : Part)
    (input : V) (expected : option V) : Traced (option TestCaseResult.t) :=
  match expected, sectionsNamed (partName p) program with
  | Some e, (_ :: _) as declared =>
      match evalPart program (map snd declared) input with
      | Done actual =>
          ([EvalPart i p],
           Done (Some (TestCaseResult.mk (inspect e) (inspect actual)
                         (String.eqb (inspect e) (inspect actual)))))
      | Failed err => ([EvalPart i p], Failed err)
      end
  | _, _ => ([], Done None)
  end.

(** Modelled from the spec: one [test] section (section 4.8, test mode),
    skipped without evaluating anything when it is slow and slow tests
    were not requested. *)
Definition runTest (program : list (Statement E)) (includeSlow : bool)
    (i : nat) (test : bool * list (Statement E)) : Traced TestCase.t :=
  let '(slow, body) := test in
  if slow && negb includeSlow then
    ([], Done (TestCase.mk None None slow true))
  else
    match evalTest body with
    | Failed err => ([EvalTest i], Failed err)
    | Done spec =>
        match runPart program i part_one (TestSpec.input spec) (TestSpec.part_one spec) with
        | (t1, Failed err) => (EvalTest i :: t1, Failed err)
        | (t1, Done p1) =>
            match runPart program i part_two (TestSpec.input spec) (TestSpec.part_two spec) with
            | (t2, Failed err) => (EvalTest i :: t1 ++ t2, Failed err)
            | (t2, Done p2) =>
                (EvalTest i :: t1 ++ t2, Done (TestCase.mk p1 p2 slow false))
            end
        end
    end.

(** Modelled from the spec: the [test] sections are run in order, the
    first at position [i]; an error ends the run. *)
Fixpoint runTestsFrom (program : list (Statement E)) (includeSlow : bool)
    (i : nat) (tests : list (bool * list (Statement E)))
  : Traced (list TestCase.t) :=
  match tests with
  | [] => ([], Done [])
  | t :: rest =>
      match runTest program includeSlow i t with
      | (tr, Failed err) => (tr, Failed err)
      | (tr, Done r) =>
          match runTestsFrom program includeSlow (S i) rest with
          | (tr', Failed err) => (tr ++ tr', Failed err)
          | (tr', Done rs) => (tr ++ tr', Done (r :: rs))
          end
      end
  end.

(** Modelled from the spec: [runTests] of the runner package (section 4.8,
    test mode), of which only the test file and the CLI call are among
    the source files.  For each [test] section of the top-level statement
    list, in order: a slow test that was not requested is reported as
    skipped and nothing is evaluated for it; otherwise the body is
    evaluated to the Dict of input and expectations, and each expected
    part that the program declares is evaluated with that input and
    compared by [inspect].  An evaluation error ends the run. *)
Definition runTests (program : list (Statement E)) (includeSlow : bool)
  : Traced (list TestCase.t) :=
  runTestsFrom program includeSlow 0%nat (sectionsNamed "test" program).

(** Modelled from the spec: one part in solve mode (section 4.8), absent
    when the program does not declare it,
    otherwise its inspected value and the milliseconds the timer measured
    around its evaluation. *)
Definition solvePart (program : list (Statement E)) (elapsed : Part -> Z)
    (p : Part) (input : V) : Evaluated (option ResultValue.t) :=
  match sectionsNamed (partName p) program with
  | [] => Done None
  | (_ :: _) as declared =>
      match evalPart program (map snd declared) input with
      | Done v => Done (Some (ResultValue.mk (inspect v) (elapsed p)))
      | Failed err => Failed err
      end
  end.

(** Modelled from the spec: [run] of the runner package (section 4.8,
    solve mode), of which only the CLI call is among the source files.
    When the top-level statement list declares [part_one] or [part_two],
    the input is evaluated once and each declared part is evaluated with
    it and timed; when it declares neither, the source is a script,
    evaluated as one sequence, and the result is its last value.
    [elapsedScript] and [elapsed] are the durations the timer measured. *)
Definition run (program : list (Statement E)) (elapsedScript : Z)
    (elapsed : Part -> Z) : Evaluated RunResult :=
  if declaresPart program then
    match evalInput program with
    | Failed err => Failed err
    | Done input =>
        match solvePart program elapsed part_one input with
        | Failed err => Failed err
        | Done p1 =>
            match solvePart program elapsed part_two input with
            | Failed err => Failed err
            | Done p2 => Done (SolutionResult p1 p2)
            end
        end
    end
  else
    match evalScript program with
    | Done v => Done (ScriptResult (inspect v) elapsedScript)
    | Failed err => Failed err
    end.

End Runner.

(** A miniature evaluator for programs of literals, to run the runner on
    the sources of its test file. *)
Inductive MiniValue :=
| MiniInteger (literal : string)
| MiniString (s : string)
| MiniNil.

Definition miniInspect (v : MiniValue) : string :=
  match v with
  | MiniInteger l => l
  | MiniString s => quoted s
  | MiniNil => "nil"
  end.

Definition miniLiteral (input : MiniValue) (e : Literal) : Evaluated MiniValue :=
  match e with
  | IntegerLiteral l => Done (MiniInteger l)
  | StringLiteral s => Done (MiniString s)
  | IdentifierLiteral n =>
      if String.eqb n "input" then Done input
      else Failed (ErrorInfo.mk ("Identifier not found: " +:+ n) 0 0)
  end.

(** The value of a block is the value of its last statement. *)
Fixpoint miniBlock (input : MiniValue) (body : list (Statement Literal))
  : Evaluated MiniValue :=
  match body with
  | [] => Done MiniNil
  | [ExpressionStatement e] => miniLiteral input e
  | [_] => Failed (ErrorInfo.mk "Unsupported statement" 0 0)
  | _ :: rest => miniBlock input rest
  end.

Definition miniField (name : string) (body : list (Statement Literal))
  : Evaluated (option MiniValue) :=
  match sectionsNamed name body with
  | [] => Done None
  | (_, b) :: _ =>
      match miniBlock MiniNil b with
      | Done v => Done (Some v)
      | Failed err => Failed err
      end
  end.

Definition miniTest (body : list (Statement Literal))
  : Evaluated (TestSpec.t MiniValue) :=
  match miniField "input" body, miniField "part_one" body, miniField "part_two" body with
  | Done i, Done p1, Done p2 =>
      Done (TestSpec.mk (match i with Some v => v | None => MiniNil end) p1 p2)
  | Failed err, _, _ | _, Failed err, _ | _, _, Failed err => Failed err
  end.

Definition miniPart (program : list (Statement Literal))
    (bodies : list (list (Statement Literal))) (input : MiniValue)
  : Evaluated MiniValue :=
  match bodies with
  | [] => Done MiniNil
  | b :: _ => miniBlock input b
  end.

Definition miniInput (program : list (Statement Literal)) : Evaluated MiniValue :=
  match sectionsNamed "input" program with
  | [] => Done MiniNil
  | (_, b) :: _ => miniBlock MiniNil b
  end.

#[global] Instance miniEvaluator : Evaluator Literal MiniValue :=
  {| inspect := miniInspect; evalTest := miniTest; evalPart := miniPart;
     evalInput := miniInput; evalScript := miniBlock MiniNil |}.

(** ** Runtime values with hash and equality

    [evaluator/object/type.ts] declares the capability:
    [ValueObj = Obj & { hashCode(): number; equals(that: Obj): boolean }].
    The classes that implement it are not among the source files. *)

(** [l] without its first element that satisfies [p]; [None] when no
    element does. *)
Fixpoint removeFirst {A} (p : A -> bool) (l : list A) : option (list A) :=
  match l with
  | [] => None
  | x :: rest =>
      if p x then Some rest
      else option_map (cons x) (removeFirst p rest)
  end.

(** Modelled from the spec: structural equality of two ordered
    sequences, element by element. *)
Fixpoint equalsOrdered {A} (eq : A -> A -> bool) (xs ys : list A) : bool :=
  match xs, ys with
  | [], [] => true
  | x :: xs', y :: ys' => eq x y && equalsOrdered eq xs' ys'
  | _, _ => false
  end.

(** Modelled from the spec: structural equality of two collections
    whose insertion order is irrelevant.  Every element of the first is
    matched with an element of the second of its own, and none is left
    over. *)
Fixpoint equalsUnordered {A} (eq : A -> A -> bool) (xs ys : list A) : bool :=
  match xs with
  | [] => match ys with [] => true | _ => false end
  | x :: xs' =>
      match removeFirst (eq x) ys with
      | Some ys' => equalsUnordered eq xs' ys'
      | None => false
      end
  end.

(** Modelled from the spec: a hash is a JavaScript number, here a 32-bit
    one. *)
Definition wrap32 (z : Z) : Z := z mod 2 ^ 32.

(** Modelled from the spec: the order-sensitive combination of the
    hashes of a List or String (section 4.3). *)
Definition hashOrdered (hashes : list Z) : Z :=
  fold_left (fun h x => wrap32 (31 * h + x)) hashes 1.

(** Modelled from the spec: the order-insensitive combination of the
    hashes of a Dict or Set (section 4.3). *)
Definition hashUnordered (hashes : list Z) : Z :=
  wrap32 (fold_right Z.add 0 hashes).

(** Modelled from the spec: a String hashes over its characters, in
    order. *)
Definition hashString (s : string) : Z :=
  hashOrdered (map (fun c => Z.of_nat (nat_of_ascii c)) (list_ascii_of_string s)).

(** Modelled from the spec: the hash of a Decimal, an IEEE-754 number;
    both zeros hash alike, as they are equal. *)
Definition hashDecimal (d : spec_float) : Z :=
  match d with
  | S754_zero _ => 0
  | S754_infinity s => if s then 4293918720 else 2146435072
  | S754_nan => 2146959360
  | S754_finite s m e => wrap32 ((if s then 1 else 0) + 2 * Z.pos m + 31 * e)
  end.

(** Equality of the optional upper bound of two Ranges. *)
Definition equalsOption (a b : option Z) : bool :=
  match a, b with
  | Some x, Some y => Z.eqb x y
  | None, None => true
  | _, _ => false
  end.

Module O.

(** Modelled from the spec: the runtime values of the hashable kinds
    (section 3, "Value" values).  Integers are arbitrary precision, a
    Decimal is an IEEE-754 number, a List is an ordered sequence, a Dict
    and a Set list their entries in insertion order, and a Range is
    defined by (start, end or none, step, inclusive). *)
Inductive Obj :=
| Integer (value : Z)
| Decimal (value : spec_float)
| Str (value : string)
| Bool (value : bool)
| Nil
| List (items : list Obj)
| Dictionary (items : list (Obj * Obj))
| Set_ (items : list Obj)
| Range (start : Z) (end_ : option Z) (step : Z) (inclusive : bool).

(** Modelled from the spec: [equals] of the value classes (section 4.3,
    "Equality and hashing: structurally defined for all value values").
    Values of different kinds are different; a Decimal compares as
    IEEE-754 numbers do; a List compares element by element in order;
    for a Dict and a Set the insertion order is irrelevant. *)
Fixpoint equals (this that : Obj) {struct this} : bool :=
  match this, that with
  | Integer a, Integer b => Z.eqb a b
  | Decimal a, Decimal b => SFeqb a b
  | Str a, Str b => String.eqb a b
  | Bool a, Bool b => Bool.eqb a b
  | Nil, Nil => true
  | List xs, List ys => equalsOrdered equals xs ys
  | Dictionary xs, Dictionary ys =>
      equalsUnordered
        (fun x y => equals (fst x) (fst y) && equals (snd x) (snd y)) xs ys
  | Set_ xs, Set_ ys => equalsUnordered equals xs ys
  | Range s1 e1 t1 i1, Range s2 e2 t2 i2 =>
      Z.eqb s1 s2 && equalsOption e1 e2 && Z.eqb t1 t2 && Bool.eqb i1 i2
  | _, _ => false
  end.

(** Modelled from the spec: [hashCode] of the value classes (section 4.3,
    "Collections hash over content with order-insensitive combination for
    Dict and Set and order-sensitive for List and String"). *)
Fixpoint hashCode (this : Obj) : Z :=
  match this with
  | Integer a => wrap32 a
  | Decimal a => hashDecimal a
  | Str a => hashString a
  | Bool a => if a then 1108378657 else 1108378656
  | Nil => 1108378658
  | List xs => hashOrdered (map hashCode xs)
  | Dictionary xs =>
      hashUnordered (map (fun x => wrap32 (31 * hashCode (fst x) + hashCode (snd x))) xs)
  | Set_ xs => hashUnordered (map hashCode xs)
  | Range s e t i =>
      hashOrdered [wrap32 s; match e with Some z => wrap32 z | None => 0 end;
                   wrap32 t; if i then 1 else 0]
  end.

End O.

(** ** The rest of [output.ts]: run documents and JSONL streaming *)

Module JsonPartResult.
(** The constant field [status: 'complete'] is carried by the type. *)
Record t := mk { value : string; duration_ms : Z }.
End JsonPartResult.

(** [JsonScriptOutput | JsonSolutionOutput]; a part of the solution
    document is an optional property. *)
Inductive JsonRunOutput :=
| JsonScriptOutput (value : string) (duration_ms : Z)
    (console : list ConsoleEntry.t)
| JsonSolutionOutput (part_one part_two : option JsonPartResult.t)
    (console : list ConsoleEntry.t).

(** [if (result.partOne) { output.part_one = {...} }] *)
Definition jsonPartResult (p : option ResultValue.t) : option JsonPartResult.t :=
  match p with
  | Some r => Some (JsonPartResult.mk (ResultValue.value r) (ResultValue.duration r))
  | None => None
  end.

Definition formatRunJson (result : RunResult) (console : list ConsoleEntry.t)
  : JsonRunOutput :=
  match result with
  | ScriptResult value duration => JsonScriptOutput value duration console
  | SolutionResult partOne partTwo =>
      JsonSolutionOutput (jsonPartResult partOne) (jsonPartResult partTwo) console
  end.

Inductive PatchOp := op_replace | op_add.

(** The values the CLI puts in a patch ([value: unknown]): status words
    and result values, durations and counters, the success flag, a test
    part, a console entry, and the error object, whose [stack] is always
    empty. *)
Inductive PatchValue :=
| PString (s : string)
| PNumber (z : Z)
| PBool (b : bool)
| PTestPart (r : JsonTestPartResult.t)
| PConsoleEntry (e : ConsoleEntry.t)
| PError (message : string) (location : ErrorLocation.t).

Module JsonPatch.
Record t := mk { op : PatchOp; path : string; value : PatchValue }.
End JsonPatch.

Definition replacePatch (path : string) (value : PatchValue) : JsonPatch.t :=
  JsonPatch.mk op_replace path value.

Definition addPatch (path : string) (value : PatchValue) : JsonPatch.t :=
  JsonPatch.mk op_add path value.

(** [{ status: 'pending', value: null, duration_ms: null }] *)
Inductive JsonlPartInitial := pendingPart.

Module JsonlSolutionInitial.
(** [type: 'solution'], [status: 'pending'] and [console: []] are
    constants. *)
Record t := mk {
    part_one : option JsonlPartInitial;
    part_two : option JsonlPartInitial }.
End JsonlSolutionInitial.

Module JsonlTestCaseInitial.
(** [status: 'pending'], [part_one: null] and [part_two: null] are
    constants. *)
Record t := mk { index : nat; slow : bool }.
End JsonlTestCaseInitial.

Module JsonlTestInitial.
(** [type: 'test'], [status: 'pending'], [success: null] and
    [console: []] are constants. *)
Record t := mk {
    summary : TestSummary.t;
    tests : list JsonlTestCaseInitial.t }.
End JsonlTestInitial.

Definition createSolutionInitial (hasPartOne hasPartTwo : bool)
  : JsonlSolutionInitial.t :=
  JsonlSolutionInitial.mk
    (if hasPartOne then Some pendingPart else None)
    (if hasPartTwo then Some pendingPart else None).

Definition createTestInitial (testCases : list TestCase.t) : JsonlTestInitial.t :=
  JsonlTestInitial.mk
    (TestSummary.mk (length testCases) 0 0 0)
    (imap (fun i tc => JsonlTestCaseInitial.mk (i + 1) (TestCase.slow tc)) testCases).

(** A line of a JSONL stream: [writeLine] of one of the three initial
    documents ([createScriptInitial] has no variable part), or
    [writePatches] of a list of patches. *)
Inductive JsonlLine :=
| SolutionInitialLine (initial : JsonlSolutionInitial.t)
| ScriptInitialLine
| TestInitialLine (initial : JsonlTestInitial.t)
| PatchesLine (patches : list JsonPatch.t).

(** ** The rest of [index.ts]: arguments, run mode, JSONL and errors *)

(** The decimal text of a count, as a template literal prints it. *)
Definition natToString (n : nat) : string :=
  NilEmpty.string_of_uint (Nat.to_uint n).


(** [args.findIndex(arg => arg === short || arg === long)], with [None]
    for -1. *)
Fixpoint findFlag (short long : string) (args : list string) : option nat :=
  match args with
  | [] => None
  | a :: rest =>
      if String.eqb a short || String.eqb a long then Some 0%nat
      else option_map S (findFlag short long rest)
  end.

(** [index !== -1 && args[index + 1] ? args[index + 1] : null]: the
    argument after a flag, when there is one and it is not empty. *)
Definition flagValue (short long : string) (args : list string) : option string :=
  match findFlag short long args with
  | Some i =>
      match args !! S i with
      | Some (String c v) => Some (String c v)
      | _ => None
      end
  | None => None
  end.


(** [s.endsWith(suffix)] *)
Definition endsWith (s suffix : string) : bool :=
  String.eqb
    (String.substring (String.length s - String.length suffix)
       (String.length suffix) s)
    suffix
  && (String.length suffix <=? String.length s)%nat.

(** [args.find(arg => arg.endsWith('.santa'))] *)
Definition findScriptFile (args : list string) : option string :=
  List.find (fun arg => endsWith arg ".santa") args.

(** Where the source comes from: [-e] before a script file before
    standard input. *)
Inductive SourceChoice :=
| FromEval (code : string)
| FromFile (path : string)
| FromStdin.


Definition chooseSource (args : list string) : SourceChoice :=
  match flagValue "-e" "--eval" args with
  | Some code => FromEval code
  | None =>
      match findScriptFile args with
      | Some path => FromFile path
      | None => FromStdin
      end
  end.



(** What the CLI itself writes to standard output, one constructor per
    [console.log] format; a JSON document is the object handed to
    [JSON.stringify]. *)
Inductive StdoutLine :=
| LogText (s : string)
| LogPart (part : nat) (value : string) (duration : Z)   (* Part n: value durationms *)
| LogTest (l : LogLine)
| LogSourcePreview (filename source : string) (line column : Z)
| LogJsonRun (o : JsonRunOutput)
| LogJsonTest (o : JsonTestOutput.t)
| LogJsonError (o : JsonErrorOutput.t)
| LogJsonl (l : JsonlLine).

(** [writeLine] and [writePatches] of [output.ts] log one line each. *)
Definition writePatches (patches : list JsonPatch.t) : list StdoutLine :=
  [LogJsonl (PatchesLine patches)].

(** Run mode, JSONL, before the code runs: the initial state and the
    [running] patches. *)
Definition runModePrelude (outputMode : OutputMode) (source : string)
  : list StdoutLine :=
  match outputMode with
  | jsonl =>
      let s := isSolutionSource source in
      let hasPartOne := SolutionSource.hasPartOne s in
      let hasPartTwo := SolutionSource.hasPartTwo s in
      if hasPartOne || hasPartTwo then
        LogJsonl (SolutionInitialLine (createSolutionInitial hasPartOne hasPartTwo))
          :: writePatches [replacePatch "/status" (PString "running")]
          ++ (if hasPartOne
              then writePatches [replacePatch "/part_one/status" (PString "running")]
              else [])
          ++ (if hasPartTwo
              then writePatches [replacePatch "/part_two/status" (PString "running")]
              else [])
      else
        LogJsonl ScriptInitialLine
          :: writePatches [replacePatch "/status" (PString "running")]
  | text | json => []
  end.

(** [for (const entry of consoleEntries) writePatches([addPatch('/console/-', entry)])] *)
Definition consolePatches (consoleEntries : list ConsoleEntry.t) : list StdoutLine :=
  flat_map (fun entry => writePatches [addPatch "/console/-" (PConsoleEntry entry)])
    consoleEntries.

(** The three patches that complete a part, written when the result has
    the part and the initial state announced it. *)
Definition partPatches (name : string) (announced : bool)
    (p : option ResultValue.t) : list StdoutLine :=
  match p with
  | Some r =>
      if announced then
        writePatches
          [replacePatch ("/" +:+ name +:+ "/status") (PString "complete");
           replacePatch ("/" +:+ name +:+ "/value") (PString (ResultValue.value r));
           replacePatch ("/" +:+ name +:+ "/duration_ms")
             (PNumber (ResultValue.duration r))]
      else []
  | None => []
  end.

Definition textPartLine (part : nat) (p : option ResultValue.t) : list StdoutLine :=
  match p with
  | Some r => [LogPart part (ResultValue.value r) (ResultValue.duration r)]
  | None => []
  end.

(** Run mode after [run] has returned: what is logged, and the exit
    code. *)
Definition runModeReport (outputMode : OutputMode) (source : string)
    (result : RunResult) (consoleEntries : list ConsoleEntry.t)
  : list StdoutLine * Z :=
  match outputMode with
  | text =>
      (match result with
       | ScriptResult value _ => [LogText value]
       | SolutionResult partOne partTwo =>
           textPartLine 1 partOne ++ textPartLine 2 partTwo
       end, 0)
  | json => ([LogJsonRun (formatRunJson result consoleEntries)], 0)
  | jsonl =>
      let s := isSolutionSource source in
      let hasPartOne := SolutionSource.hasPartOne s in
      let hasPartTwo := SolutionSource.hasPartTwo s in
      (consolePatches consoleEntries
         ++ (if hasPartOne || hasPartTwo then
               match result with
               | SolutionResult partOne partTwo =>
                   partPatches "part_one" hasPartOne partOne
                     ++ partPatches "part_two" hasPartTwo partTwo
               | ScriptResult _ _ => []
               end
               ++ writePatches [replacePatch "/status" (PString "complete")]
             else
               match result with
               | ScriptResult value duration =>
                   writePatches
                     [replacePatch "/status" (PString "complete");
                      replacePatch "/value" (PString value);
                      replacePatch "/duration_ms" (PNumber duration)]
               | SolutionResult _ _ => []
               end), 0)
  end.

(** [replacePatch(`${pathPrefix}/part_one`, partResult)] under
    [hasPartOne && tc.partOne]. *)
Definition testPartPatch (pathPrefix name : string) (hasPart : bool)
    (p : option TestCaseResult.t) : list JsonPatch.t :=
  match jsonPart hasPart p with
  | Some partResult => [replacePatch (pathPrefix +:+ "/" +:+ name) (PTestPart partResult)]
  | None => []
  end.

(** One iteration of the JSONL test loop: the [writePatches] calls it
    makes and the counters after it. *)
Definition jsonlTestCaseLines (hasPartOne hasPartTwo : bool) (i : nat)
    (tc : TestCase.t) (c : Counters.t) : list (list JsonPatch.t) * Counters.t :=
  let pathPrefix := "/tests/" +:+ natToString i in
  if TestCase.skipped tc then
    let c' := Counters.incSkipped c in
    ([[replacePatch (pathPrefix +:+ "/status") (PString "skipped");
       replacePatch "/summary/skipped" (PNumber (Z.of_nat (Counters.skipped c')))]],
     c')
  else
    let c' := if allPassed tc then Counters.incPassed c else Counters.incFailed c in
    ([[replacePatch (pathPrefix +:+ "/status") (PString "running")];
      replacePatch (pathPrefix +:+ "/status") (PString "complete")
        :: testPartPatch pathPrefix "part_one" hasPartOne (TestCase.partOne tc)
        ++ testPartPatch pathPrefix "part_two" hasPartTwo (TestCase.partTwo tc)
        ++ [if allPassed tc
            then replacePatch "/summary/passed" (PNumber (Z.of_nat (Counters.passed c')))
            else replacePatch "/summary/failed" (PNumber (Z.of_nat (Counters.failed c')))]],
     c').

Fixpoint jsonlTestCasesLines (hasPartOne hasPartTwo : bool) (i : nat)
    (testCases : list TestCase.t) (c : Counters.t)
  : list (list JsonPatch.t) * Counters.t :=
  match testCases with
  | [] => ([], c)
  | tc :: rest =>
      let '(l, c1) := jsonlTestCaseLines hasPartOne hasPartTwo i tc c in
      let '(ls, c2) := jsonlTestCasesLines hasPartOne hasPartTwo (S i) rest c1 in
      (l ++ ls, c2)
  end.

(** The JSONL branch of test mode in full: every line it writes, and the
    exit code. *)
Definition jsonlTestModeLines (testCases : list TestCase.t)
    (hasPartOne hasPartTwo : bool) (consoleEntries : list ConsoleEntry.t)
  : list StdoutLine * Z :=
  let '(body, c) :=
    jsonlTestCasesLines hasPartOne hasPartTwo 0%nat testCases Counters.zero in
  let success := Nat.eqb (Counters.failed c) 0 in
  (LogJsonl (TestInitialLine (createTestInitial testCases))
     :: writePatches [replacePatch "/status" (PString "running")]
     ++ consolePatches consoleEntries
     ++ flat_map writePatches body
     ++ writePatches [replacePatch "/status" (PString "complete");
                      replacePatch "/success" (PBool success)],
   if success then 0 else 3).

(** Test mode after [runTests] has returned. *)
Definition testModeReport (outputMode : OutputMode) (source : string)
    (testCases : list TestCase.t) (consoleEntries : list ConsoleEntry.t)
  : list StdoutLine * Z :=
  let s := isSolutionSource source in
  let hasPartOne := SolutionSource.hasPartOne s in
  let hasPartTwo := SolutionSource.hasPartTwo s in
  match outputMode with
  | text =>
      let '(lines, exitCode) := textTestMode testCases in
      (map LogTest lines, exitCode)
  | json =>
      let '(output, exitCode) :=
        jsonTestMode testCases hasPartOne hasPartTwo consoleEntries in
      ([LogJsonTest output], exitCode)
  | jsonl => jsonlTestModeLines testCases hasPartOne hasPartTwo consoleEntries
  end.

(** [filename || '<stdin>'] *)
Definition previewName (filename : option string) : string :=
  match filename with
  | Some (String c f) => String c f
  | _ => "<stdin>"
  end.

(** The [catch] block: what is logged for an error carrying a message
    and a zero-indexed position, and the exit code. *)
Definition errorReport (outputMode : OutputMode) (isTestRun : bool)
    (filename : option string) (source : string) (err : ErrorInfo.t)
  : list StdoutLine * Z :=
  match outputMode with
  | text =>
      ([LogSourcePreview (previewName filename) source
          (ErrorInfo.line err) (ErrorInfo.column err);
        LogText (ErrorInfo.message err)], 2)
  | json => ([LogJsonError (formatErrorJson err)], 2)
  | jsonl =>
      let s := isSolutionSource source in
      let hasPartOne := SolutionSource.hasPartOne s in
      let hasPartTwo := SolutionSource.hasPartTwo s in
      (LogJsonl
         (if isTestRun then TestInitialLine (createTestInitial [])
          else if hasPartOne || hasPartTwo
               then SolutionInitialLine (createSolutionInitial hasPartOne hasPartTwo)
               else ScriptInitialLine)
         :: writePatches [replacePatch "/status" (PString "running")]
         ++ writePatches
              [replacePatch "/status" (PString "error");
               addPatch "/error"
                 (PError (ErrorInfo.message err)
                    (ErrorLocation.mk (ErrorInfo.line err + 1)
                       (ErrorInfo.column err + 1)))],
       2)
  end.

(** The [try]/[catch] of [index.ts] once the source is known, given what
    the runner did: its result or the error it threw, and the console
    entries that [disableConsoleCapture] hands back. *)
Definition report (outputMode : OutputMode) (isTestRun : bool)
    (filename : option string) (source : string)
    (runOutcome : Evaluated RunResult)
    (testOutcome : Evaluated (list TestCase.t))
    (consoleEntries : list ConsoleEntry.t) : list StdoutLine * Z :=
  if isTestRun then
    match testOutcome with
    | Done testCases => testModeReport outputMode source testCases consoleEntries
    | Failed err => errorReport outputMode isTestRun filename source err
    end
  else
    let prelude := runModePrelude outputMode source in
    let '(lines, exitCode) :=
      match runOutcome with
      | Done result => runModeReport outputMode source result consoleEntries
      | Failed err => errorReport outputMode isTestRun filename source err
      end in
    (prelude ++ lines, exitCode).

(** ** Vocabulary of the properties *)

(** The bucket of the summary a test case is counted in. *)
Inductive Bucket := inSkipped | inPassed | inFailed.

Definition bucket (tc : TestCase.t) : Bucket :=
  if TestCase.skipped tc then inSkipped
  else if allPassed tc then inPassed
  else inFailed.

Definition sameBucket (a b : Bucket) : bool :=
  match a, b with
  | inSkipped, inSkipped | inPassed, inPassed | inFailed, inFailed => true
  | _, _ => false
  end.

(** How many test cases of a list fall in bucket [b]. *)
Definition countIn (b : Bucket) (testCases : list TestCase.t) : nat :=
  length (filter (fun tc => sameBucket (bucket tc) b = true) testCases).

(** A test case that was run and has a part whose comparison failed. *)
Definition failedComparison (tc : TestCase.t) : Prop :=
  TestCase.skipped tc = false /\
  exists r, (TestCase.partOne tc = Some r \/ TestCase.partTwo tc = Some r) /\
            TestCaseResult.hasPassed r = false.

(** The equality [eq] respects the hash [h] at [x]: whatever [x] equals
    has the hash of [x]. *)
Definition respects {A} (eq : A -> A -> bool) (h : A -> Z) (x : A) : Prop :=
  forall y, eq x y = true -> h x = h y.

(** Two Dicts with the same entries inserted in different orders; the
    zeros of the Decimals differ in sign. *)
Definition dictThis : O.Obj :=
  O.Dictionary
    [(O.Str "a", O.List [O.Integer 1; O.Decimal (S754_zero false)]);
     (O.Integer 2, O.Set_ [O.Nil; O.Bool true; O.Range 1 None 1 false])].

Definition dictThat : O.Obj :=
  O.Dictionary
    [(O.Integer 2, O.Set_ [O.Range 1 None 1 false; O.Bool true; O.Nil]);
     (O.Str "a", O.List [O.Integer 1; O.Decimal (S754_zero true)])].

(** The annotations a statement carries, outermost first. *)
Fixpoint annotations {E} (s : Statement E) : list string :=
  match s with
  | Annotated a s' => a :: annotations s'
  | _ => []
  end.

(** The declaration a statement is once its annotations are taken off. *)
Fixpoint declaration {E} (s : Statement E) : Statement E :=
  match s with
  | Annotated _ s' => declaration s'
  | _ => s
  end.

(** The statement declares a section called [name]. *)
Definition isSectionNamed {E} (name : string) (s : Statement E) : bool :=
  match declaration s with
  | Section_ n _ => String.eqb n name
  | _ => false
  end.

(** How many of the statements declare a section called [name]. *)
Definition sectionCount {E} (name : string) (program : list (Statement E)) : nat :=
  length (List.filter (isSectionNamed name) program).

(** A script whose only mention of a part is in a line comment. *)
Definition commentedSource : string :=
  "// part_two: not yet
14".

(** The source of the first case of the runner's test file
    ([runner/index.test.ts]): one part, a plain test and a slow test. *)
Definition testFileSource : string :=
  "
      part_one: { 1 }

      test: {
        part_one: 1
      }

      @slow
      test: {
        part_one: 1
      }
    ".

(** [l] never goes down from one position to a later one. *)
Definition nonDecreasing (l : list Z) : Prop :=
  forall i j a b, (i <= j)%nat -> l !! i = Some a -> l !! j = Some b -> a <= b.

(** The wall clock is not stepped back from the next reading on. *)
Definition clockNeverStepsBack (w : World.t) : Prop :=
  forall i j, (World.clockReads w <= i)%nat -> (i <= j)%nat ->
              World.clock w i <= World.clock w j.

(** The entries a capture started at [start] holds after the [puts] calls
    [calls], when the clock has been read [n] times before them: a call
    without arguments leaves no entry and reads no clock. *)
Fixpoint entriesOf (clock : nat -> Z) (start : Z) (n : nat)
    (calls : list (list string)) : list ConsoleEntry.t :=
  match calls with
  | [] => []
  | [] :: rest => entriesOf clock start n rest
  | args :: rest =>
      ConsoleEntry.mk (clock n - start) (join " " args)
        :: entriesOf clock start (S n) rest
  end.

(** The messages of the calls that have arguments, in call order. *)
Fixpoint messagesOf (calls : list (list string)) : list string :=
  match calls with
  | [] => []
  | [] :: rest => messagesOf rest
  | args :: rest => join " " args :: messagesOf rest
  end.

(** Every character of [s] is white space. *)
Fixpoint allWhiteSpace (s : string) : bool :=
  match s with
  | EmptyString => true
  | String c rest => isWhiteSpace c && allWhiteSpace rest
  end.

Fixpoint lastChar (s : string) : option ascii :=
  match s with
  | EmptyString => None
  | String c EmptyString => Some c
  | String _ rest => lastChar rest
  end.

(** [t] is [s] without its trailing white space. *)
Definition trimmedOf (s t : string) : Prop :=
  (exists blanks, s = t +:+ blanks /\ allWhiteSpace blanks = true) /\
  (forall c, lastChar t = Some c -> isWhiteSpace c = false).

(** [new URL] on the absolute URLs [scheme://host/path] that the examples
    use; any other text is not a URL. *)
Definition schemeURL (path : string) : option URL.t :=
  let '(scheme, rest) := spanWhile (fun c => negb (Ascii.eqb c ":")) path in
  match scheme, rest with
  | String _ _, String _ (String s1 (String s2 rest')) =>
      if Ascii.eqb s1 slash && Ascii.eqb s2 slash then
        let '(host, pathname) := spanWhile (fun c => negb (Ascii.eqb c slash)) rest' in
        Some (URL.mk (scheme +:+ ":") host pathname)
      else None
  | _, _ => None
  end.

(** A machine with an empty working directory where every file can be
    written, a clock that advances one millisecond per reading, and a
    network on which every download succeeds with a three-line body. *)
Definition freshWorld (env : gmap string string) : World.t :=
  World.mk None 0 [] (fun n => Z.of_nat n) 0 ∅ (fun _ => true) env
    (fun _ => SpawnResult.mk 0 ("199" +:+ String newline ("200" +:+ String newline
                                 ("208" +:+ String newline EmptyString))))
    schemeURL.

(** The same machine in a directory where nothing can be written. *)
Definition readOnlyWorld (env : gmap string string) : World.t :=
  World.mk None 0 [] (fun n => Z.of_nat n) 0 ∅ (fun _ => false) env
    (World.spawn (freshWorld env)) schemeURL.

(** A machine whose wall clock is set back by the operating system: the
    readings are 1000, 1010 and then 950 for ever. *)
Definition steppedBackWorld : World.t :=
  World.mk None 0 []
    (fun n => match n with O => 1000 | S O => 1010 | _ => 950 end)
    0 ∅ (fun _ => true) ∅ (World.spawn (freshWorld ∅)) schemeURL.

(** The patches of a stream, in the order they were written. *)
Definition patchesOf (lines : list StdoutLine) : list JsonPatch.t :=
  flat_map (fun l => match l with
                     | LogJsonl (PatchesLine patches) => patches
                     | _ => []
                     end) lines.

Definition replaces (path : string) (p : JsonPatch.t) : bool :=
  match JsonPatch.op p with
  | op_replace => String.eqb (JsonPatch.path p) path
  | op_add => false
  end.

(** The value that the last [replace] patch at [path] puts there; [None]
    when no patch replaces it. *)
Fixpoint lastReplaced (path : string) (patches : list JsonPatch.t)
  : option PatchValue :=
  match patches with
  | [] => None
  | p :: rest =>
      match lastReplaced path rest with
      | Some v => Some v
      | None => if replaces path p then Some (JsonPatch.value p) else None
      end
  end.

(** The field at [path] after the patches, when it started as [initial]. *)
Definition replacedOr (initial : PatchValue) (path : string)
    (patches : list JsonPatch.t) : PatchValue :=
  match lastReplaced path patches with
  | Some v => v
  | None => initial
  end.

(** The values that [add] patches append at [path], in order. *)
Definition addedAt (path : string) (patches : list JsonPatch.t) : list PatchValue :=
  flat_map (fun p => match JsonPatch.op p with
                     | op_add =>
                         if String.eqb (JsonPatch.path p) path
                         then [JsonPatch.value p] else []
                     | op_replace => []
                     end) patches.

(** The status word of a test in a JSON document. *)
Definition statusWord (s : TestStatus) : string :=
  match s with
  | complete => "complete"
  | status_skipped => "skipped"
  end.

(** The header a line of the text test report is, if it is one: the
    number it shows and its label. *)
Inductive HeaderLabel := plainHeader | slowHeader | skippedHeader.

Definition headerOf (l : LogLine) : option (nat * HeaderLabel) :=
  match l with
  | testcase n => Some (n, plainHeader)
  | testcaseSlow n => Some (n, slowHeader)
  | testcaseSkipped n => Some (n, skippedHeader)
  | _ => None
  end.

Definition headerLabel (tc : TestCase.t) : HeaderLabel :=
  if TestCase.skipped tc then skippedHeader
  else if TestCase.slow tc then slowHeader
  else plainHeader.

(** Every character of [s] is a decimal digit. *)
Fixpoint allDigits (s : string) : bool :=
  match s with
  | EmptyString => true
  | String c rest => isDigit c && allDigits rest
  end.

(** The initial documents of a stream, in the order they were written. *)
Definition initialsOf (lines : list StdoutLine) : list JsonlLine :=
  flat_map (fun l => match l with
                     | LogJsonl (PatchesLine _) => []
                     | LogJsonl initial => [initial]
                     | _ => []
                     end) lines.

(** * Properties *)

(** ** The JSON test summary *)

Lemma countIn_cons b tc tcs :
  countIn b (tc :: tcs) =
  ((if sameBucket (bucket tc) b then 1 else 0) + countIn b tcs)%nat.
Proof.
  unfold countIn. rewrite filter_cons.
  destruct (sameBucket (bucket tc) b); case_decide; simpl; congruence.
Qed.

Lemma countIn_app b l1 l2 :
  countIn b (l1 ++ l2) = (countIn b l1 + countIn b l2)%nat.
Proof. unfold countIn. by rewrite filter_app, length_app. Qed.

Lemma countIn_total tcs :
  (countIn inPassed tcs + countIn inFailed tcs + countIn inSkipped tcs)%nat
  = length tcs.
Proof.
  induction tcs as [|tc tcs IH]; [reflexivity|].
  rewrite !countIn_cons. simpl length.
  destruct (bucket tc); simpl; lia.
Qed.

(** The counters after the traversal are the counters before it plus the
    number of test cases in each bucket; the position of a test does not
    matter. *)
Lemma formatTestCases_counters h1 h2 tcs : forall i c,
  let c' := snd (formatTestCases h1 h2 i tcs c) in
  Counters.passed c' = (Counters.passed c + countIn inPassed tcs)%nat /\
  Counters.failed c' = (Counters.failed c + countIn inFailed tcs)%nat /\
  Counters.skipped c' = (Counters.skipped c + countIn inSkipped tcs)%nat.
Proof.
  induction tcs as [|tc tcs IH]; intros i c; simpl.
  - unfold countIn; simpl; lia.
  - destruct (formatTestCase h1 h2 i tc c) as [j c1] eqn:Hone.
    specialize (IH (S i) c1).
    destruct (formatTestCases h1 h2 (S i) tcs c1) as [js c2]; simpl in *.
    rewrite !countIn_cons.
    unfold formatTestCase in Hone. unfold bucket.
    destruct (TestCase.skipped tc); [|destruct (allPassed tc)];
      inversion Hone; subst; simpl in *; lia.
Qed.

Lemma formatTestCases_length h1 h2 tcs : forall i c,
  length (fst (formatTestCases h1 h2 i tcs c)) = length tcs.
Proof.
  induction tcs as [|tc tcs IH]; intros i c; simpl; [reflexivity|].
  destruct (formatTestCase h1 h2 i tc c) as [j c1].
  specialize (IH (S i) c1).
  destruct (formatTestCases h1 h2 (S i) tcs c1) as [js c2]; simpl in *.
  by rewrite IH.
Qed.

(** The element built for a test case does not depend on the counters:
    it carries the one-based position, the [slow] flag, and the status
    [skipped] exactly when the test case was skipped. *)
Lemma formatTestCase_element h1 h2 i tc c :
  let j := fst (formatTestCase h1 h2 i tc c) in
  JsonTestCase.index j = (i + 1)%nat /\
  JsonTestCase.slow j = TestCase.slow tc /\
  (JsonTestCase.status j = status_skipped <-> TestCase.skipped tc = true) /\
  (TestCase.skipped tc = true ->
   JsonTestCase.part_one j = None /\ JsonTestCase.part_two j = None).
Proof.
  unfold formatTestCase.
  destruct (TestCase.skipped tc); simpl; intuition congruence.
Qed.

Lemma formatTestCases_lookup h1 h2 tcs : forall i c k tc,
  tcs !! k = Some tc ->
  exists c',
    fst (formatTestCases h1 h2 i tcs c) !! k
    = Some (fst (formatTestCase h1 h2 (i + k) tc c')).
Proof.
  induction tcs as [|t tcs IH]; intros i c k tc Hk; [destruct k; discriminate|].
  simpl. destruct (formatTestCase h1 h2 i t c) as [j c1] eqn:Hone.
  specialize (IH (S i) c1).
  destruct (formatTestCases h1 h2 (S i) tcs c1) as [js c2]; simpl in *.
  destruct k as [|k]; simpl in *.
  - injection Hk as <-. exists c. rewrite Nat.add_0_r, Hone. reflexivity.
  - destruct (IH k tc Hk) as (c' & Hc'). exists c'.
    rewrite Hc'. do 3 f_equal. lia.
Qed.

Lemma formatTestJson_tests tcs h1 h2 con i tc :
  tcs !! i = Some tc ->
  exists j,
    JsonTestOutput.tests (formatTestJson tcs h1 h2 con) !! i = Some j /\
    JsonTestCase.index j = (i + 1)%nat /\
    JsonTestCase.slow j = TestCase.slow tc /\
    (JsonTestCase.status j = status_skipped <-> TestCase.skipped tc = true) /\
    (TestCase.skipped tc = true ->
     JsonTestCase.part_one j = None /\ JsonTestCase.part_two j = None).
Proof.
  intros Hi. unfold formatTestJson.
  destruct (formatTestCases_lookup h1 h2 tcs 0%nat Counters.zero i tc Hi)
    as (c' & Hlook).
  destruct (formatTestCases h1 h2 0 tcs Counters.zero) as [js c]; simpl in *.
  eexists. split; [exact Hlook|]. apply formatTestCase_element.
Qed.

Lemma formatTestJson_summary tcs h1 h2 con :
  JsonTestOutput.summary (formatTestJson tcs h1 h2 con) =
  TestSummary.mk (length tcs) (countIn inPassed tcs) (countIn inFailed tcs)
    (countIn inSkipped tcs).
Proof.
  unfold formatTestJson.
  pose proof (formatTestCases_counters h1 h2 tcs 0%nat Counters.zero) as H.
  destruct (formatTestCases h1 h2 0 tcs Counters.zero) as [js c]; simpl in *.
  destruct H as (-> & -> & ->). reflexivity.
Qed.

Lemma formatTestJson_success tcs h1 h2 con :
  JsonTestOutput.success (formatTestJson tcs h1 h2 con) =
  Nat.eqb (countIn inFailed tcs) 0.
Proof.
  unfold formatTestJson.
  pose proof (formatTestCases_counters h1 h2 tcs 0%nat Counters.zero) as H.
  destruct (formatTestCases h1 h2 0 tcs Counters.zero) as [js c]; simpl in *.
  destruct H as (_ & -> & _). reflexivity.
Qed.

(** C9. For every list of test-case results the summary of
    [formatTestJson] partitions the tests: the document lists one test
    per test case, [total] is the number of test cases, [passed + failed + skipped = total], every test case falls in
    exactly one bucket (skipped when its [skipped] flag is set, otherwise
    passed or failed according to [allPassed]), and each counter is the
    number of test cases in its bucket. *)
Theorem formatTestJson_partition (testCases : list TestCase.t)
    (hasPartOne hasPartTwo : bool) (console : list ConsoleEntry.t) :
  let s := JsonTestOutput.summary
             (formatTestJson testCases hasPartOne hasPartTwo console) in
  length (JsonTestOutput.tests
            (formatTestJson testCases hasPartOne hasPartTwo console))
    = length testCases /\
  TestSummary.total s = length testCases /\
  (TestSummary.passed s + TestSummary.failed s + TestSummary.skipped s)%nat
    = TestSummary.total s /\
  TestSummary.skipped s = countIn inSkipped testCases /\
  TestSummary.passed s = countIn inPassed testCases /\
  TestSummary.failed s = countIn inFailed testCases /\
  (forall tc,
     (bucket tc = inSkipped <-> TestCase.skipped tc = true) /\
     (bucket tc = inPassed <->
        TestCase.skipped tc = false /\ allPassed tc = true) /\
     (bucket tc = inFailed <->
        TestCase.skipped tc = false /\ allPassed tc = false)).
Proof.
  split.
  { unfold formatTestJson.
    pose proof (formatTestCases_length hasPartOne hasPartTwo testCases
                  0%nat Counters.zero) as Hlen.
    by destruct (formatTestCases hasPartOne hasPartTwo 0 testCases Counters.zero). }
  rewrite formatTestJson_summary; simpl.
  repeat split; try reflexivity; try apply countIn_total;
    unfold bucket in *;
    destruct (TestCase.skipped tc), (allPassed tc); intuition congruence.
Qed.

(** ** Exit codes of test mode *)

(** Case analysis on every comparison result in the goal. *)
Ltac case_hasPassed :=
  repeat match goal with
         | |- context [TestCaseResult.hasPassed ?r] =>
             destruct (TestCaseResult.hasPassed r); simpl
         end.

Lemma hasFailure_bucket tc : hasFailure tc = sameBucket (bucket tc) inFailed.
Proof.
  unfold hasFailure, bucket, allPassed, partFailed, partPassed.
  destruct (TestCase.skipped tc); simpl; [reflexivity|].
  destruct (TestCase.partOne tc) as [r1|], (TestCase.partTwo tc) as [r2|]; simpl;
    case_hasPassed; reflexivity.
Qed.

Lemma hasFailure_spec tc : hasFailure tc = true <-> failedComparison tc.
Proof.
  unfold hasFailure, failedComparison, partFailed.
  rewrite andb_true_iff, orb_true_iff, negb_true_iff.
  split.
  - intros [Hs [H|H]]; split; try exact Hs.
    + destruct (TestCase.partOne tc) as [r|]; [|discriminate].
      exists r. split; [by left|]. by apply negb_true_iff.
    + destruct (TestCase.partTwo tc) as [r|]; [|discriminate].
      exists r. split; [by right|]. by apply negb_true_iff.
  - intros [Hs (r & [H|H] & Hr)]; (split; [exact Hs|]);
      [left|right]; rewrite H; by apply negb_true_iff.
Qed.

Lemma hasFailures_spec tcs :
  hasFailures tcs = true <-> exists tc, In tc tcs /\ failedComparison tc.
Proof.
  unfold hasFailures. rewrite existsb_exists.
  split; intros (tc & Hin & H); exists tc; (split; [exact Hin|]);
    by apply hasFailure_spec.
Qed.

Lemma hasFailures_false tcs :
  hasFailures tcs = false <->
  forall tc, In tc tcs -> TestCase.skipped tc = false -> allPassed tc = true.
Proof.
  unfold hasFailures. split.
  - intros H tc Hin Hs.
    assert (hasFailure tc = false) as Hf.
    { destruct (hasFailure tc) eqn:E; [|reflexivity].
      assert (existsb hasFailure tcs = true) by (apply existsb_exists; eauto).
      congruence. }
    rewrite hasFailure_bucket in Hf. unfold bucket in Hf. rewrite Hs in Hf.
    by destruct (allPassed tc).
  - intros H. destruct (existsb hasFailure tcs) eqn:E; [|reflexivity].
    apply existsb_exists in E as (tc & Hin & Hf).
    rewrite hasFailure_bucket in Hf. unfold bucket in Hf.
    specialize (H tc Hin).
    destruct (TestCase.skipped tc); [discriminate|].
    rewrite H in Hf by reflexivity. discriminate.
Qed.

Lemma countIn_failed_hasFailures tcs :
  Nat.eqb (countIn inFailed tcs) 0 = negb (hasFailures tcs).
Proof.
  induction tcs as [|tc tcs IH]; [reflexivity|].
  rewrite countIn_cons. unfold hasFailures in *. simpl existsb.
  rewrite hasFailure_bucket.
  destruct (sameBucket (bucket tc) inFailed); simpl; [reflexivity|exact IH].
Qed.

Lemma textPart_exit part p e :
  snd (textPart part p e) = if partFailed p then 3 else e.
Proof.
  unfold textPart, partFailed.
  destruct p as [r|]; [|reflexivity].
  by destruct (TestCaseResult.hasPassed r).
Qed.

Lemma textTestCase_exit idx tc e :
  snd (textTestCase idx tc e) = if hasFailure tc then 3 else e.
Proof.
  unfold textTestCase, hasFailure.
  destruct (TestCase.skipped tc); simpl; [reflexivity|].
  pose proof (textPart_exit 1 (TestCase.partOne tc) e) as H1.
  destruct (textPart 1 (TestCase.partOne tc) e) as [l1 e1]; simpl in H1.
  pose proof (textPart_exit 2 (TestCase.partTwo tc) e1) as H2.
  destruct (textPart 2 (TestCase.partTwo tc) e1) as [l2 e2]; simpl in H2.
  subst e1 e2.
  destruct (TestCase.partOne tc) as [r1|], (TestCase.partTwo tc) as [r2|];
    simpl;
    case_hasPassed; reflexivity.
Qed.

Lemma textTestCases_exit tcs : forall idx e,
  snd (textTestCases idx tcs e) = if hasFailures tcs then 3 else e.
Proof.
  induction tcs as [|tc tcs IH]; intros idx e; simpl; [reflexivity|].
  pose proof (textTestCase_exit idx tc e) as H1.
  destruct (textTestCase idx tc e) as [l e1]; simpl in H1.
  specialize (IH (S idx) e1).
  destruct (textTestCases (S idx) tcs e1) as [ls e2]; simpl in *.
  subst. unfold hasFailures.
  destruct (hasFailure tc), (existsb hasFailure tcs); reflexivity.
Qed.

Lemma jsonlTestCases_counters tcs : forall c,
  let c' := fold_left jsonlTestCase tcs c in
  Counters.passed c' = (Counters.passed c + countIn inPassed tcs)%nat /\
  Counters.failed c' = (Counters.failed c + countIn inFailed tcs)%nat /\
  Counters.skipped c' = (Counters.skipped c + countIn inSkipped tcs)%nat.
Proof.
  induction tcs as [|tc tcs IH]; intros c; simpl.
  - unfold countIn; simpl; lia.
  - specialize (IH (jsonlTestCase c tc)). simpl in IH.
    destruct IH as (-> & -> & ->). rewrite !countIn_cons.
    unfold jsonlTestCase, bucket.
    destruct (TestCase.skipped tc); [|destruct (allPassed tc)]; simpl; lia.
Qed.

(** Whatever the output mode, test mode exits with 3 when some test has a
    failure and with 0 otherwise. *)
Lemma testModeExitCode_hasFailures mode tcs h1 h2 con :
  testModeExitCode mode tcs h1 h2 con = if hasFailures tcs then 3 else 0.
Proof.
  destruct mode; simpl.
  - unfold textTestMode. apply textTestCases_exit.
  - reflexivity.
  - pose proof (jsonlTestCases_counters tcs Counters.zero) as (_ & H & _).
    simpl in H. rewrite H, countIn_failed_hasFailures.
    by destruct (hasFailures tcs).
Qed.

(** C2. In test mode, in each of the three output modes, the process exits
    with code 3 iff some test case that was not skipped has a part whose
    comparison failed, and with code 0 when every test case that was not
    skipped passes; the [success] field of the JSON document is true iff
    its [failed] count is 0, which is when the exit code is 0. *)
Theorem test_mode_exit_code (outputMode : OutputMode)
    (testCases : list TestCase.t) (hasPartOne hasPartTwo : bool)
    (console : list ConsoleEntry.t) :
  let code := testModeExitCode outputMode testCases hasPartOne hasPartTwo console in
  let out := formatTestJson testCases hasPartOne hasPartTwo console in
  (code = 3 <-> exists tc, In tc testCases /\ failedComparison tc) /\
  (code = 0 <->
     forall tc, In tc testCases -> TestCase.skipped tc = false ->
                allPassed tc = true) /\
  (JsonTestOutput.success out = true <->
     TestSummary.failed (JsonTestOutput.summary out) = 0%nat) /\
  (JsonTestOutput.success out = true <-> code = 0).
Proof.
  simpl. rewrite testModeExitCode_hasFailures, formatTestJson_success,
    formatTestJson_summary, countIn_failed_hasFailures.
  simpl. rewrite <- hasFailures_spec, <- hasFailures_false.
  rewrite <- (Nat.eqb_eq (countIn inFailed testCases) 0),
    countIn_failed_hasFailures.
  destruct (hasFailures testCases); simpl; intuition congruence.
Qed.

(** C10. A test case that was not skipped and has neither a [partOne] nor a
    [partTwo] result is treated as passing: [allPassed] holds for it, it
    adds one to [passed] and nothing to [failed] in the JSON summary,
    wherever it stands in the list, it changes neither [success] nor the
    exit code of any output mode, and the text branch logs
    "No expectations" for it and keeps the exit code. *)
Theorem no_expectations_is_passed (tc : TestCase.t)
    (before after : list TestCase.t) (hasPartOne hasPartTwo : bool)
    (console : list ConsoleEntry.t) (outputMode : OutputMode)
    (idx : nat) (exitCode : Z) :
  TestCase.skipped tc = false ->
  TestCase.partOne tc = None ->
  TestCase.partTwo tc = None ->
  let with_tc := formatTestJson (before ++ tc :: after) hasPartOne hasPartTwo console in
  let without := formatTestJson (before ++ after) hasPartOne hasPartTwo console in
  allPassed tc = true /\
  TestSummary.passed (JsonTestOutput.summary with_tc)
    = S (TestSummary.passed (JsonTestOutput.summary without)) /\
  TestSummary.failed (JsonTestOutput.summary with_tc)
    = TestSummary.failed (JsonTestOutput.summary without) /\
  TestSummary.skipped (JsonTestOutput.summary with_tc)
    = TestSummary.skipped (JsonTestOutput.summary without) /\
  JsonTestOutput.success with_tc = JsonTestOutput.success without /\
  testModeExitCode outputMode (before ++ tc :: after) hasPartOne hasPartTwo console
    = testModeExitCode outputMode (before ++ after) hasPartOne hasPartTwo console /\
  snd (textTestCase idx tc exitCode) = exitCode /\
  In noExpectations (fst (textTestCase idx tc exitCode)).
Proof.
  intros Hs H1 H2. cbv zeta.
  assert (allPassed tc = true) as Hall
    by (unfold allPassed; rewrite H1, H2; reflexivity).
  assert (bucket tc = inPassed) as Hb
    by (unfold bucket; rewrite Hs, Hall; reflexivity).
  assert (hasFailure tc = false) as Hf
    by (rewrite hasFailure_bucket, Hb; reflexivity).
  rewrite !formatTestJson_summary, !formatTestJson_success,
    !testModeExitCode_hasFailures, textTestCase_exit, Hf.
  cbn [TestSummary.passed TestSummary.failed TestSummary.skipped].
  rewrite !countIn_app, !countIn_cons, Hb.
  unfold hasFailures. rewrite !existsb_app.
  cbn [existsb sameBucket]. rewrite Hf.
  split; [exact Hall|]. split; [lia|]. split; [lia|]. split; [lia|].
  split; [f_equal; lia|]. split; [reflexivity|]. split; [reflexivity|].
  unfold textTestCase. rewrite Hs, H1, H2.
  apply in_or_app. right. right. left. reflexivity.
Qed.

Lemma no_expectations_is_passed_witness :
  let tc := TestCase.mk None None false false in
  let failing := TestCase.mk (Some (TestCaseResult.mk "42" "99" false)) None false false in
  TestSummary.passed (JsonTestOutput.summary
      (formatTestJson ([failing] ++ tc :: []) true false [])) = 1%nat /\
  testModeExitCode json ([] ++ tc :: []) true false [] = 0.
Proof.
  intros tc failing.
  pose proof (no_expectations_is_passed tc [failing] [] true false [] json 0 0
                eq_refl eq_refl eq_refl) as H.
  pose proof (no_expectations_is_passed tc [] [] true false [] json 0 0
                eq_refl eq_refl eq_refl) as H'.
  simpl in H, H'.
  destruct H as (_ & Hp & _). destruct H' as (_ & _ & _ & _ & _ & Hc & _).
  split; [exact Hp | exact Hc].
Defined.

(** ** The JSON error document *)

(** C4. For every error value carrying a zero-indexed (line, column), the
    JSON error document has type [error], keeps the message unchanged and
    reports [line + 1] and [column + 1]; an error located at the [*] of
    the source [1 * "x"], which the position tracker puts at (0, 2), is
    reported at line 1, column 3. *)
Theorem formatErrorJson_one_indexed (error : ErrorInfo.t) :
  let out := formatErrorJson error in
  JsonErrorOutput.type out = type_error /\
  JsonErrorOutput.message out = ErrorInfo.message error /\
  ErrorLocation.line (JsonErrorOutput.location out) = ErrorInfo.line error + 1 /\
  ErrorLocation.column (JsonErrorOutput.location out) = ErrorInfo.column error + 1 /\
  JsonErrorOutput.stack out = [] /\
  ((ErrorInfo.line error, ErrorInfo.column error)
     = positionAt ("1 * " +:+ quoted "x") 2 ->
   JsonErrorOutput.location out = ErrorLocation.mk 1 3).
Proof.
  simpl. repeat split.
  intros Hpos.
  assert (positionAt ("1 * " +:+ quoted "x") 2 = (0, 2)) as Hstar
    by (vm_compute; reflexivity).
  rewrite Hstar in Hpos. injection Hpos as -> ->. reflexivity.
Qed.

(** ** The output operation of the I/O handle *)

Lemma output_empty w : output [] w = (Returned tt, w).
Proof. reflexivity. Qed.

Lemma output_printing a args w :
  World.consoleBuffer w = None ->
  output (a :: args) w
  = (Returned tt,
     World.setPrinted (World.printed w ++ [join " " (a :: args)]) w).
Proof.
  intros Hb. unfold output. cbn [length Nat.eqb].
  unfold bind, getConsoleBuffer. rewrite Hb. reflexivity.
Qed.

Lemma output_capturing a args entries w :
  World.consoleBuffer w = Some entries ->
  output (a :: args) w
  = (Returned tt,
     World.setConsoleBuffer
       (Some (entries ++
                [ConsoleEntry.mk
                   (World.clock w (World.clockReads w) - World.captureStartTime w)
                   (join " " (a :: args))]))
       (World.setClockReads (S (World.clockReads w)) w)).
Proof.
  intros Hb. unfold output. cbn [length Nat.eqb].
  unfold bind, getConsoleBuffer. rewrite Hb. reflexivity.
Qed.

(** [join] is the joining of the library: the arguments in order with
    the separator between each two of them, and nowhere else. *)
Lemma join_concat sep args : join sep args = String.concat sep args.
Proof.
  induction args as [|a args IH]; [reflexivity|].
  destruct args as [|b args]; [reflexivity|].
  change (a +:+ sep +:+ join sep (b :: args)
          = a +:+ sep +:+ String.concat sep (b :: args)).
  by rewrite IH.
Qed.

(** C3. A call of [output] with an empty argument list returns and leaves
    the world as it was: nothing is printed, no entry is captured.  A call
    with arguments returns after exactly one event whose message is the
    arguments joined by single spaces ([String.concat] of the library,
    with one space as the separator): one more captured entry when
    capture is on (and then nothing is printed), one more printed line
    otherwise.  So [puts("Part", "1:", "42")] prints the one line
    [Part 1: 42], and an empty argument still gets its space. *)
Theorem output_events (args : list string) (w : World.t) :
  let w' := snd (output args w) in
  let message := String.concat " " args in
  fst (output args w) = Returned tt /\
  match args with
  | [] => w' = w
  | _ :: _ =>
      match World.consoleBuffer w with
      | None =>
          World.printed w' = World.printed w ++ [message] /\
          World.consoleBuffer w' = None
      | Some entries =>
          World.printed w' = World.printed w /\
          exists t, World.consoleBuffer w'
                    = Some (entries ++ [ConsoleEntry.mk t message])
      end
  end /\
  World.printed (snd (output ["Part"; "1:"; "42"] (freshWorld ∅)))
    = ["Part 1: 42"] /\
  World.printed (snd (output ["a"; ""; "b c"] (freshWorld ∅))) = ["a  b c"].
Proof.
  cbv zeta. rewrite <- join_concat.
  split; [|split; [|split; vm_compute; reflexivity]].
  - destruct args as [|a args]; [by rewrite output_empty|].
    destruct (World.consoleBuffer w) as [entries|] eqn:Hb.
    + by rewrite (output_capturing a args entries w Hb).
    + by rewrite (output_printing a args w Hb).
  - destruct args as [|a args].
    + by rewrite output_empty.
    + destruct (World.consoleBuffer w) as [entries|] eqn:Hb.
      * rewrite (output_capturing a args entries w Hb). simpl.
        split; [reflexivity|]. eauto.
      * rewrite (output_printing a args w Hb). simpl.
        split; [reflexivity|exact Hb].
Qed.

(** ** Console capture *)

Lemma outputs_capturing calls : forall w entries,
  World.consoleBuffer w = Some entries ->
  exists w',
    outputs calls w = (Returned tt, w') /\
    World.consoleBuffer w'
      = Some (entries ++ entriesOf (World.clock w) (World.captureStartTime w)
                           (World.clockReads w) calls).
Proof.
  induction calls as [|args calls IH]; intros w entries Hb.
  - exists w. split; [reflexivity|]. simpl. by rewrite app_nil_r.
  - destruct args as [|a args].
    + destruct (IH w entries Hb) as (w' & Hrun & Hbuf).
      exists w'. split; [|exact Hbuf].
      simpl outputs. unfold bind. rewrite output_empty. exact Hrun.
    + set (e := ConsoleEntry.mk
                  (World.clock w (World.clockReads w) - World.captureStartTime w)
                  (join " " (a :: args))).
      set (w1 := World.setConsoleBuffer (Some (entries ++ [e]))
                   (World.setClockReads (S (World.clockReads w)) w)).
      destruct (IH w1 (entries ++ [e]) eq_refl) as (w' & Hrun & Hbuf).
      exists w'. split.
      * simpl outputs. unfold bind.
        rewrite (output_capturing a args entries w Hb). exact Hrun.
      * rewrite Hbuf. simpl. by rewrite <- app_assoc.
Qed.

Lemma captured_entries calls w :
  fst (captured calls w)
  = Returned (entriesOf (World.clock w) (World.clock w (World.clockReads w))
                (S (World.clockReads w)) calls).
Proof.
  unfold captured.
  set (w1 := World.setConsoleBuffer (Some [])
               (World.setCaptureStartTime (World.clock w (World.clockReads w))
                  (World.setClockReads (S (World.clockReads w)) w))).
  assert (enableConsoleCapture w = (Returned tt, w1)) as Hen by reflexivity.
  destruct (outputs_capturing calls w1 [] eq_refl) as (w' & Hrun & Hbuf).
  unfold bind at 1. rewrite Hen. unfold bind at 1. rewrite Hrun.
  unfold disableConsoleCapture, bind, getConsoleBuffer. rewrite Hbuf.
  reflexivity.
Qed.

Lemma entriesOf_messages clock start calls : forall n,
  map ConsoleEntry.message (entriesOf clock start n calls) = messagesOf calls.
Proof.
  induction calls as [|args calls IH]; intros n; [reflexivity|].
  destruct args as [|a args]; simpl; [apply IH|]. by rewrite IH.
Qed.

(** Every entry is stamped with a reading taken at or after [n]. *)
Lemma entriesOf_stamps clock start calls : forall n e,
  In e (entriesOf clock start n calls) ->
  exists k, (n <= k)%nat /\ ConsoleEntry.timestamp_ms e = clock k - start.
Proof.
  induction calls as [|args calls IH]; intros n e Hin; [destruct Hin|].
  destruct args as [|a args]; simpl in Hin.
  - apply IH, Hin.
  - destruct Hin as [<-|Hin]; [exists n; split; [lia|reflexivity]|].
    destruct (IH (S n) e Hin) as (k & Hk & He). exists k. split; [lia|exact He].
Qed.

Lemma entriesOf_nonDecreasing clock start calls : forall n,
  (forall i j, (n <= i)%nat -> (i <= j)%nat -> clock i <= clock j) ->
  nonDecreasing (map ConsoleEntry.timestamp_ms (entriesOf clock start n calls)).
Proof.
  induction calls as [|args calls IH]; intros n Hmono.
  - intros i j a b _ Hi. destruct i; discriminate.
  - destruct args as [|x args]; simpl; [apply IH, Hmono|].
    intros i j a b Hij Hi Hj.
    destruct i as [|i], j as [|j]; simpl in Hi, Hj.
    + injection Hi as <-. injection Hj as <-. lia.
    + injection Hi as <-.
      apply list_elem_of_lookup_2, list_elem_of_In, in_map_iff in Hj
        as (e & <- & Hin).
      apply entriesOf_stamps in Hin as (k & Hk & ->).
      assert (clock n <= clock k) by (apply Hmono; lia). lia.
    + lia.
    + apply (IH (S n)) with (i := i) (j := j); try assumption; [|lia].
      intros i' j' Hi' Hj'. apply Hmono; lia.
Qed.

(** C7 (as amended).  With console capture enabled, the entry list that
    [disableConsoleCapture] returns holds the messages of the [output]
    calls in exactly the order the calls were made (a call without
    arguments leaves no entry); and provided the wall clock that
    [Date.now] reads is not stepped back from the start of the capture
    on, every [timestamp_ms] is non-negative and the timestamps are
    non-decreasing. *)
Theorem capture_order_and_stamps (calls : list (list string)) (w : World.t) :
  exists entries,
    fst (captured calls w) = Returned entries /\
    map ConsoleEntry.message entries = messagesOf calls /\
    (clockNeverStepsBack w ->
       Forall (fun e => 0 <= ConsoleEntry.timestamp_ms e) entries /\
       nonDecreasing (map ConsoleEntry.timestamp_ms entries)).
Proof.
  eexists. split; [apply captured_entries|].
  split; [apply entriesOf_messages|].
  intros Hclock. split.
  - apply Forall_forall. intros e He. apply list_elem_of_In in He.
    apply entriesOf_stamps in He as (k & Hk & ->).
    assert (World.clock w (World.clockReads w) <= World.clock w k)
      by (apply Hclock; lia).
    lia.
  - apply entriesOf_nonDecreasing. intros i j Hi Hj. apply Hclock; lia.
Qed.

Lemma freshWorld_clock env : clockNeverStepsBack (freshWorld env).
Proof. intros i j _ Hij. simpl. lia. Qed.

Lemma capture_order_and_stamps_witness :
  exists entries,
    fst (captured [["hello"]; []; ["a"; "b"]] (freshWorld ∅)) = Returned entries /\
    map ConsoleEntry.message entries = ["hello"; "a b"] /\
    Forall (fun e => 0 <= ConsoleEntry.timestamp_ms e) entries /\
    nonDecreasing (map ConsoleEntry.timestamp_ms entries).
Proof.
  destruct (capture_order_and_stamps [["hello"]; []; ["a"; "b"]] (freshWorld ∅))
    as (entries & Hrun & Hmsg & Hstamps).
  exists entries. split; [exact Hrun|]. split; [exact Hmsg|].
  apply Hstamps, freshWorld_clock.
Defined.

(** C7 as stated fails: [Date.now] reads the wall clock, and when the
    operating system sets it back during the capture, an entry gets a
    negative timestamp that is also smaller than the one before it. *)
Lemma capture_clock_stepped_back :
  fst (captured [["a"]; ["b"]] steppedBackWorld)
    = Returned [ConsoleEntry.mk 10 "a"; ConsoleEntry.mk (-50) "b"] /\
  ~ Forall (fun e => 0 <= ConsoleEntry.timestamp_ms e)
      [ConsoleEntry.mk 10 "a"; ConsoleEntry.mk (-50) "b"] /\
  ~ nonDecreasing
      (map ConsoleEntry.timestamp_ms
         [ConsoleEntry.mk 10 "a"; ConsoleEntry.mk (-50) "b"]).
Proof.
  split; [vm_compute; reflexivity|]. split.
  - intros H. apply Forall_cons in H as [_ H]. apply Forall_cons in H as [H _].
    simpl in H. lia.
  - intros H. specialize (H 0%nat 1%nat 10 (-50)). simpl in H.
    assert (10 <= -50) by (apply H; [lia|reflexivity|reflexivity]). lia.
Qed.

(** ** Puzzle input: [readAoC] *)

Lemma trimEnd_blanks s :
  exists blanks, s = trimEnd s +:+ blanks /\ allWhiteSpace blanks = true.
Proof.
  induction s as [|c rest (blanks & Hrest & Hblanks)].
  - exists EmptyString. split; reflexivity.
  - simpl. destruct (trimEnd rest) as [|d t] eqn:Ht.
    + change (rest = blanks) in Hrest. subst blanks.
      destruct (isWhiteSpace c) eqn:Hc.
      * exists (String c rest). split; [reflexivity|]. simpl. by rewrite Hc.
      * exists rest. split; [reflexivity|assumption].
    + exists blanks. split; [|assumption].
      change (String c rest = String c (String d t +:+ blanks)).
      by rewrite <- Hrest.
Qed.

Lemma trimEnd_last s c : lastChar (trimEnd s) = Some c -> isWhiteSpace c = false.
Proof.
  induction s as [|x rest IH]; simpl; [discriminate|].
  destruct (trimEnd rest) as [|d t] eqn:Ht.
  - destruct (isWhiteSpace x) eqn:Hx; simpl; [discriminate|].
    intros [= <-]. exact Hx.
  - simpl. exact IH.
Qed.

Lemma trimEnd_trimmedOf s : trimmedOf s (trimEnd s).
Proof. split; [apply trimEnd_blanks | intros c; apply trimEnd_last]. Qed.

Lemma padding_length n c pad : forall rest,
  String.length (padding n (String c pad) rest) = n.
Proof.
  induction n as [|n IH]; intros rest; [reflexivity|].
  simpl. destruct rest; simpl; by rewrite IH.
Qed.

Lemma string_length_app (a b : string) :
  String.length (a +:+ b) = (String.length a + String.length b)%nat.
Proof.
  induction a as [|c a IH]; [reflexivity|].
  change (S (String.length (a +:+ b))
          = S (String.length a + String.length b)).
  by rewrite IH.
Qed.

Lemma padStart_length n c pad s :
  String.length (padStart n (String c pad) s) = Nat.max n (String.length s).
Proof. unfold padStart. rewrite string_length_app, padding_length. lia. Qed.

Lemma padStart_long n pad s :
  (n <= String.length s)%nat -> padStart n pad s = s.
Proof.
  intros H. unfold padStart.
  replace (n - String.length s)%nat with 0%nat by lia. reflexivity.
Qed.

Lemma input_aoc_readAoC w path url :
  World.newURL w path = Some url ->
  URL.protocol url = "aoc:" ->
  input path w = readAoC url path w.
Proof.
  intros Hurl Hp. unfold input, bind, parseUrl. rewrite Hurl, Hp. reflexivity.
Qed.

Lemma readAoC_cached w url path content :
  World.files w !! aocFilename (URL.host url) (substring1 (URL.pathname url))
    = Some content ->
  readAoC url path w = (Returned content, w).
Proof.
  intros Hf. unfold readAoC, bind, tryCatch, readFileSync. rewrite Hf.
  reflexivity.
Qed.

Lemma readAoC_miss w url path :
  let year := URL.host url in
  let day := substring1 (URL.pathname url) in
  let token := World.env w !! "SANTA_CLI_SESSION_TOKEN" in
  let result := World.spawn w (aocCommand (tokenText token) year day) in
  let content := trimEnd (SpawnResult.stdout result) in
  World.files w !! aocFilename year day = None ->
  readAoC url path w =
    if tokenMissing token then
      (Thrown (JsError ("Unable to read AOC input: " +:+ path +:+
         ", missing session token within SANTA_CLI_SESSION_TOKEN environment variable")), w)
    else if negb (Z.eqb (SpawnResult.exitCode result) 0) then
      (Thrown (JsError ("Unable to read AOC input: " +:+ path)), w)
    else if World.writable w (aocFilename year day) then
      (Returned content,
       World.setFiles (<[aocFilename year day := content]> (World.files w)) w)
    else (Thrown (SystemError (aocFilename year day)), w).
Proof.
  intros year day token result content Hf.
  unfold readAoC, bind, tryCatch, readFileSync. fold year day. rewrite Hf.
  unfold processEnv, ret, throw. cbv beta iota. fold token.
  destruct (tokenMissing token); [reflexivity|].
  unfold spawnSync. cbv beta iota. fold result.
  destruct (negb (Z.eqb (SpawnResult.exitCode result) 0)); [reflexivity|].
  unfold writeFileSync. fold content.
  destruct (World.writable w (aocFilename year day)); reflexivity.
Qed.

(** C6 (as amended).  For a path that parses as [aoc://YEAR/DAY], [input]
    first returns the content of the cache file [aocYEAR_dayDD.input],
    the day padded with zeros to two characters when it is shorter, when
    that file is readable, and changes nothing.  On a cache miss it throws iff the
    [SANTA_CLI_SESSION_TOKEN] variable is unset or empty, or the download
    fails, or the cache file cannot be written; when it throws before the
    write nothing has changed.  On a successful download it writes the
    content without its trailing white space to the cache file and
    returns that same string. *)
Theorem input_aoc (w : World.t) (path year day : string) :
  World.newURL w path = Some (URL.mk "aoc:" year (String slash day)) ->
  let filename := "aoc" +:+ year +:+ "_day" +:+ padStart 2 "0" day +:+ ".input" in
  let token := World.env w !! "SANTA_CLI_SESSION_TOKEN" in
  let download := World.spawn w (aocCommand (tokenText token) year day) in
  let content := trimEnd (SpawnResult.stdout download) in
  padStart 2 "0" day
    = match day with
      | EmptyString => "00"
      | String _ EmptyString => "0" +:+ day
      | _ => day
      end /\
  (forall cached, World.files w !! filename = Some cached ->
     input path w = (Returned cached, w)) /\
  (World.files w !! filename = None ->
     ((exists e, fst (input path w) = Thrown e) <->
        token = None \/ token = Some EmptyString \/
        SpawnResult.exitCode download <> 0 \/
        World.writable w filename = false) /\
     (forall e, fst (input path w) = Thrown e -> snd (input path w) = w) /\
     (forall v, fst (input path w) = Returned v ->
        v = content /\
        World.files (snd (input path w)) !! filename = Some content /\
        trimmedOf (SpawnResult.stdout download) content)).
Proof.
  intros Hurl filename token download content.
  split; [by destruct day as [|c [|d rest]]|].
  rewrite (input_aoc_readAoC w path _ Hurl eq_refl).
  split.
  - intros cached Hc. by apply readAoC_cached.
  - intros Hmiss.
    pose proof (readAoC_miss w (URL.mk "aoc:" year (String slash day)) path Hmiss)
      as Hrun.
    cbn [URL.host URL.pathname substring1] in Hrun.
    fold token download content in Hrun.
    change (aocFilename year day) with filename in Hrun.
    rewrite Hrun. clear Hrun.
    assert (tokenMissing token = true <-> token = None \/ token = Some EmptyString)
      as Htok.
    { destruct token as [[|c t]|]; simpl; split; intros H;
        try reflexivity; try discriminate; auto;
        destruct H as [H|H]; discriminate. }
    destruct (tokenMissing token) eqn:Hmissing.
    { split; [|split].
      - split; [intros _; pose proof (proj1 Htok eq_refl); tauto | eauto].
      - reflexivity.
      - intros v Hv. discriminate. }
    assert (~ (token = None \/ token = Some EmptyString)) as Hset.
    { intros H. apply Htok in H. discriminate. }
    destruct (Z.eqb_spec (SpawnResult.exitCode download) 0) as [Hok|Hfail];
      simpl negb; cbv iota.
    2:{ split; [|split].
        - split; [auto | eauto].
        - reflexivity.
        - intros v Hv. discriminate. }
    destruct (World.writable w filename) eqn:Hwr.
    + split; [|split].
      * split; [intros (e & He); discriminate |].
        intros [H|[H|[H|H]]]; try tauto; congruence.
      * intros e He. discriminate.
      * intros v [= <-]. split; [reflexivity|].
        split; [apply lookup_insert_eq | apply trimEnd_trimmedOf].
    + split; [|split].
      * split; [auto | eauto].
      * reflexivity.
      * intros v Hv. discriminate.
Qed.

Lemma input_aoc_witness :
  let w := freshWorld {[ "SANTA_CLI_SESSION_TOKEN" := "53616c7465645f5f" ]} in
  World.files w !! "aoc2022_day01.input" = None /\
  fst (input "aoc://2022/1" w)
    = Returned ("199" +:+ String newline ("200" +:+ String newline "208")) /\
  World.files (snd (input "aoc://2022/1" w)) !! "aoc2022_day01.input"
    = Some ("199" +:+ String newline ("200" +:+ String newline "208")).
Proof.
  intros w.
  destruct (input_aoc w "aoc://2022/1" "2022" "1" eq_refl) as (_ & _ & Hmiss).
  assert (World.files w !! "aoc2022_day01.input" = None) as Hnone
    by (vm_compute; reflexivity).
  destruct (Hmiss Hnone) as (_ & _ & Hret).
  split; [exact Hnone|].
  destruct (Hret ("199" +:+ String newline ("200" +:+ String newline "208")))
    as (_ & Hfile & _); [vm_compute; reflexivity|].
  split; [vm_compute; reflexivity | exact Hfile].
Defined.

(** C6 as stated fails in two ways.  With the session token set to the
    empty string the variable is not unset and no download fails, yet
    [input] throws the missing-token error; and in a directory that
    cannot be written, with a token and a successful download, the write
    of the cache file throws. *)
Lemma input_aoc_throws_otherwise :
  (World.files (freshWorld {[ "SANTA_CLI_SESSION_TOKEN" := EmptyString ]})
     !! "aoc2022_day01.input" = None /\
   World.env (freshWorld {[ "SANTA_CLI_SESSION_TOKEN" := EmptyString ]})
     !! "SANTA_CLI_SESSION_TOKEN" = Some EmptyString /\
   (forall cmd,
      SpawnResult.exitCode
        (World.spawn (freshWorld {[ "SANTA_CLI_SESSION_TOKEN" := EmptyString ]}) cmd)
      = 0) /\
   fst (input "aoc://2022/1"
          (freshWorld {[ "SANTA_CLI_SESSION_TOKEN" := EmptyString ]}))
   = Thrown (JsError
       "Unable to read AOC input: aoc://2022/1, missing session token within SANTA_CLI_SESSION_TOKEN environment variable"))
  /\
  (World.files (readOnlyWorld {[ "SANTA_CLI_SESSION_TOKEN" := "53616c7465645f5f" ]})
     !! "aoc2022_day01.input" = None /\
   World.env (readOnlyWorld {[ "SANTA_CLI_SESSION_TOKEN" := "53616c7465645f5f" ]})
     !! "SANTA_CLI_SESSION_TOKEN" = Some "53616c7465645f5f" /\
   (forall cmd,
      SpawnResult.exitCode
        (World.spawn (readOnlyWorld {[ "SANTA_CLI_SESSION_TOKEN" := "53616c7465645f5f" ]}) cmd)
      = 0) /\
   fst (input "aoc://2022/1"
          (readOnlyWorld {[ "SANTA_CLI_SESSION_TOKEN" := "53616c7465645f5f" ]}))
   = Thrown (SystemError "aoc2022_day01.input")).
Proof.
  repeat split; vm_compute; reflexivity.
Qed.

(** ** The runner in test mode *)

Lemma sectionOf_slow {E} (s : Statement E) slow name body :
  sectionOf s = Some (slow, name, body) ->
  slow = true <-> In "slow" (annotations s).
Proof.
  revert slow. induction s as [| | | n b | |a s IH]; intros slow Hs;
    simpl in Hs; try discriminate.
  - injection Hs as <- _ _. simpl. split; [discriminate|tauto].
  - destruct (sectionOf s) as [[[slow' n'] b']|]; [|discriminate].
    injection Hs as <- <- <-. specialize (IH slow' eq_refl). simpl.
    rewrite orb_true_iff, IH, String.eqb_eq. tauto.
Qed.

Section RunnerFacts.
Context {E V : Type} `{Evaluator E V}.
Implicit Types (program : list (Statement E)) (includeSlow : bool).

Lemma runPart_events program i p input expected :
  forall ev, In ev (fst (runPart program i p input expected)) -> eventTest ev = i.
Proof.
  unfold runPart. intros ev.
  destruct expected as [e|]; [|intros []].
  destruct (sectionsNamed (partName p) program) as [|d ds]; [intros []|].
  destruct (evalPart program (map snd (d :: ds)) input);
    (intros [<-|[]]; reflexivity).
Qed.

Lemma runTest_events program includeSlow i test :
  forall ev, In ev (fst (runTest program includeSlow i test)) -> eventTest ev = i.
Proof.
  destruct test as [slow body]. unfold runTest. intros ev.
  destruct (slow && negb includeSlow); [intros []|].
  destruct (evalTest body) as [spec|err]; [|intros [<-|[]]; reflexivity].
  pose proof (runPart_events program i part_one (TestSpec.input spec)
                (TestSpec.part_one spec)) as H1.
  destruct (runPart program i part_one _ _) as [t1 [p1|err1]]; simpl in H1.
  - pose proof (runPart_events program i part_two (TestSpec.input spec)
                  (TestSpec.part_two spec)) as H2.
    destruct (runPart program i part_two _ _) as [t2 [p2|err2]]; simpl in H2;
      (intros [<-|Hin]; [reflexivity|];
       apply in_app_or in Hin as [Hin|Hin]; auto).
  - intros [<-|Hin]; [reflexivity|auto].
Qed.

Lemma runTest_skipped program includeSlow i slow body :
  slow && negb includeSlow = true ->
  runTest program includeSlow i (slow, body)
  = ([], Done (TestCase.mk None None slow true)).
Proof. intros Hs. unfold runTest. rewrite Hs. reflexivity. Qed.

Lemma runTest_flags program includeSlow i slow body r :
  snd (runTest program includeSlow i (slow, body)) = Done r ->
  TestCase.slow r = slow /\
  TestCase.skipped r = slow && negb includeSlow /\
  (TestCase.skipped r = true ->
   TestCase.partOne r = None /\ TestCase.partTwo r = None).
Proof.
  unfold runTest.
  destruct (slow && negb includeSlow); [intros [= <-]; repeat split; reflexivity|].
  destruct (evalTest body) as [spec|err]; [|discriminate].
  destruct (runPart program i part_one _ _) as [t1 [p1|err1]]; [|discriminate].
  destruct (runPart program i part_two _ _) as [t2 [p2|err2]]; [|discriminate].
  intros [= <-]. split; [reflexivity|]. split; [reflexivity|]. discriminate.
Qed.

Lemma runPart_total program i p input expected :
  (forall pr bodies v, exists a, evalPart pr bodies v = Done a) ->
  exists r, snd (runPart program i p input expected) = Done r.
Proof.
  intros Htotal. unfold runPart.
  destruct expected as [e|]; [|eauto].
  destruct (sectionsNamed (partName p) program) as [|d ds]; [eauto|].
  destruct (Htotal program (map snd (d :: ds)) input) as (a & ->). eauto.
Qed.

Lemma runTest_total program includeSlow i test :
  (forall body, exists spec, evalTest body = Done spec) ->
  (forall pr bodies v, exists a, evalPart pr bodies v = Done a) ->
  exists r, snd (runTest program includeSlow i test) = Done r.
Proof.
  intros Htest Hpart. destruct test as [slow body]. unfold runTest.
  destruct (slow && negb includeSlow); [eauto|].
  destruct (Htest body) as (spec & ->).
  destruct (runPart_total program i part_one (TestSpec.input spec)
              (TestSpec.part_one spec) Hpart) as (p1 & H1).
  destruct (runPart program i part_one _ _) as [t1 o1]; simpl in H1; subst o1.
  destruct (runPart_total program i part_two (TestSpec.input spec)
              (TestSpec.part_two spec) Hpart) as (p2 & H2).
  destruct (runPart program i part_two _ _) as [t2 o2]; simpl in H2; subst o2.
  eauto.
Qed.

(** The evaluations of a run from position [i] on are asked for tests
    that are run, never for one that is skipped. *)
Lemma runTestsFrom_events program includeSlow tests : forall i ev,
  In ev (fst (runTestsFrom program includeSlow i tests)) ->
  exists k slow body,
    tests !! k = Some (slow, body) /\ eventTest ev = (i + k)%nat /\
    slow && negb includeSlow = false.
Proof.
  induction tests as [|t tests IH]; intros i ev Hin; [destruct Hin|].
  simpl in Hin.
  pose proof (runTest_events program includeSlow i t) as Hone.
  assert (fst (runTest program includeSlow i t) <> [] ->
          fst t && negb includeSlow = false) as Hrun.
  { destruct t as [slow body]. cbn [fst].
    destruct (slow && negb includeSlow) eqn:Hs; [|reflexivity].
    rewrite (runTest_skipped _ _ _ _ _ Hs). cbn [fst]. congruence. }
  assert (In ev (fst (runTest program includeSlow i t)) ->
          exists k slow body,
            (t :: tests) !! k = Some (slow, body) /\
            eventTest ev = (i + k)%nat /\ slow && negb includeSlow = false)
    as Hhead.
  { intros Hev. exists 0%nat, (fst t), (snd t).
    split; [by destruct t|]. split; [rewrite (Hone ev Hev); lia|].
    apply Hrun. intros Hnil. rewrite Hnil in Hev. destruct Hev. }
  destruct (runTest program includeSlow i t) as [tr [r|err]]; simpl in *;
    [|by apply Hhead].
  specialize (IH (S i) ev).
  destruct (runTestsFrom program includeSlow (S i) tests) as [tr' [rs|err]];
    simpl in *;
    (apply in_app_or in Hin as [Hin|Hin]; [by apply Hhead|];
     destruct (IH Hin) as (k & slow & body & Hk & Hev & Hs);
     exists (S k), slow, body; split; [exact Hk|]; split; [lia|exact Hs]).
Qed.

Lemma runTestsFrom_results program includeSlow tests : forall i rs,
  snd (runTestsFrom program includeSlow i tests) = Done rs ->
  length rs = length tests /\
  forall k slow body r,
    tests !! k = Some (slow, body) -> rs !! k = Some r ->
    TestCase.slow r = slow /\
    TestCase.skipped r = slow && negb includeSlow /\
    (TestCase.skipped r = true ->
     TestCase.partOne r = None /\ TestCase.partTwo r = None).
Proof.
  induction tests as [|t tests IH]; intros i rs Hrun; simpl in Hrun.
  - injection Hrun as <-. split; [reflexivity|]. intros k ???? Hk. destruct k; discriminate.
  - pose proof (runTest_flags program includeSlow i (fst t) (snd t)) as Hflags.
    replace (fst t, snd t) with t in Hflags by (by destruct t).
    destruct (runTest program includeSlow i t) as [tr [r|err]]; [|discriminate].
    specialize (IH (S i)).
    destruct (runTestsFrom program includeSlow (S i) tests) as [tr' [rs'|err]];
      [|discriminate].
    simpl in Hrun. injection Hrun as <-.
    destruct (IH rs' eq_refl) as [Hlen Hall].
    split; [simpl; by rewrite Hlen|].
    intros [|k] slow body r0 Hk Hr; simpl in Hk, Hr.
    + injection Hk as ->. injection Hr as <-. apply (Hflags r eq_refl).
    + eapply Hall; eassumption.
Qed.

Lemma runTestsFrom_total program includeSlow tests : forall i,
  (forall body, exists spec, evalTest body = Done spec) ->
  (forall pr bodies v, exists a, evalPart pr bodies v = Done a) ->
  exists rs, snd (runTestsFrom program includeSlow i tests) = Done rs.
Proof.
  induction tests as [|t tests IH]; intros i Htest Hpart; simpl; [eauto|].
  destruct (runTest_total program includeSlow i t Htest Hpart) as (r & Hr).
  destruct (runTest program includeSlow i t) as [tr o]; simpl in Hr; subst o.
  destruct (IH (S i) Htest Hpart) as (rs & Hrs).
  destruct (runTestsFrom program includeSlow (S i) tests) as [tr' o];
    simpl in Hrs; subst o.
  eauto.
Qed.

End RunnerFacts.

(** The scan against the statements themselves: a statement is taken
    for a section when, under its annotations, it is one. *)
Lemma sectionOf_declaration {E} (s : Statement E) :
  match sectionOf s with
  | Some (slow, name, body) =>
      declaration s = Section_ name body /\
      (slow = true <-> In "slow" (annotations s))
  | None => forall name body, declaration s <> Section_ name body
  end.
Proof.
  induction s as [| | | n b | |a s IH]; simpl; try discriminate.
  - split; [reflexivity|]. split; [discriminate|tauto].
  - destruct (sectionOf s) as [[[slow n] b]|]; [|exact IH].
    destruct IH as [Hd Hslow]. split; [exact Hd|].
    rewrite orb_true_iff, Hslow, String.eqb_eq. tauto.
Qed.

Lemma sectionsNamed_app {E} name (pre post : list (Statement E)) :
  sectionsNamed name (pre ++ post)
  = sectionsNamed name pre ++ sectionsNamed name post.
Proof.
  induction pre as [|s pre IH]; [reflexivity|]. simpl.
  destruct (sectionOf s) as [[[slow n] b]|]; [|exact IH].
  destruct (String.eqb n name); [|exact IH]. simpl. by rewrite IH.
Qed.

(** The scan finds as many sections as the statement list declares. *)
Lemma sectionsNamed_count {E} name (program : list (Statement E)) :
  length (sectionsNamed name program) = sectionCount name program.
Proof.
  unfold sectionCount.
  induction program as [|s program IH]; [reflexivity|]. simpl.
  unfold isSectionNamed at 1.
  pose proof (sectionOf_declaration s) as Hs.
  destruct (sectionOf s) as [[[slow n] b]|].
  - destruct Hs as [-> _]. destruct (String.eqb n name); simpl; by rewrite IH.
  - destruct (declaration s); try exact IH. by destruct (Hs name0 body).
Qed.

(** The scan keeps the declaration order: a section is found at the
    position that counts the sections of the same name before it, with
    its body, and slow when it carries the annotation. *)
Lemma sectionsNamed_position {E} name (pre post : list (Statement E)) s body :
  declaration s = Section_ name body ->
  exists slow,
    sectionsNamed name (pre ++ s :: post) !! sectionCount name pre
      = Some (slow, body) /\
    (slow = true <-> In "slow" (annotations s)).
Proof.
  intros Hd. rewrite sectionsNamed_app, <- sectionsNamed_count.
  rewrite lookup_app_r, Nat.sub_diag by lia. simpl.
  pose proof (sectionOf_declaration s) as Hs.
  destruct (sectionOf s) as [[[slow n] b]|]; [|by destruct (Hs name body)].
  destruct Hs as [Hs Hslow]. rewrite Hd in Hs. injection Hs as <- <-.
  rewrite String.eqb_refl. by exists slow.
Qed.

(** C1.  For every program run in test mode, with any evaluator: when
    [runTests] returns, it returns one result per [test] section, in
    declaration order, skipped tests included; the [slow] flag of a result
    is true iff its section carries the [@slow] annotation, and its
    [skipped] flag is true iff it is slow and slow tests were not
    requested.  For a test that is skipped the runner asks for no
    evaluation, neither of its body nor of a solution part, whether the
    run returns or throws, and its result has no part.  The JSON test
    document reports each result with its [slow] flag and with status
    [skipped] exactly when its [skipped] flag is set.  The run returns whenever the evaluator does
    not fail.

    The [test] sections are those of the statement list itself: there
    are as many as statements that, under their annotations, are a
    section called [test], and the section that has [k] such statements
    before it is the one at position [k], with its body, slow exactly
    when [slow] is among its annotations.  On the source of the runner's
    test file, a plain test followed by a slow one, the runner evaluates
    the first and reports the second as skipped. *)
Theorem runTests_slow_and_skipped {E V : Type} `{Evaluator E V}
    (program : list (Statement E)) (includeSlow : bool) :
  let tests := sectionsNamed "test" program in
  let trace := fst (runTests program includeSlow) in
  let outcome := snd (runTests program includeSlow) in
  (forall rs, outcome = Done rs ->
     length rs = length tests /\
     forall i slow body r,
       tests !! i = Some (slow, body) -> rs !! i = Some r ->
       TestCase.slow r = slow /\
       TestCase.skipped r = slow && negb includeSlow /\
       (TestCase.skipped r = true ->
        TestCase.partOne r = None /\ TestCase.partTwo r = None)) /\
  (forall rs hasPartOne hasPartTwo console i r,
     outcome = Done rs -> rs !! i = Some r ->
     exists j,
       JsonTestOutput.tests (formatTestJson rs hasPartOne hasPartTwo console) !! i
         = Some j /\
       JsonTestCase.slow j = TestCase.slow r /\
       (JsonTestCase.status j = status_skipped <-> TestCase.skipped r = true)) /\
  (forall s slow body,
     In s program -> sectionOf s = Some (slow, "test", body) ->
     In (slow, body) tests /\ (slow = true <-> In "slow" (annotations s))) /\
  (forall i slow body,
     tests !! i = Some (slow, body) -> slow && negb includeSlow = true ->
     forall ev, In ev trace -> eventTest ev <> i) /\
  ((forall body, exists spec, evalTest body = Done spec) ->
   (forall pr bodies v, exists a, evalPart pr bodies v = Done a) ->
   exists rs, outcome = Done rs) /\
  length tests = sectionCount "test" program /\
  (forall pre s post body,
     program = pre ++ s :: post -> declaration s = Section_ "test" body ->
     exists slow,
       tests !! sectionCount "test" pre = Some (slow, body) /\
       (slow = true <-> In "slow" (annotations s))) /\
  (forall rs pre s post body,
     outcome = Done rs ->
     program = pre ++ s :: post -> declaration s = Section_ "test" body ->
     length rs = sectionCount "test" program /\
     exists r,
       rs !! sectionCount "test" pre = Some r /\
       (TestCase.slow r = true <-> In "slow" (annotations s)) /\
       (TestCase.skipped r = true <->
          In "slow" (annotations s) /\ includeSlow = false) /\
       (TestCase.skipped r = true ->
          forall ev, In ev trace -> eventTest ev <> sectionCount "test" pre)) /\
  option_map (fun testFile => runTests testFile false) (parse testFileSource)
  = Some ([EvalTest 0; EvalPart 0 part_one],
          Done [TestCase.mk (Some (TestCaseResult.mk "1" "1" true)) None false false;
                TestCase.mk None None true true]).
Proof.
  cbv zeta. unfold runTests.
  split; [|split; [|split; [|split; [|split; [|split; [|split; [|split]]]]]]].
  - intros rs Hrun. by apply runTestsFrom_results in Hrun.
  - intros rs h1 h2 con i r _ Hi.
    destruct (formatTestJson_tests rs h1 h2 con i r Hi)
      as (j & Hj & _ & Hslow & Hstatus & _).
    eauto.
  - intros s slow body Hin Hs. split; [|by eapply sectionOf_slow].
    induction program as [|s' rest IH]; [destruct Hin|].
    simpl. destruct Hin as [->|Hin].
    + rewrite Hs. simpl. by left.
    + destruct (sectionOf s') as [[[slow' n'] b']|]; [|by apply IH].
      destruct (String.eqb n' "test"); [right|]; by apply IH.
  - intros i slow body Hi Hskip ev Hev Heq.
    apply runTestsFrom_events in Hev as (k & slow' & body' & Hk & Hev & Hrun).
    simpl in Hev. rewrite Heq in Hev. subst k.
    rewrite Hi in Hk. injection Hk as <- <-. congruence.
  - intros Htest Hpart. by apply runTestsFrom_total.
  - apply sectionsNamed_count.
  - intros pre s post body -> Hd. by apply sectionsNamed_position.
  - intros rs pre s post body Hrun -> Hd.
    pose proof Hrun as Hres. apply runTestsFrom_results in Hres as [Hlen Hres].
    rewrite Hlen. split; [apply sectionsNamed_count|].
    destruct (sectionsNamed_position "test" pre post s body Hd)
      as (slow & Hk & Hslow).
    destruct (lookup_lt_is_Some_2 rs (sectionCount "test" pre)) as [r Hr].
    { rewrite Hlen. by apply lookup_lt_Some in Hk. }
    exists r. split; [exact Hr|].
    destruct (Hres _ _ _ _ Hk Hr) as (Hs & Hskip & _).
    rewrite Hs, Hskip, andb_true_iff, negb_true_iff, Hslow.
    repeat split; try tauto.
    intros [Hin Hinc] ev Hev Heq.
    apply runTestsFrom_events in Hev as (k & slow' & body' & Hk' & Hev & Hrun').
    simpl in Hev. rewrite Heq in Hev. subst k.
    rewrite Hk in Hk'. injection Hk' as <- <-.
    apply Hslow in Hin. subst includeSlow. rewrite Hin in Hrun'. discriminate.
  - vm_compute. reflexivity.
Qed.

(** The first case of the runner's test file, on the model: two results,
    the slow test marked skipped, and only the plain test evaluated. *)
Example runTests_test_file :
  option_map (fun program => runTests program false) (parse testFileSource)
  = Some ([EvalTest 0; EvalPart 0 part_one],
          Done [TestCase.mk (Some (TestCaseResult.mk "1" "1" true)) None false false;
                TestCase.mk None None true true]).
Proof. vm_compute. reflexivity. Qed.

Example runTests_test_file_slow :
  option_map (fun program => map (fun r => (TestCase.slow r, TestCase.skipped r))
                               match snd (runTests program true) with
                               | Done rs => rs
                               | Failed _ => []
                               end)
             (parse testFileSource)
  = Some [(false, false); (true, false)].
Proof. vm_compute. reflexivity. Qed.

(** ** Solution or script *)

Lemma prefix_append (p s : string) :
  String.prefix p s = true <-> exists post, s = p +:+ post.
Proof.
  revert s. induction p as [|c p IH]; intros s.
  - split; [intros _; by exists s | by destruct s].
  - destruct s as [|d s]; simpl.
    + split; [discriminate | intros (post & Hpost); discriminate].
    + destruct (Ascii.ascii_dec c d) as [->|Hne].
      * rewrite IH. split; intros (post & Hpost); exists post.
        -- change (String d s = String d (p +:+ post)). by rewrite Hpost.
        -- change (String d s = String d (p +:+ post)) in Hpost. congruence.
      * split; [discriminate|].
        intros (post & Hpost).
        change (String d s = String c (p +:+ post)) in Hpost. congruence.
Qed.

Lemma includes_cons c s needle :
  includes (String c s) needle
  = String.prefix needle (String c s) || includes s needle.
Proof. reflexivity. Qed.

Lemma includes_empty needle :
  includes EmptyString needle = String.prefix needle EmptyString.
Proof. unfold includes. apply orb_false_r. Qed.

(** [includes] finds the needle exactly when the text can be cut around
    an occurrence of it. *)
Lemma includes_occurrence (s needle : string) :
  includes s needle = true <-> exists pre post, s = pre +:+ needle +:+ post.
Proof.
  induction s as [|c s IH].
  - rewrite includes_empty, prefix_append. split.
    + intros (post & Hpost). by exists EmptyString, post.
    + intros (pre & post & Hs). destruct pre as [|x pre]; [by exists post|].
      discriminate.
  - rewrite includes_cons, orb_true_iff, IH, prefix_append. split.
    + intros [(post & Hpost)|(pre & post & Hs)].
      * by exists EmptyString, post.
      * exists (String c pre), post.
        change (String c s = String c (pre +:+ needle +:+ post)). by rewrite Hs.
    + intros (pre & post & Hs). destruct pre as [|x pre].
      * left. by exists post.
      * right. exists pre, post.
        change (String c s = String x (pre +:+ needle +:+ post)) in Hs.
        congruence.
Qed.

Lemma run_shape {E V : Type} `{Evaluator E V}
    (program : list (Statement E)) elapsedScript elapsed result :
  run program elapsedScript elapsed = Done result ->
  if declaresPart program
  then exists p1 p2, result = SolutionResult p1 p2
  else exists value duration, result = ScriptResult value duration.
Proof.
  unfold run. destruct (declaresPart program).
  - destruct (evalInput program) as [input|]; [|discriminate].
    destruct (solvePart program elapsed part_one input) as [p1|]; [|discriminate].
    destruct (solvePart program elapsed part_two input) as [p2|]; [|discriminate].
    intros [= <-]. eauto.
  - destruct (evalScript program) as [v|]; [|discriminate].
    intros [= <-]. eauto.
Qed.

(** Scenario (c) of the spec: the source [part_one: { 42 }] is a solution
    for the runner and for the CLI alike. *)
Example part_one_42 :
  option_map (fun program => run program 0 (fun _ => 0)) (parse "part_one: { 42 }")
    = Some (Done (SolutionResult (Some (ResultValue.mk "42" 0)) None)) /\
  isSolutionSource "part_one: { 42 }" = SolutionSource.mk true false.
Proof. split; vm_compute; reflexivity. Qed.

(** ** Equality and hash of runtime values *)

Lemma Obj_nested_ind (P : O.Obj -> Prop) :
  (forall z, P (O.Integer z)) ->
  (forall d, P (O.Decimal d)) ->
  (forall s, P (O.Str s)) ->
  (forall b, P (O.Bool b)) ->
  P O.Nil ->
  (forall xs, Forall P xs -> P (O.List xs)) ->
  (forall xs, Forall (fun x => P (fst x) /\ P (snd x)) xs -> P (O.Dictionary xs)) ->
  (forall xs, Forall P xs -> P (O.Set_ xs)) ->
  (forall s e t i, P (O.Range s e t i)) ->
  forall v, P v.
Proof.
  intros HInt HDec HStr HBool HNil HList HDict HSet HRange.
  fix IH 1. intros [z|d|s|b| |xs|xs|xs|s e t i].
  - apply HInt.
  - apply HDec.
  - apply HStr.
  - apply HBool.
  - apply HNil.
  - apply HList. induction xs as [|x xs IHxs]; constructor; [apply IH|exact IHxs].
  - apply HDict. induction xs as [|[k v] xs IHxs]; constructor;
      [split; apply IH|exact IHxs].
  - apply HSet. induction xs as [|x xs IHxs]; constructor; [apply IH|exact IHxs].
  - apply HRange.
Qed.

Section HashCombination.
Context {A : Type} (eq : A -> A -> bool) (h : A -> Z).

Lemma removeFirst_sum (p : A -> bool) (ys : list A) : forall ys',
  removeFirst p ys = Some ys' ->
  exists y, p y = true /\
            fold_right Z.add 0 (map h ys) = h y + fold_right Z.add 0 (map h ys').
Proof.
  induction ys as [|y ys IH]; intros ys' Hr; simpl in Hr; [discriminate|].
  destruct (p y) eqn:Hp.
  - injection Hr as <-. exists y. split; [exact Hp|reflexivity].
  - destruct (removeFirst p ys) as [rest|]; [|discriminate].
    injection Hr as <-. destruct (IH rest eq_refl) as (z & Hz & Hsum).
    exists z. split; [exact Hz|]. simpl. lia.
Qed.

Lemma equalsUnordered_sum (xs : list A) :
  Forall (respects eq h) xs ->
  forall ys, equalsUnordered eq xs ys = true ->
  fold_right Z.add 0 (map h xs) = fold_right Z.add 0 (map h ys).
Proof.
  induction 1 as [|x xs Hx _ IH]; intros ys Heq; simpl in Heq.
  - destruct ys; [reflexivity|discriminate].
  - destruct (removeFirst (eq x) ys) as [ys'|] eqn:Hr; [|discriminate].
    apply removeFirst_sum in Hr as (y & Hy & ->).
    simpl. rewrite (Hx y Hy), (IH ys' Heq). reflexivity.
Qed.

Lemma equalsOrdered_map (xs : list A) :
  Forall (respects eq h) xs ->
  forall ys, equalsOrdered eq xs ys = true -> map h xs = map h ys.
Proof.
  induction 1 as [|x xs Hx _ IH]; intros [|y ys] Heq; simpl in Heq;
    try discriminate; [reflexivity|].
  apply andb_true_iff in Heq as [Hxy Hrest].
  simpl. by rewrite (Hx y Hxy), (IH ys Hrest).
Qed.

End HashCombination.

Lemma hashDecimal_SFeqb a b : SFeqb a b = true -> hashDecimal a = hashDecimal b.
Proof.
  unfold SFeqb, SFcompare.
  destruct a as [sa|sa| |sa ma ea], b as [sb|sb| |sb mb eb];
    try discriminate; try reflexivity;
    try (destruct sa; discriminate); try (destruct sb; discriminate).
  - destruct sa, sb; try discriminate; reflexivity.
  - destruct sa, sb; try discriminate;
      (destruct (Z.compare_spec ea eb) as [->| |]; try discriminate;
       destruct (Pos.compare_cont Eq ma mb) eqn:Hm; try discriminate;
       apply Pos.compare_eq in Hm as ->; reflexivity).
Qed.

(** C8.  For all runtime values [v] and [w] of the hashable kinds
    (Integer, Decimal, String, Boolean, Nil, List, Dict, Set, Range): if
    [equals v w] holds then [hashCode v] equals [hashCode w]. *)
Theorem equals_hashCode (v w : O.Obj) :
  O.equals v w = true -> O.hashCode v = O.hashCode w.
Proof.
  revert w. induction v as [z|d|s|b| |xs IH|xs IH|xs IH|s e t i]
    using Obj_nested_ind; intros [z'|d'|s'|b'| |ys|ys|ys|s' e' t' i'] Heq;
    try discriminate Heq.
  - apply Z.eqb_eq in Heq as ->. reflexivity.
  - apply hashDecimal_SFeqb, Heq.
  - apply String.eqb_eq in Heq as ->. reflexivity.
  - apply Bool.eqb_prop in Heq as ->. reflexivity.
  - reflexivity.
  - change (hashOrdered (map O.hashCode xs) = hashOrdered (map O.hashCode ys)).
    f_equal. apply (equalsOrdered_map O.equals O.hashCode xs IH ys), Heq.
  - change (hashUnordered
              (map (fun x => wrap32 (31 * O.hashCode (fst x) + O.hashCode (snd x))) xs)
            = hashUnordered
              (map (fun x => wrap32 (31 * O.hashCode (fst x) + O.hashCode (snd x))) ys)).
    unfold hashUnordered. f_equal.
    apply (equalsUnordered_sum
             (fun x y => O.equals (fst x) (fst y) && O.equals (snd x) (snd y))
             _ xs); [|exact Heq].
    eapply Forall_impl; [exact IH|].
    intros [k x] [Hk Hx] [k' x'] Hkx. simpl in *.
    apply andb_true_iff in Hkx as [Hkk Hxx].
    by rewrite (Hk k' Hkk), (Hx x' Hxx).
  - change (hashUnordered (map O.hashCode xs) = hashUnordered (map O.hashCode ys)).
    unfold hashUnordered. f_equal.
    apply (equalsUnordered_sum O.equals O.hashCode xs IH ys), Heq.
  - simpl in Heq. repeat (apply andb_true_iff in Heq as [Heq ?]).
    apply Z.eqb_eq in Heq as ->.
    match goal with H : Z.eqb t t' = true |- _ => apply Z.eqb_eq in H as -> end.
    match goal with H : Bool.eqb i i' = true |- _ => apply Bool.eqb_prop in H as -> end.
    destruct e as [x|], e' as [y|]; try discriminate; [|reflexivity].
    match goal with H : equalsOption _ _ = true |- _ =>
                      simpl in H; apply Z.eqb_eq in H as -> end.
    reflexivity.
Qed.

Lemma equals_hashCode_witness :
  O.equals dictThis dictThat = true /\
  O.hashCode dictThis = O.hashCode dictThat.
Proof.
  assert (O.equals dictThis dictThat = true) as Heq by (vm_compute; reflexivity).
  split; [exact Heq | exact (equals_hashCode dictThis dictThat Heq)].
Defined.

(** Order matters for a List and not for a Set, and the hash tells the
    two Lists apart. *)
Example equals_order :
  O.equals (O.List [O.Integer 1; O.Integer 2]) (O.List [O.Integer 2; O.Integer 1])
    = false /\
  O.hashCode (O.List [O.Integer 1; O.Integer 2])
    <> O.hashCode (O.List [O.Integer 2; O.Integer 1]) /\
  O.equals (O.Set_ [O.Integer 1; O.Integer 2]) (O.Set_ [O.Integer 2; O.Integer 1])
    = true /\
  O.equals (O.Integer 1) (O.Str "1") = false.
Proof. repeat split; vm_compute; congruence. Qed.

(** * Further properties of the code *)

(** ** [io.ts]: reading input *)

Lemma input_plain_path w path :
  World.newURL w path = None ->
  input path w
  = match World.files w !! path with
    | Some content => (Returned content, w)
    | None => (Thrown (JsError ("Unable to read path: " +:+ path)), w)
    end.
Proof.
  intros Hurl. unfold input, bind, parseUrl. rewrite Hurl.
  unfold tryCatch, readFileSync. by destruct (World.files w !! path).
Qed.

Lemma input_other_url w path url :
  World.newURL w path = Some url ->
  String.eqb (URL.protocol url) "aoc:" = false ->
  input path w
  = if Z.eqb (SpawnResult.exitCode (World.spawn w ["curl"; "-sfL"; path])) 0
    then (Returned (SpawnResult.stdout (World.spawn w ["curl"; "-sfL"; path])), w)
    else (Thrown (JsError ("Unable to read HTTP input: " +:+ path)), w).
Proof.
  intros Hurl Hp. unfold input, bind, parseUrl. rewrite Hurl, Hp.
  unfold readUrl, bind, spawnSync.
  by destruct (Z.eqb (SpawnResult.exitCode (World.spawn w ["curl"; "-sfL"; path])) 0).
Qed.

Lemma input_aoc_url w path url :
  World.newURL w path = Some url ->
  String.eqb (URL.protocol url) "aoc:" = true ->
  input path w = readAoC url path w.
Proof.
  intros Hurl Hp. unfold input, bind, parseUrl. by rewrite Hurl, Hp.
Qed.

(** X1.  Whatever the path, [input] touches nothing but the file system:
    console capture, printed lines, clock, environment are as before.  A
    call that throws changes nothing at all, and a call that returns
    changes at most one file: the cache file of an [aoc:] URL that was
    not readable before, which then holds exactly the string returned. *)
Theorem input_frame (path : string) (w : World.t) :
  let w' := snd (input path w) in
  World.consoleBuffer w' = World.consoleBuffer w /\
  World.captureStartTime w' = World.captureStartTime w /\
  World.printed w' = World.printed w /\
  World.clockReads w' = World.clockReads w /\
  World.env w' = World.env w /\
  (forall e, fst (input path w) = Thrown e -> w' = w) /\
  (forall f, World.files w' !! f <> World.files w !! f ->
     exists url content,
       World.newURL w path = Some url /\
       URL.protocol url = "aoc:" /\
       f = aocFilename (URL.host url) (substring1 (URL.pathname url)) /\
       World.files w !! f = None /\
       fst (input path w) = Returned content /\
       World.files w' !! f = Some content).
Proof.
  destruct (World.newURL w path) as [url|] eqn:Hurl.
  2:{ rewrite (input_plain_path w path Hurl).
      destruct (World.files w !! path); simpl;
        repeat split; try reflexivity; intros f Hf; by destruct Hf. }
  destruct (String.eqb (URL.protocol url) "aoc:") eqn:Hp.
  2:{ rewrite (input_other_url w path url Hurl Hp).
      destruct (Z.eqb _ 0); simpl;
        repeat split; try reflexivity; intros f Hf; by destruct Hf. }
  rewrite (input_aoc_url w path url Hurl Hp).
  apply String.eqb_eq in Hp.
  set (filename := aocFilename (URL.host url) (substring1 (URL.pathname url))).
  destruct (World.files w !! filename) as [content|] eqn:Hfile.
  { rewrite (readAoC_cached w url path content Hfile). simpl.
    repeat split; try reflexivity; intros f Hf; by destruct Hf. }
  rewrite (readAoC_miss w url path Hfile). fold filename.
  destruct (tokenMissing _);
    [simpl; repeat split; try reflexivity; intros f Hf; by destruct Hf|].
  destruct (negb _);
    [simpl; repeat split; try reflexivity; intros f Hf; by destruct Hf|].
  destruct (World.writable w filename);
    [|simpl; repeat split; try reflexivity; intros f Hf; by destruct Hf].
  simpl. repeat split; try reflexivity; try discriminate.
  intros f Hf. destruct (decide (filename = f)) as [<-|Hne].
  - eexists url, _. rewrite lookup_insert_eq. repeat split; auto.
  - rewrite lookup_insert_ne in Hf by exact Hne. by destruct Hf.
Qed.

(** X2.  Every exception that escapes [input] is an [Error] whose
    message starts with "Unable to read" and names the path, one message
    per kind of path, except for the system error of a cache file that
    could not be written. *)
Theorem input_exceptions (path : string) (w : World.t) (e : Exception) :
  fst (input path w) = Thrown e ->
  (World.newURL w path = None /\ World.files w !! path = None /\
   e = JsError ("Unable to read path: " +:+ path)) \/
  (exists url,
     World.newURL w path = Some url /\ URL.protocol url <> "aoc:" /\
     SpawnResult.exitCode (World.spawn w ["curl"; "-sfL"; path]) <> 0 /\
     e = JsError ("Unable to read HTTP input: " +:+ path)) \/
  (exists url,
     World.newURL w path = Some url /\ URL.protocol url = "aoc:" /\
     (e = JsError ("Unable to read AOC input: " +:+ path +:+
            ", missing session token within SANTA_CLI_SESSION_TOKEN environment variable") \/
      e = JsError ("Unable to read AOC input: " +:+ path) \/
      e = SystemError (aocFilename (URL.host url) (substring1 (URL.pathname url))))).
Proof.
  destruct (World.newURL w path) as [url|] eqn:Hurl.
  2:{ rewrite (input_plain_path w path Hurl).
      destruct (World.files w !! path) eqn:Hf; simpl; [discriminate|].
      intros [= <-]. left. auto. }
  destruct (String.eqb (URL.protocol url) "aoc:") eqn:Hp.
  2:{ rewrite (input_other_url w path url Hurl Hp).
      destruct (Z.eqb_spec (SpawnResult.exitCode (World.spawn w ["curl"; "-sfL"; path])) 0);
        simpl; [discriminate|].
      intros [= <-]. right. left. exists url. apply String.eqb_neq in Hp. auto. }
  rewrite (input_aoc_url w path url Hurl Hp).
  apply String.eqb_eq in Hp.
  intros Hthrow. right. right. exists url. split; [reflexivity|]. split; [exact Hp|].
  set (filename := aocFilename (URL.host url) (substring1 (URL.pathname url))) in *.
  destruct (World.files w !! filename) as [content|] eqn:Hfile.
  { rewrite (readAoC_cached w url path content Hfile) in Hthrow. discriminate. }
  rewrite (readAoC_miss w url path Hfile) in Hthrow. fold filename in Hthrow.
  destruct (tokenMissing _); [injection Hthrow as <-; auto|].
  destruct (negb _); [injection Hthrow as <-; auto|].
  destruct (World.writable w filename); [discriminate|].
  injection Hthrow as <-. auto.
Qed.

Lemma input_exceptions_witness :
  fst (input "notes/day01.txt" (freshWorld ∅))
    = Thrown (JsError "Unable to read path: notes/day01.txt") /\
  World.newURL (freshWorld ∅) "notes/day01.txt" = None /\
  World.files (freshWorld ∅) !! "notes/day01.txt" = None.
Proof.
  assert (fst (input "notes/day01.txt" (freshWorld ∅))
          = Thrown (JsError "Unable to read path: notes/day01.txt")) as H
    by (vm_compute; reflexivity).
  split; [exact H|].
  destruct (input_exceptions _ _ _ H)
    as [(Hn & Hf & _)|[(url & Hu & _)|(url & Hu & _)]];
    [split; assumption | vm_compute in Hu; discriminate Hu
     | vm_compute in Hu; discriminate Hu].
Defined.

(** X3.  The cache round trip: once [input] has returned the content of
    an [aoc:] URL, asking again returns the same content from the cache
    file, in any world that has the files it left, without a session
    token and without the network, and changes nothing. *)
Theorem input_aoc_again (path : string) (url : URL.t) (w w2 : World.t)
    (content : string) :
  World.newURL w path = Some url ->
  URL.protocol url = "aoc:" ->
  fst (input path w) = Returned content ->
  World.newURL w2 path = Some url ->
  World.files w2 = World.files (snd (input path w)) ->
  input path w2 = (Returned content, w2).
Proof.
  intros Hurl Hp Hret Hurl2 Hfiles.
  assert (String.eqb (URL.protocol url) "aoc:" = true) as Hpb
    by (by apply String.eqb_eq).
  rewrite (input_aoc_url w2 path url Hurl2 Hpb).
  apply readAoC_cached. rewrite Hfiles.
  rewrite (input_aoc_url w path url Hurl Hpb) in Hret |- *.
  set (filename := aocFilename (URL.host url) (substring1 (URL.pathname url))) in *.
  destruct (World.files w !! filename) as [cached|] eqn:Hfile.
  { rewrite (readAoC_cached w url path cached Hfile) in Hret |- *.
    injection Hret as <-. exact Hfile. }
  rewrite (readAoC_miss w url path Hfile) in Hret |- *. fold filename in Hret |- *.
  destruct (tokenMissing _); [discriminate|].
  destruct (negb _); [discriminate|].
  destruct (World.writable w filename); [|discriminate].
  injection Hret as <-. simpl. apply lookup_insert_eq.
Qed.

Lemma input_aoc_again_witness :
  let w := freshWorld {[ "SANTA_CLI_SESSION_TOKEN" := "53616c7465645f5f" ]} in
  let offline :=
    World.mk None 0 [] (fun _ => 0) 0 (World.files (snd (input "aoc://2022/1" w)))
      (fun _ => false) ∅ (fun _ => SpawnResult.mk 22 EmptyString) schemeURL in
  fst (input "aoc://2022/1" offline) = fst (input "aoc://2022/1" w) /\
  snd (input "aoc://2022/1" offline) = offline.
Proof.
  intros w offline.
  assert (input "aoc://2022/1" offline
          = (Returned ("199" +:+ String newline ("200" +:+ String newline "208")),
             offline)) as H.
  { apply (input_aoc_again "aoc://2022/1" (URL.mk "aoc:" "2022" "/1") w offline);
      vm_compute; reflexivity. }
  rewrite H. split; [|reflexivity]. vm_compute. reflexivity.
Defined.

(** ** [io.ts]: printing and capturing *)

(** X4.  With capture off, a run of [output] calls prints the messages of
    the calls that have arguments, one line each, in call order, after
    what was printed before; nothing is buffered and the clock is not
    read: the world is otherwise as it was. *)
Theorem outputs_printing (calls : list (list string)) (w : World.t) :
  World.consoleBuffer w = None ->
  outputs calls w
  = (Returned tt, World.setPrinted (World.printed w ++ messagesOf calls) w).
Proof.
  revert w. induction calls as [|args calls IH]; intros w Hb.
  - simpl. rewrite app_nil_r. by destruct w.
  - simpl outputs. unfold bind. destruct args as [|a args].
    + rewrite output_empty. by apply IH.
    + rewrite (output_printing a args w Hb).
      rewrite IH by exact Hb. simpl.
      by rewrite <- app_assoc.
Qed.

Lemma outputs_printing_witness :
  outputs [["hello"; "world"]; []; ["42"]] (freshWorld ∅)
  = (Returned tt, World.setPrinted ["hello world"; "42"] (freshWorld ∅)).
Proof. exact (outputs_printing [["hello"; "world"]; []; ["42"]] (freshWorld ∅) eq_refl). Defined.

(** X5.  A capture is silent and hands its entries out once.  From any
    world, after enable, a run of [output] calls and disable: nothing was
    printed, the capture is off again, the clock was read once at the
    start and once per captured message, files and environment are
    untouched, and a second [disableConsoleCapture] returns no entry. *)
Theorem captured_world (calls : list (list string)) (w : World.t) :
  let w' := snd (captured calls w) in
  World.printed w' = World.printed w /\
  World.consoleBuffer w' = None /\
  World.clockReads w'
    = (World.clockReads w + 1 + length (messagesOf calls))%nat /\
  World.captureStartTime w' = World.clock w (World.clockReads w) /\
  World.files w' = World.files w /\
  World.env w' = World.env w /\
  disableConsoleCapture w' = (Returned [], w').
Proof.
  assert (forall calls w entries,
            World.consoleBuffer w = Some entries ->
            let w' := snd (outputs calls w) in
            fst (outputs calls w) = Returned tt /\
            World.printed w' = World.printed w /\
            is_Some (World.consoleBuffer w') /\
            World.clockReads w'
              = (World.clockReads w + length (messagesOf calls))%nat /\
            World.captureStartTime w' = World.captureStartTime w /\
            World.files w' = World.files w /\
            World.env w' = World.env w) as Hrun.
  { clear. induction calls as [|args calls IH]; intros w entries Hb.
    - simpl. rewrite Hb. repeat split; first [lia | by eexists].
    - simpl outputs. unfold bind. destruct args as [|a args].
      + rewrite output_empty. by apply (IH w entries).
      + rewrite (output_capturing a args entries w Hb).
        edestruct (IH (World.setConsoleBuffer
                         (Some (entries ++ [ConsoleEntry.mk
                            (World.clock w (World.clockReads w) - World.captureStartTime w)
                            (join " " (a :: args))]))
                         (World.setClockReads (S (World.clockReads w)) w)))
          as (Hr & Hp & Hc & Hk & Hs & Hf & He); [reflexivity|].
        simpl in *. repeat split; try assumption. lia. }
  set (w1 := World.setConsoleBuffer (Some [])
               (World.setCaptureStartTime (World.clock w (World.clockReads w))
                  (World.setClockReads (S (World.clockReads w)) w))).
  assert (enableConsoleCapture w = (Returned tt, w1)) as Hen by reflexivity.
  destruct (Hrun calls w1 [] eq_refl) as (Hr & Hp & [b Hc] & Hk & Hs & Hf & He).
  destruct (outputs calls w1) as [r w2] eqn:Hout. simpl in *. subst r.
  assert (captured calls w = (Returned b, World.setConsoleBuffer None w2)) as Hcap.
  { unfold captured. unfold bind at 1. rewrite Hen. unfold bind at 1. rewrite Hout.
    unfold disableConsoleCapture, bind, getConsoleBuffer, putConsoleBuffer, ret.
    rewrite Hc. reflexivity. }
  rewrite Hcap. simpl.
  repeat split; try assumption; try lia.
Qed.

(** ** [output.ts] and [index.ts]: the documents of test mode *)

Lemma formatTestCases_initial h1 h2 tcs : forall i c,
  map (fun j => JsonlTestCaseInitial.mk (JsonTestCase.index j) (JsonTestCase.slow j))
      (fst (formatTestCases h1 h2 i tcs c))
  = imap (fun k tc => JsonlTestCaseInitial.mk (i + k + 1) (TestCase.slow tc)) tcs.
Proof.
  induction tcs as [|tc tcs IH]; intros i c; [reflexivity|].
  simpl. pose proof (formatTestCase_element h1 h2 i tc c) as (Hi & Hs & _).
  destruct (formatTestCase h1 h2 i tc c) as [j c1]. simpl in Hi, Hs.
  specialize (IH (S i) c1).
  destruct (formatTestCases h1 h2 (S i) tcs c1) as [js c2]. simpl in *.
  rewrite Hi, Hs, Nat.add_0_r. f_equal. rewrite IH.
  apply imap_ext. intros k x _. simpl. f_equal. lia.
Qed.

(** X6.  The initial document of a JSONL test stream announces exactly
    the tests that the JSON document reports: as many, in the same
    order, each with the same one-based index and [slow] flag, and the
    same [total]; its three counters start at zero. *)
Theorem createTestInitial_formatTestJson (testCases : list TestCase.t)
    (hasPartOne hasPartTwo : bool) (console : list ConsoleEntry.t) :
  let initial := createTestInitial testCases in
  let final := formatTestJson testCases hasPartOne hasPartTwo console in
  JsonlTestInitial.tests initial
    = map (fun j => JsonlTestCaseInitial.mk (JsonTestCase.index j) (JsonTestCase.slow j))
          (JsonTestOutput.tests final) /\
  TestSummary.total (JsonlTestInitial.summary initial)
    = TestSummary.total (JsonTestOutput.summary final) /\
  TestSummary.passed (JsonlTestInitial.summary initial) = 0%nat /\
  TestSummary.failed (JsonlTestInitial.summary initial) = 0%nat /\
  TestSummary.skipped (JsonlTestInitial.summary initial) = 0%nat.
Proof.
  cbv zeta. rewrite formatTestJson_summary. simpl.
  split; [|repeat split].
  unfold formatTestJson.
  pose proof (formatTestCases_initial hasPartOne hasPartTwo testCases 0%nat
                Counters.zero) as H.
  destruct (formatTestCases hasPartOne hasPartTwo 0 testCases Counters.zero)
    as [js c]. simpl in *. rewrite H. reflexivity.
Qed.

Lemma map_imap_ext {A B C D} (f : nat -> A -> B) (g : nat -> A -> C)
    (p : B -> D) (q : C -> D) (l : list A) :
  (forall k x, p (f k x) = q (g k x)) ->
  map p (imap f l) = map q (imap g l).
Proof.
  revert f g. induction l as [|x l IH]; intros f g H; simpl; [reflexivity|].
  f_equal; [apply H|]. apply IH. intros k y. apply H.
Qed.

Lemma textTestCase_headers idx tc e :
  omap headerOf (fst (textTestCase idx tc e)) = [((idx + 1)%nat, headerLabel tc)].
Proof.
  unfold textTestCase, textPart, headerLabel.
  destruct (0 <? idx)%nat, (TestCase.skipped tc), (TestCase.slow tc),
    (TestCase.partOne tc) as [r1|], (TestCase.partTwo tc) as [r2|];
    simpl; case_hasPassed; reflexivity.
Qed.

Lemma textTestCases_headers tcs : forall idx e,
  omap headerOf (fst (textTestCases idx tcs e))
  = imap (fun k tc => ((idx + k + 1)%nat, headerLabel tc)) tcs.
Proof.
  induction tcs as [|tc tcs IH]; intros idx e; [reflexivity|].
  simpl. pose proof (textTestCase_headers idx tc e) as H1.
  destruct (textTestCase idx tc e) as [l e1]. simpl in H1.
  specialize (IH (S idx) e1).
  destruct (textTestCases (S idx) tcs e1) as [ls e2]. simpl in *.
  rewrite omap_app, H1, IH, Nat.add_0_r. simpl. f_equal.
  apply imap_ext. intros k x _. simpl. do 2 f_equal. lia.
Qed.

(** X7.  The text report of test mode has exactly one header line per
    test case, in order, numbered from 1, labelled [(skipped)] when the
    test was skipped, [(slow)] when it was slow and run, and plain
    otherwise: the same numbering and the same skipped tests as the JSON
    document. *)
Theorem textTestMode_headers (testCases : list TestCase.t)
    (hasPartOne hasPartTwo : bool) (console : list ConsoleEntry.t) :
  omap headerOf (fst (textTestMode testCases))
    = imap (fun k tc => ((k + 1)%nat, headerLabel tc)) testCases /\
  map (fun h => fst h) (omap headerOf (fst (textTestMode testCases)))
    = map JsonTestCase.index
        (JsonTestOutput.tests
           (formatTestJson testCases hasPartOne hasPartTwo console)) /\
  (forall i tc, testCases !! i = Some tc ->
     (headerLabel tc = skippedHeader <-> TestCase.skipped tc = true) /\
     (headerLabel tc = slowHeader <->
        TestCase.skipped tc = false /\ TestCase.slow tc = true)).
Proof.
  assert (omap headerOf (fst (textTestMode testCases))
          = imap (fun k tc => ((k + 1)%nat, headerLabel tc)) testCases) as Hh.
  { unfold textTestMode. rewrite textTestCases_headers.
    apply imap_ext. intros k x _. reflexivity. }
  split; [exact Hh|]. split.
  - rewrite Hh. unfold formatTestJson.
    pose proof (formatTestCases_initial hasPartOne hasPartTwo testCases 0%nat
                  Counters.zero) as H.
    destruct (formatTestCases hasPartOne hasPartTwo 0 testCases Counters.zero)
      as [js c]. simpl in *.
    transitivity
      (map JsonlTestCaseInitial.index
         (map (fun j => JsonlTestCaseInitial.mk (JsonTestCase.index j)
                          (JsonTestCase.slow j)) js)).
    + rewrite H. apply map_imap_ext. reflexivity.
    + rewrite map_map. reflexivity.
  - intros i tc _. unfold headerLabel.
    destruct (TestCase.skipped tc), (TestCase.slow tc); split; split;
      intuition congruence.
Qed.

(** ** [index.ts]: the JSONL stream of test mode *)

Lemma string_app_assoc (a b c : string) : (a +:+ b) +:+ c = a +:+ (b +:+ c).
Proof.
  induction a as [|x a IH]; [reflexivity|].
  change (String x ((a +:+ b) +:+ c) = String x (a +:+ (b +:+ c))).
  by rewrite IH.
Qed.

Lemma string_of_uint_digits d : allDigits (NilEmpty.string_of_uint d) = true.
Proof. induction d; simpl; try reflexivity; exact IHd. Qed.

Lemma natToString_inj i j : natToString i = natToString j -> i = j.
Proof.
  unfold natToString. intros H.
  apply Unsigned.to_uint_inj.
  pose proof (NilEmpty.usu (Nat.to_uint i)) as Hi.
  pose proof (NilEmpty.usu (Nat.to_uint j)) as Hj.
  rewrite H in Hi. congruence.
Qed.

(** Two texts made of digits followed by a slash and more are equal only
    if the digits and what follows them are. *)
Lemma digits_then_slash (a b : string) : forall y z,
  allDigits a = true -> allDigits b = true ->
  a +:+ String slash y = b +:+ String slash z -> a = b /\ y = z.
Proof.
  revert b. induction a as [|c a IH]; intros [|d b] y z Ha Hb Heq.
  - injection Heq as ->. auto.
  - change (String slash y = String d (b +:+ String slash z)) in Heq.
    injection Heq as <- _. simpl in Hb. discriminate.
  - change (String c (a +:+ String slash y) = String slash z) in Heq.
    injection Heq as -> _. simpl in Ha. discriminate.
  - change (String c (a +:+ String slash y) = String d (b +:+ String slash z)) in Heq.
    injection Heq as -> Heq. simpl in Ha, Hb.
    apply andb_true_iff in Ha as [_ Ha]. apply andb_true_iff in Hb as [_ Hb].
    destruct (IH b y z Ha Hb Heq) as [-> ->]. auto.
Qed.

(** The path of a field of test [i] determines the test and the field. *)
Lemma test_path_eqb i j y z :
  String.eqb (("/tests/" +:+ natToString i) +:+ String slash y)
             (("/tests/" +:+ natToString j) +:+ String slash z)
  = Nat.eqb i j && String.eqb y z.
Proof.
  destruct (String.eqb_spec
              (("/tests/" +:+ natToString i) +:+ String slash y)
              (("/tests/" +:+ natToString j) +:+ String slash z)) as [Heq|Hne].
  - rewrite !string_app_assoc in Heq.
    assert (natToString i +:+ String slash y = natToString j +:+ String slash z)
      as Heq' by (by injection Heq).
    apply digits_then_slash in Heq' as [Hij ->];
      try apply string_of_uint_digits.
    apply natToString_inj in Hij as ->.
    by rewrite Nat.eqb_refl, String.eqb_refl.
  - symmetry. apply andb_false_iff.
    destruct (Nat.eqb_spec i j) as [->|]; [|by left].
    right. apply String.eqb_neq. intros ->. by destruct Hne.
Qed.

(** A path under [/tests/] is none of the paths of the document itself. *)
Lemma tests_path_other (p x y : string) :
  String.prefix "/tests/" p = false ->
  String.eqb (("/tests/" +:+ x) +:+ y) p = false.
Proof.
  intros Hp. apply String.eqb_neq. intros <-.
  rewrite string_app_assoc in Hp.
  assert (String.prefix "/tests/" ("/tests/" +:+ (x +:+ y)) = true) as H
    by (apply prefix_append; eauto).
  congruence.
Qed.

Lemma lastReplaced_app path a b :
  lastReplaced path (a ++ b)
  = match lastReplaced path b with
    | Some v => Some v
    | None => lastReplaced path a
    end.
Proof.
  induction a as [|p a IH]; simpl.
  - by destruct (lastReplaced path b).
  - rewrite IH. by destruct (lastReplaced path b).
Qed.

Lemma lastReplaced_none path ps :
  Forall (fun p => replaces path p = false) ps -> lastReplaced path ps = None.
Proof.
  induction 1 as [|p ps Hp _ IH]; simpl; [reflexivity|]. by rewrite IH, Hp.
Qed.

Lemma replacedOr_app initial path a b :
  replacedOr initial path (a ++ b)
  = replacedOr (replacedOr initial path a) path b.
Proof.
  unfold replacedOr. rewrite lastReplaced_app.
  by destruct (lastReplaced path b).
Qed.

Lemma addedAt_app path a b : addedAt path (a ++ b) = addedAt path a ++ addedAt path b.
Proof. unfold addedAt. by rewrite flat_map_app. Qed.

Lemma patchesOf_app a b : patchesOf (a ++ b) = patchesOf a ++ patchesOf b.
Proof. unfold patchesOf. by rewrite flat_map_app. Qed.

Lemma patchesOf_writePatches ps : patchesOf (writePatches ps) = ps.
Proof. unfold patchesOf, writePatches. simpl. by rewrite app_nil_r. Qed.

Lemma patchesOf_flat_writePatches body :
  patchesOf (flat_map writePatches body) = concat body.
Proof.
  induction body as [|ps body IH]; [reflexivity|].
  change (flat_map writePatches (ps :: body))
    with (writePatches ps ++ flat_map writePatches body).
  rewrite patchesOf_app, patchesOf_writePatches, IH. reflexivity.
Qed.

Lemma patchesOf_consolePatches con :
  patchesOf (consolePatches con)
  = map (fun e => addPatch "/console/-" (PConsoleEntry e)) con.
Proof.
  induction con as [|e con IH]; [reflexivity|].
  change (consolePatches (e :: con))
    with (writePatches [addPatch "/console/-" (PConsoleEntry e)]
            ++ consolePatches con).
  rewrite patchesOf_app, patchesOf_writePatches, IH. reflexivity.
Qed.

Lemma consolePatches_replaced path con :
  lastReplaced path (map (fun e => addPatch "/console/-" (PConsoleEntry e)) con) = None.
Proof. apply lastReplaced_none, Forall_forall. intros p Hp.
  apply list_elem_of_In, in_map_iff in Hp as (e & <- & _). reflexivity. Qed.

Lemma consolePatches_added con :
  addedAt "/console/-" (map (fun e => addPatch "/console/-" (PConsoleEntry e)) con)
  = map PConsoleEntry con.
Proof. induction con as [|e con IH]; [reflexivity|]. simpl. by rewrite IH. Qed.

Lemma addedAt_replaces path ps :
  Forall (fun p => JsonPatch.op p = op_replace) ps -> addedAt path ps = [].
Proof.
  induction 1 as [|p ps Hp _ IH]; [reflexivity|].
  unfold addedAt in *. simpl. by rewrite Hp, IH.
Qed.

(** Every patch of the test loop is a [replace]. *)
Lemma jsonlTestCasesLines_replace h1 h2 tcs : forall i c,
  Forall (fun p => JsonPatch.op p = op_replace)
    (concat (fst (jsonlTestCasesLines h1 h2 i tcs c))).
Proof.
  induction tcs as [|tc tcs IH]; intros i c; [constructor|].
  simpl. destruct (jsonlTestCaseLines h1 h2 i tc c) as [l c1] eqn:Hone.
  specialize (IH (S i) c1).
  destruct (jsonlTestCasesLines h1 h2 (S i) tcs c1) as [ls c2]. simpl in *.
  rewrite concat_app. apply Forall_app. split; [|exact IH].
  unfold jsonlTestCaseLines, testPartPatch in Hone.
  destruct (TestCase.skipped tc); injection Hone as <- _; simpl.
  - repeat constructor.
  - destruct (jsonPart h1 (TestCase.partOne tc)),
      (jsonPart h2 (TestCase.partTwo tc)), (allPassed tc);
      simpl; repeat constructor.
Qed.

(** The counters of the full JSONL loop are those of the loop that only
    counts. *)
Lemma jsonlTestCasesLines_counters h1 h2 tcs : forall i c,
  snd (jsonlTestCasesLines h1 h2 i tcs c) = fold_left jsonlTestCase tcs c.
Proof.
  induction tcs as [|tc tcs IH]; intros i c; [reflexivity|].
  simpl. destruct (jsonlTestCaseLines h1 h2 i tc c) as [l c1] eqn:Hone.
  specialize (IH (S i) c1).
  destruct (jsonlTestCasesLines h1 h2 (S i) tcs c1) as [ls c2]. simpl in *.
  rewrite IH. f_equal.
  unfold jsonlTestCaseLines in Hone. unfold jsonlTestCase.
  destruct (TestCase.skipped tc); injection Hone as _ <-; reflexivity.
Qed.

Lemma lastReplaced_cons path q v rest :
  lastReplaced path (replacePatch q v :: rest)
  = match lastReplaced path rest with
    | Some x => Some x
    | None => if String.eqb q path then Some v else None
    end.
Proof. reflexivity. Qed.

Lemma lastReplaced_nil path : lastReplaced path [] = None.
Proof. reflexivity. Qed.

(** What one iteration of the test loop does to a field outside
    [/tests/]: it bumps one of the three counters of the summary. *)
Lemma jsonlTestCaseLines_top path h1 h2 i tc c :
  String.prefix "/tests/" path = false ->
  lastReplaced path (concat (fst (jsonlTestCaseLines h1 h2 i tc c)))
  = if TestCase.skipped tc then
      if String.eqb "/summary/skipped" path
      then Some (PNumber (Z.of_nat (S (Counters.skipped c)))) else None
    else if allPassed tc then
      if String.eqb "/summary/passed" path
      then Some (PNumber (Z.of_nat (S (Counters.passed c)))) else None
    else
      if String.eqb "/summary/failed" path
      then Some (PNumber (Z.of_nat (S (Counters.failed c)))) else None.
Proof.
  intros Hp. unfold jsonlTestCaseLines, testPartPatch.
  destruct (TestCase.skipped tc); [|destruct (jsonPart h1 (TestCase.partOne tc)),
      (jsonPart h2 (TestCase.partTwo tc)), (allPassed tc)];
    cbn [fst concat app];
    rewrite ?lastReplaced_cons, ?lastReplaced_nil, ?tests_path_other by assumption;
    repeat match goal with
           | |- context [String.eqb ?a path] => destruct (String.eqb a path)
           end; reflexivity.
Qed.

Lemma jsonlTestCasesLines_top path h1 h2 tcs : forall i c,
  String.prefix "/tests/" path = false ->
  String.eqb "/summary/passed" path = false ->
  String.eqb "/summary/failed" path = false ->
  String.eqb "/summary/skipped" path = false ->
  lastReplaced path (concat (fst (jsonlTestCasesLines h1 h2 i tcs c))) = None.
Proof.
  induction tcs as [|tc tcs IH]; intros i c Hp H1 H2 H3; [reflexivity|].
  simpl. destruct (jsonlTestCaseLines h1 h2 i tc c) as [l c1] eqn:Hone.
  specialize (IH (S i) c1 Hp H1 H2 H3).
  destruct (jsonlTestCasesLines h1 h2 (S i) tcs c1) as [ls c2]. simpl in *.
  rewrite concat_app, lastReplaced_app, IH.
  pose proof (jsonlTestCaseLines_top path h1 h2 i tc c Hp) as Hstep.
  rewrite Hone in Hstep. simpl in Hstep. rewrite Hstep, H1, H2, H3.
  by destruct (TestCase.skipped tc), (allPassed tc).
Qed.

Lemma jsonlTestCasesLines_summary h1 h2 tcs : forall i c,
  let r := jsonlTestCasesLines h1 h2 i tcs c in
  replacedOr (PNumber (Z.of_nat (Counters.passed c))) "/summary/passed"
    (concat (fst r)) = PNumber (Z.of_nat (Counters.passed (snd r)))
  /\ replacedOr (PNumber (Z.of_nat (Counters.failed c))) "/summary/failed"
    (concat (fst r)) = PNumber (Z.of_nat (Counters.failed (snd r)))
  /\ replacedOr (PNumber (Z.of_nat (Counters.skipped c))) "/summary/skipped"
    (concat (fst r)) = PNumber (Z.of_nat (Counters.skipped (snd r))).
Proof.
  induction tcs as [|tc tcs IH]; intros i c; [by repeat split|].
  simpl. destruct (jsonlTestCaseLines h1 h2 i tc c) as [l c1] eqn:Hone.
  specialize (IH (S i) c1).
  destruct (jsonlTestCasesLines h1 h2 (S i) tcs c1) as [ls c2]. simpl in *.
  rewrite concat_app, !replacedOr_app.
  assert (replacedOr (PNumber (Z.of_nat (Counters.passed c))) "/summary/passed"
            (concat l) = PNumber (Z.of_nat (Counters.passed c1))
          /\ replacedOr (PNumber (Z.of_nat (Counters.failed c))) "/summary/failed"
            (concat l) = PNumber (Z.of_nat (Counters.failed c1))
          /\ replacedOr (PNumber (Z.of_nat (Counters.skipped c))) "/summary/skipped"
            (concat l) = PNumber (Z.of_nat (Counters.skipped c1))) as (-> & -> & ->);
    [|exact IH].
  unfold replacedOr.
  pose proof (fun path Hp => jsonlTestCaseLines_top path h1 h2 i tc c Hp) as Hstep.
  rewrite Hone in Hstep. simpl in Hstep. rewrite !Hstep by reflexivity.
  unfold jsonlTestCaseLines in Hone.
  destruct (TestCase.skipped tc); [|destruct (allPassed tc)];
    injection Hone as _ <-; by repeat split.
Qed.

Lemma replacedOr_none initial path ps :
  lastReplaced path ps = None -> replacedOr initial path ps = initial.
Proof. unfold replacedOr. by intros ->. Qed.

Lemma top_path_other (p x y : string) :
  String.prefix "/tests/" p = false ->
  String.eqb p (("/tests/" +:+ x) +:+ y) = false.
Proof. intros Hp. rewrite String.eqb_sym. by apply tests_path_other. Qed.

(** What one iteration of the test loop does to the fields of test [k]:
    nothing unless it is iteration [k], and then it leaves there what
    [formatTestJson] puts in its element. *)
Lemma jsonlTestCaseLines_test h1 h2 i k tc c :
  let ps := concat (fst (jsonlTestCaseLines h1 h2 i tc c)) in
  let j := fst (formatTestCase h1 h2 i tc c) in
  let at_ field := lastReplaced (("/tests/" +:+ natToString k) +:+ String slash field) ps in
  at_ "status"
  = (if Nat.eqb i k then Some (PString (statusWord (JsonTestCase.status j))) else None)
  /\ at_ "part_one"
  = (if Nat.eqb i k then option_map PTestPart (JsonTestCase.part_one j) else None)
  /\ at_ "part_two"
  = (if Nat.eqb i k then option_map PTestPart (JsonTestCase.part_two j) else None).
Proof.
  unfold jsonlTestCaseLines, formatTestCase, testPartPatch.
  destruct (TestCase.skipped tc); [|destruct (jsonPart h1 (TestCase.partOne tc)),
      (jsonPart h2 (TestCase.partTwo tc)), (allPassed tc)];
    cbn [fst concat app JsonTestCase.status JsonTestCase.part_one
           JsonTestCase.part_two option_map statusWord];
    change ("/" +:+ "part_one") with (String slash "part_one");
    change ("/" +:+ "part_two") with (String slash "part_two");
    rewrite ?lastReplaced_cons, ?lastReplaced_nil, ?test_path_eqb;
    rewrite ?top_path_other by reflexivity;
    destruct (Nat.eqb i k); by repeat split.
Qed.

Lemma formatTestCase_fst h1 h2 i tc c c' :
  fst (formatTestCase h1 h2 i tc c) = fst (formatTestCase h1 h2 i tc c').
Proof. unfold formatTestCase. by destruct (TestCase.skipped tc). Qed.

(** The iterations from [i] on leave the fields of an earlier test
    alone. *)
Lemma jsonlTestCasesLines_later h1 h2 field tcs : forall i c k,
  (k < i)%nat ->
  (field = "status" \/ field = "part_one" \/ field = "part_two") ->
  lastReplaced (("/tests/" +:+ natToString k) +:+ String slash field)
    (concat (fst (jsonlTestCasesLines h1 h2 i tcs c))) = None.
Proof.
  induction tcs as [|tc tcs IH]; intros i c k Hk Hf; [reflexivity|].
  simpl. destruct (jsonlTestCaseLines h1 h2 i tc c) as [l c1] eqn:Hone.
  specialize (IH (S i) c1 k (Nat.lt_lt_succ_r _ _ Hk) Hf).
  destruct (jsonlTestCasesLines h1 h2 (S i) tcs c1) as [ls c2]. simpl in *.
  rewrite concat_app, lastReplaced_app, IH.
  pose proof (jsonlTestCaseLines_test h1 h2 i k tc c) as Hstep.
  rewrite Hone in Hstep. cbn [fst] in Hstep.
  assert (Nat.eqb i k = false) as Hik by (apply Nat.eqb_neq; lia).
  rewrite Hik in Hstep. destruct Hstep as (H1 & H2 & H3).
  by destruct Hf as [->|[->| ->]].
Qed.

(** After the loop the fields of test [k] hold what [formatTestJson]
    puts in its element for it. *)
Lemma jsonlTestCasesLines_test h1 h2 tcs : forall i c k tc,
  tcs !! k = Some tc ->
  let ps := concat (fst (jsonlTestCasesLines h1 h2 i tcs c)) in
  let j := fst (formatTestCase h1 h2 (i + k) tc c) in
  let at_ field :=
    lastReplaced (("/tests/" +:+ natToString (i + k)) +:+ String slash field) ps in
  at_ "status" = Some (PString (statusWord (JsonTestCase.status j)))
  /\ at_ "part_one" = option_map PTestPart (JsonTestCase.part_one j)
  /\ at_ "part_two" = option_map PTestPart (JsonTestCase.part_two j).
Proof.
  induction tcs as [|t tcs IH]; intros i c k tc Hk; [destruct k; discriminate|].
  simpl. destruct (jsonlTestCaseLines h1 h2 i t c) as [l c1] eqn:Hone.
  pose proof (jsonlTestCaseLines_test h1 h2 i (i + k) t c) as Hstep.
  rewrite Hone in Hstep. cbn [fst] in Hstep.
  destruct k as [|k]; simpl in Hk.
  - injection Hk as ->.
    pose proof (fun f Hf => jsonlTestCasesLines_later h1 h2 f tcs (S i) c1 (i + 0)
                              ltac:(lia) Hf) as Hlater.
    destruct (jsonlTestCasesLines h1 h2 (S i) tcs c1) as [ls c2].
    cbn [fst snd] in *.
    rewrite concat_app, !lastReplaced_app, !Hlater by auto.
    rewrite Nat.add_0_r in *. rewrite Nat.eqb_refl in Hstep. exact Hstep.
  - specialize (IH (S i) c1 k tc Hk).
    replace (S i + k)%nat with (i + S k)%nat in IH by lia.
    destruct (jsonlTestCasesLines h1 h2 (S i) tcs c1) as [ls c2].
    cbn [fst snd] in *.
    rewrite (formatTestCase_fst h1 h2 _ tc c1 c) in IH.
    assert (Nat.eqb i (i + S k) = false) as Hik by (apply Nat.eqb_neq; lia).
    rewrite Hik in Hstep. destruct Hstep as (H1 & H2 & H3).
    destruct IH as (I1 & I2 & I3).
    rewrite concat_app, !lastReplaced_app, H1, H2, H3, I1, I2, I3.
    repeat split; by destruct (JsonTestCase.part_one _), (JsonTestCase.part_two _).
Qed.

(** An iteration leaves every field of every other test alone. *)
Lemma jsonlTestCaseLines_other h1 h2 i k tc c field :
  i <> k ->
  lastReplaced (("/tests/" +:+ natToString k) +:+ String slash field)
    (concat (fst (jsonlTestCaseLines h1 h2 i tc c))) = None.
Proof.
  intros Hik. apply Nat.eqb_neq in Hik.
  unfold jsonlTestCaseLines, testPartPatch.
  destruct (TestCase.skipped tc); [|destruct (jsonPart h1 (TestCase.partOne tc)),
      (jsonPart h2 (TestCase.partTwo tc)), (allPassed tc)];
    cbn [fst concat app];
    change ("/" +:+ "part_one") with (String slash "part_one");
    change ("/" +:+ "part_two") with (String slash "part_two");
    rewrite ?lastReplaced_cons, ?lastReplaced_nil, ?test_path_eqb, ?Hik;
    rewrite ?top_path_other by reflexivity;
    reflexivity.
Qed.

(** No iteration touches a test beyond the end of the list. *)
Lemma jsonlTestCasesLines_beyond h1 h2 field tcs : forall i c k,
  (i + length tcs <= k)%nat ->
  lastReplaced (("/tests/" +:+ natToString k) +:+ String slash field)
    (concat (fst (jsonlTestCasesLines h1 h2 i tcs c))) = None.
Proof.
  induction tcs as [|tc tcs IH]; intros i c k Hk; [reflexivity|].
  simpl in Hk. simpl.
  pose proof (jsonlTestCaseLines_other h1 h2 i k tc c field ltac:(lia)) as Hstep.
  destruct (jsonlTestCaseLines h1 h2 i tc c) as [l c1].
  specialize (IH (S i) c1 k ltac:(lia)).
  destruct (jsonlTestCasesLines h1 h2 (S i) tcs c1) as [ls c2].
  cbn [fst snd] in *.
  by rewrite concat_app, lastReplaced_app, IH, Hstep.
Qed.

(** The patches of the JSONL test stream: [running], the console
    entries, the loop, the completion. *)
Lemma jsonlTestModeLines_patches tcs h1 h2 con :
  patchesOf (fst (jsonlTestModeLines tcs h1 h2 con))
  = (([replacePatch "/status" (PString "running")]
      ++ map (fun e => addPatch "/console/-" (PConsoleEntry e)) con)
      ++ concat (fst (jsonlTestCasesLines h1 h2 0 tcs Counters.zero)))
      ++ [replacePatch "/status" (PString "complete");
          replacePatch "/success"
            (PBool (Nat.eqb (Counters.failed
                      (snd (jsonlTestCasesLines h1 h2 0 tcs Counters.zero))) 0))].
Proof.
  unfold jsonlTestModeLines.
  destruct (jsonlTestCasesLines h1 h2 0 tcs Counters.zero) as [body c].
  cbn [fst snd].
  match goal with
  | |- patchesOf (?x :: ?l) = _ => change (patchesOf (x :: l)) with (patchesOf l)
  end.
  rewrite !patchesOf_app, !patchesOf_writePatches, patchesOf_consolePatches,
    patchesOf_flat_writePatches.
  by rewrite <- !app_assoc.
Qed.

Lemma jsonlTestModeLines_exit tcs h1 h2 con :
  snd (jsonlTestModeLines tcs h1 h2 con) = snd (jsonlTestMode tcs).
Proof.
  unfold jsonlTestModeLines, jsonlTestMode.
  pose proof (jsonlTestCasesLines_counters h1 h2 tcs 0%nat Counters.zero) as Hc.
  destruct (jsonlTestCasesLines h1 h2 0 tcs Counters.zero) as [body c].
  cbn [fst snd] in *. by rewrite Hc.
Qed.

Lemma formatTestJson_console tcs h1 h2 con :
  JsonTestOutput.console (formatTestJson tcs h1 h2 con) = con.
Proof.
  unfold formatTestJson.
  by destruct (formatTestCases h1 h2 0 tcs Counters.zero).
Qed.

(** X8.  The JSONL stream of test mode ends in the state that the JSON
    document describes: replaying its patches leaves [/status] at
    [complete], [/success] at the document's [success], the three
    counters of [/summary] at the document's counts (starting from the 0
    of the initial document), [/summary/total] untouched, and [/console]
    extended by the captured entries in order; and both modes exit with
    the same code. *)
Theorem jsonlTestMode_formatTestJson (testCases : list TestCase.t)
    (hasPartOne hasPartTwo : bool) (consoleEntries : list ConsoleEntry.t) :
  let stream :=
    patchesOf (fst (jsonlTestModeLines testCases hasPartOne hasPartTwo
                      consoleEntries)) in
  let document := formatTestJson testCases hasPartOne hasPartTwo consoleEntries in
  let summary := JsonTestOutput.summary document in
  lastReplaced "/status" stream = Some (PString "complete")
  /\ lastReplaced "/success" stream = Some (PBool (JsonTestOutput.success document))
  /\ replacedOr (PNumber 0) "/summary/passed" stream
     = PNumber (Z.of_nat (TestSummary.passed summary))
  /\ replacedOr (PNumber 0) "/summary/failed" stream
     = PNumber (Z.of_nat (TestSummary.failed summary))
  /\ replacedOr (PNumber 0) "/summary/skipped" stream
     = PNumber (Z.of_nat (TestSummary.skipped summary))
  /\ lastReplaced "/summary/total" stream = None
  /\ addedAt "/console/-" stream
     = map PConsoleEntry (JsonTestOutput.console document)
  /\ snd (jsonlTestModeLines testCases hasPartOne hasPartTwo consoleEntries)
     = snd (jsonTestMode testCases hasPartOne hasPartTwo consoleEntries).
Proof.
  intros stream document summary. subst stream summary document.
  rewrite jsonlTestModeLines_patches, formatTestJson_summary,
    formatTestJson_success, formatTestJson_console.
  pose proof (jsonlTestCasesLines_summary hasPartOne hasPartTwo testCases 0%nat
                Counters.zero) as (Hp & Hf & Hs).
  pose proof (jsonlTestCasesLines_counters hasPartOne hasPartTwo testCases 0%nat
                Counters.zero) as Hc.
  pose proof (jsonlTestCases_counters testCases Counters.zero) as (Cp & Cf & Cs).
  cbn zeta in *. rewrite <- Hc in Cp, Cf, Cs. simpl in Cp, Cf, Cs.
  rewrite Cp in Hp. rewrite Cf in Hf. rewrite Cs in Hs. rewrite Cf.
  set (body := concat (fst (jsonlTestCasesLines hasPartOne hasPartTwo 0 testCases
                              Counters.zero))) in *.
  repeat split.
  - by rewrite lastReplaced_app.
  - by rewrite lastReplaced_app.
  - rewrite !replacedOr_app, (replacedOr_none _ _ [_; _]) by reflexivity.
    rewrite (replacedOr_none _ _ (map _ _)) by apply consolePatches_replaced.
    exact Hp.
  - rewrite !replacedOr_app, (replacedOr_none _ _ [_; _]) by reflexivity.
    rewrite (replacedOr_none _ _ (map _ _)) by apply consolePatches_replaced.
    exact Hf.
  - rewrite !replacedOr_app, (replacedOr_none _ _ [_; _]) by reflexivity.
    rewrite (replacedOr_none _ _ (map _ _)) by apply consolePatches_replaced.
    exact Hs.
  - rewrite !lastReplaced_app. subst body.
    rewrite jsonlTestCasesLines_top, consolePatches_replaced by reflexivity.
    reflexivity.
  - rewrite !addedAt_app, consolePatches_added. subst body.
    rewrite (addedAt_replaces _ (concat _))
      by apply jsonlTestCasesLines_replace.
    rewrite (addedAt_replaces _ [_]), (addedAt_replaces _ [_; _])
      by (repeat constructor).
    by rewrite !app_nil_r.
  - rewrite jsonlTestModeLines_exit.
    exact (testModeExitCode_hasFailures jsonl testCases hasPartOne hasPartTwo
             consoleEntries).
Qed.

Lemma framing_test_path k field ps :
  Forall (fun p => String.prefix "/tests/" (JsonPatch.path p) = false) ps ->
  lastReplaced (("/tests/" +:+ natToString k) +:+ field) ps = None.
Proof.
  intros H. apply lastReplaced_none. eapply Forall_impl; [exact H|].
  intros p Hp. unfold replaces. destruct (JsonPatch.op p); [|reflexivity].
  by apply top_path_other.
Qed.

Lemma jsonlTestModeLines_test_path tcs h1 h2 con k field :
  lastReplaced (("/tests/" +:+ natToString k) +:+ field)
    (patchesOf (fst (jsonlTestModeLines tcs h1 h2 con)))
  = lastReplaced (("/tests/" +:+ natToString k) +:+ field)
      (concat (fst (jsonlTestCasesLines h1 h2 0 tcs Counters.zero))).
Proof.
  rewrite jsonlTestModeLines_patches, !lastReplaced_app.
  rewrite (framing_test_path k field [_; _]) by (repeat constructor).
  rewrite (framing_test_path k field [_]) by (repeat constructor).
  rewrite (framing_test_path k field (map _ _)).
  - by destruct (lastReplaced _ (concat _)).
  - apply Forall_forall. intros p Hp.
    apply list_elem_of_In, in_map_iff in Hp as (e & <- & _). reflexivity.
Qed.

(** X9.  For every test of the JSON document, the JSONL stream patches
    the element of the zero-based position [k] (the document numbers it
    [k + 1]): its [status] ends as the document's status word, and
    [part_one] and [part_two] end as the document's parts, left alone
    when the document has none. *)
Theorem jsonlTestMode_tests (testCases : list TestCase.t)
    (hasPartOne hasPartTwo : bool) (consoleEntries : list ConsoleEntry.t)
    (k : nat) (j : JsonTestCase.t) :
  JsonTestOutput.tests
    (formatTestJson testCases hasPartOne hasPartTwo consoleEntries) !! k = Some j ->
  let stream :=
    patchesOf (fst (jsonlTestModeLines testCases hasPartOne hasPartTwo
                      consoleEntries)) in
  let pathPrefix := "/tests/" +:+ natToString k in
  JsonTestCase.index j = S k
  /\ lastReplaced (pathPrefix +:+ "/status") stream
     = Some (PString (statusWord (JsonTestCase.status j)))
  /\ lastReplaced (pathPrefix +:+ "/part_one") stream
     = option_map PTestPart (JsonTestCase.part_one j)
  /\ lastReplaced (pathPrefix +:+ "/part_two") stream
     = option_map PTestPart (JsonTestCase.part_two j).
Proof.
  intros Hj stream pathPrefix. subst stream pathPrefix.
  assert (exists tc, testCases !! k = Some tc) as (tc & Htc).
  { apply lookup_lt_is_Some_2. apply lookup_lt_Some in Hj.
    unfold formatTestJson in Hj.
    pose proof (formatTestCases_length hasPartOne hasPartTwo testCases 0%nat
                  Counters.zero) as Hlen.
    destruct (formatTestCases hasPartOne hasPartTwo 0 testCases Counters.zero).
    simpl in *. lia. }
  assert (j = fst (formatTestCase hasPartOne hasPartTwo k tc Counters.zero)) as ->.
  { unfold formatTestJson in Hj.
    destruct (formatTestCases_lookup hasPartOne hasPartTwo testCases 0%nat
                Counters.zero k tc Htc) as (c' & Hlook).
    destruct (formatTestCases hasPartOne hasPartTwo 0 testCases Counters.zero).
    simpl in *. rewrite Hlook in Hj. injection Hj as <-.
    apply formatTestCase_fst. }
  split.
  { pose proof (formatTestCase_element hasPartOne hasPartTwo k tc Counters.zero)
      as (Hidx & _). cbn zeta in Hidx. rewrite Hidx. lia. }
  rewrite !jsonlTestModeLines_test_path.
  exact (jsonlTestCasesLines_test hasPartOne hasPartTwo testCases 0%nat
           Counters.zero k tc Htc).
Qed.

Lemma jsonlTestMode_tests_witness :
  let testCases :=
    [TestCase.mk (Some (TestCaseResult.mk "1" "2" false)) None false false;
     TestCase.mk None None true true] in
  let j := JsonTestCase.mk 2 true status_skipped None None in
  let stream := patchesOf (fst (jsonlTestModeLines testCases true true [])) in
  JsonTestOutput.tests (formatTestJson testCases true true []) !! 1%nat = Some j
  /\ lastReplaced (("/tests/" +:+ natToString 1) +:+ "/status") stream
     = Some (PString "skipped")
  /\ lastReplaced (("/tests/" +:+ natToString 1) +:+ "/part_one") stream = None.
Proof.
  split; [reflexivity|].
  pose proof (jsonlTestMode_tests
                [TestCase.mk (Some (TestCaseResult.mk "1" "2" false)) None
                   false false;
                 TestCase.mk None None true true] true true [] 1%nat
                (JsonTestCase.mk 2 true status_skipped None None) eq_refl)
    as (_ & Hstatus & Hone & _).
  split; [exact Hstatus|exact Hone].
Defined.

(** X10.  The JSONL stream of test mode patches no field of a test
    beyond the end of the list, so every path under [/tests/] that it
    replaces exists in the initial document. *)
Theorem jsonlTestMode_tests_beyond (testCases : list TestCase.t)
    (hasPartOne hasPartTwo : bool) (consoleEntries : list ConsoleEntry.t)
    (k : nat) (field : string) :
  (length testCases <= k)%nat ->
  lastReplaced (("/tests/" +:+ natToString k) +:+ String slash field)
    (patchesOf (fst (jsonlTestModeLines testCases hasPartOne hasPartTwo
                       consoleEntries))) = None.
Proof.
  intros Hk. rewrite jsonlTestModeLines_test_path.
  by apply jsonlTestCasesLines_beyond.
Qed.

(** ** [index.ts]: exit codes, initial documents and the [catch] block *)

Lemma testModeReport_exit mode source tcs con :
  snd (testModeReport mode source tcs con) = if hasFailures tcs then 3 else 0.
Proof.
  unfold testModeReport.
  set (h1 := SolutionSource.hasPartOne (isSolutionSource source)).
  set (h2 := SolutionSource.hasPartTwo (isSolutionSource source)).
  rewrite <- (testModeExitCode_hasFailures mode tcs h1 h2 con).
  destruct mode; cbn [testModeExitCode].
  - by destruct (textTestMode tcs).
  - reflexivity.
  - apply jsonlTestModeLines_exit.
Qed.

Lemma errorReport_exit mode isTestRun filename source err :
  snd (errorReport mode isTestRun filename source err) = 2.
Proof. by destruct mode. Qed.

Lemma runModeReport_exit mode source result con :
  snd (runModeReport mode source result con) = 0.
Proof. by destruct mode. Qed.

Lemma jsonlTestMode_tests_beyond_witness :
  let testCases := [TestCase.mk None None false false] in
  (length testCases <= 1)%nat
  /\ lastReplaced (("/tests/" +:+ natToString 1) +:+ String slash "status")
       (patchesOf (fst (jsonlTestModeLines testCases true false []))) = None.
Proof.
  split; [cbn; lia|].
  apply (jsonlTestMode_tests_beyond [TestCase.mk None None false false]
           true false [] 1%nat "status").
  cbn; lia.
Defined.

(** X11.  The exit code of a run once the source is known is 0, 2 or 3,
    whatever the output mode: 2 exactly when the runner threw, 3 exactly
    in test mode when the runner returned and some test that was not
    skipped has a part whose comparison failed.  Run mode never exits
    with 3. *)
Theorem report_exit_code (outputMode : OutputMode) (isTestRun : bool)
    (filename : option string) (source : string)
    (runOutcome : Evaluated RunResult)
    (testOutcome : Evaluated (list TestCase.t))
    (consoleEntries : list ConsoleEntry.t) :
  let exitCode :=
    snd (report outputMode isTestRun filename source runOutcome testOutcome
           consoleEntries) in
  (exitCode = 0 \/ exitCode = 2 \/ exitCode = 3)
  /\ (exitCode = 2 <->
      if isTestRun then exists err, testOutcome = Failed err
      else exists err, runOutcome = Failed err)
  /\ (exitCode = 3 <->
      isTestRun = true /\
      exists testCases,
        testOutcome = Done testCases /\
        exists tc, In tc testCases /\ failedComparison tc).
Proof.
  unfold report. destruct isTestRun.
  - destruct testOutcome as [tcs|err].
    + rewrite testModeReport_exit.
      pose proof (hasFailures_spec tcs) as Hspec.
      destruct (hasFailures tcs); cbn zeta.
      * repeat split; try (intros; discriminate); auto.
        -- intros (e & He). discriminate.
        -- exists tcs. split; [reflexivity|]. by apply Hspec.
      * repeat split; try (intros; discriminate); auto.
        -- intros (e & He). discriminate.
        -- intros (_ & tcs' & Heq & Hex). injection Heq as <-.
           apply Hspec in Hex. discriminate.
    + rewrite errorReport_exit. cbn zeta.
      repeat split; try (intros; discriminate); eauto.
      intros (_ & tcs & Heq & _). discriminate.
  - assert (forall (p : list StdoutLine * Z) pre,
              snd (let '(lines, exitCode) := p in (pre ++ lines, exitCode)) = snd p)
      as Hsnd by (by intros [? ?] ?).
    rewrite Hsnd. destruct runOutcome as [r|err].
    + rewrite runModeReport_exit. cbn zeta.
      repeat split; try (intros; discriminate); auto.
      * intros (e & He). discriminate.
      * intros (Ht & _). discriminate.
    + rewrite errorReport_exit. cbn zeta.
      repeat split; try (intros; discriminate); eauto.
      intros (Ht & _). discriminate.
Qed.

Lemma initialsOf_app a b : initialsOf (a ++ b) = initialsOf a ++ initialsOf b.
Proof. unfold initialsOf. by rewrite flat_map_app. Qed.

Lemma initialsOf_flat_writePatches body : initialsOf (flat_map writePatches body) = [].
Proof. induction body as [|ps body IH]; [reflexivity|exact IH]. Qed.

Lemma initialsOf_consolePatches con : initialsOf (consolePatches con) = [].
Proof. induction con as [|e con IH]; [reflexivity|exact IH]. Qed.

Lemma initialsOf_LogTest ls : initialsOf (map LogTest ls) = [].
Proof. induction ls as [|l ls IH]; [reflexivity|exact IH]. Qed.

Lemma patchesOf_LogTest ls : patchesOf (map LogTest ls) = [].
Proof. induction ls as [|l ls IH]; [reflexivity|exact IH]. Qed.

Lemma initialsOf_jsonlTestModeLines tcs h1 h2 con :
  initialsOf (fst (jsonlTestModeLines tcs h1 h2 con))
  = [TestInitialLine (createTestInitial tcs)].
Proof.
  unfold jsonlTestModeLines.
  destruct (jsonlTestCasesLines h1 h2 0 tcs Counters.zero) as [body c].
  cbn [fst].
  match goal with
  | |- initialsOf (?x :: ?l) = _ =>
      change (initialsOf (x :: l)) with (TestInitialLine (createTestInitial tcs) :: initialsOf l)
  end.
  by rewrite !initialsOf_app, initialsOf_consolePatches, initialsOf_flat_writePatches.
Qed.

Lemma initialsOf_runModeReport source result con :
  initialsOf (fst (runModeReport jsonl source result con)) = [].
Proof.
  unfold runModeReport. cbn [fst].
  rewrite initialsOf_app, initialsOf_consolePatches.
  destruct (isSolutionSource source) as [[] []], result as [v d|[p1|] [p2|]];
    reflexivity.
Qed.

(** X12.  Text and JSON mode write no JSONL line.  JSONL mode starts
    with an initial document.  It writes exactly one, except in run mode
    when the runner throws: the [catch] block writes the initial document
    of the run a second time.  When [runTests] throws, the initial
    document is that of an empty list of tests. *)
Theorem report_initial_lines (isTestRun : bool) (filename : option string)
    (source : string) (runOutcome : Evaluated RunResult)
    (testOutcome : Evaluated (list TestCase.t))
    (consoleEntries : list ConsoleEntry.t) :
  let lines outputMode :=
    fst (report outputMode isTestRun filename source runOutcome testOutcome
           consoleEntries) in
  let s := isSolutionSource source in
  let runInitial :=
    if isSolution source
    then SolutionInitialLine
           (createSolutionInitial (SolutionSource.hasPartOne s)
              (SolutionSource.hasPartTwo s))
    else ScriptInitialLine in
  initialsOf (lines text) = [] /\ patchesOf (lines text) = []
  /\ initialsOf (lines json) = [] /\ patchesOf (lines json) = []
  /\ initialsOf (lines jsonl)
     = (if isTestRun then
          match testOutcome with
          | Done testCases => [TestInitialLine (createTestInitial testCases)]
          | Failed _ => [TestInitialLine (createTestInitial [])]
          end
        else
          match runOutcome with
          | Done _ => [runInitial]
          | Failed _ => [runInitial; runInitial]
          end)
  /\ head (lines jsonl) = option_map LogJsonl (head (initialsOf (lines jsonl))).
Proof.
  intros lines s runInitial. subst lines s runInitial.
  unfold report, isSolution. cbn beta.
  destruct isTestRun.
  - destruct testOutcome as [tcs|err].
    + unfold testModeReport.
      destruct (textTestMode tcs) as [ls e] eqn:Htext.
      cbn [fst jsonTestMode].
      rewrite initialsOf_LogTest, patchesOf_LogTest, initialsOf_jsonlTestModeLines.
      repeat split. unfold jsonlTestModeLines.
      by destruct (jsonlTestCasesLines _ _ 0 tcs Counters.zero).
    + by repeat split.
  - destruct runOutcome as [r|err].
    + assert (forall (p : list StdoutLine * Z) pre,
              fst (let '(lines, exitCode) := p in (pre ++ lines, exitCode))
              = pre ++ fst p) as Hfst by (by intros [? ?] ?).
      rewrite !Hfst, !initialsOf_app, initialsOf_runModeReport.
      repeat split.
      * by destruct r as [v d|[p1|] [p2|]].
      * by destruct r as [v d|[p1|] [p2|]].
      * unfold runModePrelude.
        by destruct (isSolutionSource source) as [[] []].
      * unfold runModePrelude.
        by destruct (isSolutionSource source) as [[] []].
    + unfold runModePrelude, errorReport.
      destruct (isSolutionSource source) as [[] []]; by repeat split.
Qed.

(** X13.  When the runner throws, the exit code is 2 and the console
    entries captured so far are dropped: what is written does not depend
    on them.  Text mode writes the source preview and the message, JSON
    mode the document of [formatErrorJson]; the JSONL stream ends with
    [/status] at [error], adds at [/error] the message and the one-based
    location of that document, adds nothing to [/console], never sends a
    value or a duration of a part, and leaves the status of each part
    that run mode announced at [running]. *)
Theorem report_error (outputMode : OutputMode) (isTestRun : bool)
    (filename : option string) (source : string)
    (runOutcome : Evaluated RunResult)
    (testOutcome : Evaluated (list TestCase.t))
    (consoleEntries : list ConsoleEntry.t) (err : ErrorInfo.t) :
  (if isTestRun then testOutcome = Failed err else runOutcome = Failed err) ->
  let reported :=
    report outputMode isTestRun filename source runOutcome testOutcome
      consoleEntries in
  let document := formatErrorJson err in
  let stream := patchesOf (fst reported) in
  reported
  = report outputMode isTestRun filename source runOutcome testOutcome []
  /\ snd reported = 2
  /\ match outputMode with
     | text =>
         fst reported
         = [LogSourcePreview (previewName filename) source
              (ErrorInfo.line err) (ErrorInfo.column err);
            LogText (ErrorInfo.message err)]
     | json => fst reported = [LogJsonError document]
     | jsonl =>
         lastReplaced "/status" stream = Some (PString "error")
         /\ addedAt "/error" stream
            = [PError (JsonErrorOutput.message document)
                 (JsonErrorOutput.location document)]
         /\ addedAt "/console/-" stream = []
         /\ (forall name field,
               name = "part_one" \/ name = "part_two" ->
               field = "value" \/ field = "duration_ms" ->
               lastReplaced ("/" +:+ name +:+ "/" +:+ field) stream = None)
         /\ lastReplaced "/part_one/status" stream
            = (if negb isTestRun
                  && SolutionSource.hasPartOne (isSolutionSource source)
               then Some (PString "running") else None)
         /\ lastReplaced "/part_two/status" stream
            = (if negb isTestRun
                  && SolutionSource.hasPartTwo (isSolutionSource source)
               then Some (PString "running") else None)
     end.
Proof.
  intros Hfailed reported document stream. subst reported document stream.
  unfold report. destruct isTestRun; rewrite Hfailed.
  - destruct outputMode; repeat split.
    intros name field [-> | ->] [-> | ->]; reflexivity.
  - destruct outputMode; cbn [runModePrelude errorReport app fst snd];
      try by repeat split.
    destruct (isSolutionSource source) as [[] []]; repeat split;
      intros name field [-> | ->] [-> | ->]; reflexivity.
Qed.

Lemma report_error_witness :
  let err := ErrorInfo.mk "Unexpected token" 0 11 in
  let reported :=
    report jsonl false None "part_one: {" (Failed err) (Done [])
      [ConsoleEntry.mk 3 "before"] in
  addedAt "/error" (patchesOf (fst reported))
  = [PError "Unexpected token" (ErrorLocation.mk 1 12)]
  /\ lastReplaced "/part_one/status" (patchesOf (fst reported))
     = Some (PString "running")
  /\ snd reported = 2.
Proof.
  pose proof (report_error jsonl false None "part_one: {"
                (Failed (ErrorInfo.mk "Unexpected token" 0 11)) (Done [])
                [ConsoleEntry.mk 3 "before"]
                (ErrorInfo.mk "Unexpected token" 0 11) eq_refl)
    as (_ & Hexit & _ & Herror & _ & _ & Hone & _).
  split; [exact Herror|split; [exact Hone|exact Hexit]].
Defined.

(** ** [index.ts]: the JSONL stream of run mode *)

Lemma report_run_done mode filename source result testOutcome con :
  report mode false filename source (Done result) testOutcome con
  = (runModePrelude mode source ++ fst (runModeReport mode source result con), 0).
Proof.
  unfold report. pose proof (runModeReport_exit mode source result con) as H.
  destruct (runModeReport mode source result con) as [ls e]. simpl in *. by rewrite H.
Qed.

(** X14.  The JSONL stream of run mode against the JSON document of
    the same result.  The console entries are added in order.  For a
    script result [/status] ends [complete], and the value and duration
    are sent unless the source text mentions a part.  For a solution
    result a part that the initial document announced ends with the
    value and the duration of the document's part and status
    [complete], or stays [running] when the result lacks it; a part that
    was not announced is never patched; [/status] ends [complete] when
    the source text mentions a part. *)
Theorem report_run_jsonl (filename : option string) (source : string)
    (result : RunResult) (testOutcome : Evaluated (list TestCase.t))
    (consoleEntries : list ConsoleEntry.t) :
  let s := isSolutionSource source in
  let stream :=
    patchesOf (fst (report jsonl false filename source (Done result) testOutcome
                      consoleEntries)) in
  let part (announced : bool) (name : string) (p : option JsonPartResult.t) :=
    lastReplaced ("/" +:+ name +:+ "/status") stream
    = (if announced
       then Some (PString (match p with Some _ => "complete" | None => "running" end))
       else None)
    /\ lastReplaced ("/" +:+ name +:+ "/value") stream
       = (if announced
          then option_map (fun r => PString (JsonPartResult.value r)) p
          else None)
    /\ lastReplaced ("/" +:+ name +:+ "/duration_ms") stream
       = (if announced
          then option_map (fun r => PNumber (JsonPartResult.duration_ms r)) p
          else None) in
  addedAt "/console/-" stream = map PConsoleEntry consoleEntries
  /\ match formatRunJson result consoleEntries with
     | JsonScriptOutput value duration_ms _ =>
         lastReplaced "/status" stream = Some (PString "complete")
         /\ lastReplaced "/value" stream
            = (if isSolution source then None else Some (PString value))
         /\ lastReplaced "/duration_ms" stream
            = (if isSolution source then None else Some (PNumber duration_ms))
     | JsonSolutionOutput one two _ =>
         lastReplaced "/status" stream
         = Some (PString (if isSolution source then "complete" else "running"))
         /\ part (SolutionSource.hasPartOne s) "part_one" one
         /\ part (SolutionSource.hasPartTwo s) "part_two" two
     end.
Proof.
  intros s stream part. subst s stream part. cbn beta.
  rewrite report_run_done. cbn [fst]. unfold isSolution.
  unfold runModePrelude, runModeReport. cbn [fst].
  rewrite !patchesOf_app, patchesOf_consolePatches.
  destruct (isSolutionSource source) as [[] []], result as [v d|[p1|] [p2|]];
    cbn [SolutionSource.hasPartOne SolutionSource.hasPartTwo orb formatRunJson
           jsonPartResult];
    rewrite ?addedAt_app, ?lastReplaced_app, ?consolePatches_replaced,
      ?consolePatches_added;
    (split;
     [match goal with
      | |- ?a ++ ?m ++ ?b = _ =>
          change a with (@nil PatchValue); change b with (@nil PatchValue)
      end; by rewrite app_nil_r
     |by repeat split]).
Qed.

(** ** [index.ts]: the command line *)


(** [findIndex] finds the first occurrence of the flag. *)
Lemma findFlag_Some short long args i :
  findFlag short long args = Some i <->
  exists pre flag rest,
    args = pre ++ flag :: rest /\ length pre = i /\
    (flag = short \/ flag = long) /\
    Forall (fun a => a <> short /\ a <> long) pre.
Proof.
  revert i. induction args as [|a args IH]; intros i; simpl.
  - split; [discriminate|]. intros (pre & flag & rest & Heq & _).
    by destruct pre.
  - destruct (String.eqb_spec a short) as [->|Hs];
      [|destruct (String.eqb_spec a long) as [->|Hl]]; simpl.
    + split.
      * intros [= <-]. exists [], short, args. repeat split; auto.
      * intros (pre & flag & rest & Heq & <- & _ & Hpre).
        destruct pre as [|b pre]; [reflexivity|].
        injection Heq as <- _. apply Forall_cons in Hpre as [[Hb _] _].
        by destruct Hb.
    + split.
      * intros [= <-]. exists [], long, args. repeat split; auto.
      * intros (pre & flag & rest & Heq & <- & _ & Hpre).
        destruct pre as [|b pre]; [reflexivity|].
        injection Heq as <- _. apply Forall_cons in Hpre as [[_ Hb] _].
        by destruct Hb.
    + split.
      * destruct (findFlag short long args) as [k|] eqn:Hk; [|discriminate].
        intros [= <-].
        destruct (proj1 (IH k) eq_refl) as (pre & flag & rest & -> & <- & Hf & Hpre).
        exists (a :: pre), flag, rest. repeat split; auto.
      * intros (pre & flag & rest & Heq & <- & Hf & Hpre).
        destruct pre as [|b pre].
        { injection Heq as -> _. by destruct Hf. }
        injection Heq as <- ->. apply Forall_cons in Hpre as [_ Hpre].
        rewrite (proj2 (IH (length pre))); [reflexivity|].
        exists pre, flag, rest. auto.
Qed.


(** The value of a flag is the argument after its first occurrence,
    unless that is missing or empty. *)
Lemma flagValue_Some short long args v :
  flagValue short long args = Some v <->
  v <> "" /\
  exists pre flag rest,
    args = pre ++ flag :: v :: rest /\
    (flag = short \/ flag = long) /\
    Forall (fun a => a <> short /\ a <> long) pre.
Proof.
  unfold flagValue. split.
  - destruct (findFlag short long args) as [i|] eqn:Hi; [|discriminate].
    apply findFlag_Some in Hi as (pre & flag & rest & -> & <- & Hf & Hpre).
    rewrite (lookup_app_r pre) by lia.
    replace (S (length pre) - length pre)%nat with 1%nat by lia.
    destruct rest as [|[|c w] rest]; simpl; try discriminate.
    intros [= <-]. split; [discriminate|]. by exists pre, flag, rest.
  - intros (Hv & pre & flag & rest & -> & Hf & Hpre).
    rewrite (proj2 (findFlag_Some short long _ (length pre)))
      by (by exists pre, flag, (v :: rest)).
    rewrite (lookup_app_r pre) by lia.
    replace (S (length pre) - length pre)%nat with 1%nat by lia.
    simpl. by destruct v.
Qed.





Lemma substring_all s : String.substring 0 (String.length s) s = s.
Proof. induction s as [|c s IH]; [reflexivity|]. simpl. by rewrite IH. Qed.

Lemma substring_skip pre s m :
  String.substring (String.length pre) m (pre +:+ s) = String.substring 0 m s.
Proof. induction pre as [|c pre IH]; [reflexivity|exact IH]. Qed.

Lemma substring_split s : forall n,
  (n <= String.length s)%nat ->
  s = String.substring 0 n s +:+ String.substring n (String.length s - n) s.
Proof.
  induction s as [|c s IH]; intros [|n] Hn; simpl in Hn; try lia.
  - reflexivity.
  - change (String c s = String.substring 0 (String.length (String c s)) (String c s)).
    by rewrite substring_all.
  - change (String c s
            = String c (String.substring 0 n s
                        +:+ String.substring n (String.length s - n) s)).
    f_equal. apply IH. lia.
Qed.

(** [endsWith] holds of the texts that are something followed by the
    suffix. *)
Lemma endsWith_spec s suffix :
  endsWith s suffix = true <-> exists stem, s = stem +:+ suffix.
Proof.
  unfold endsWith. rewrite andb_true_iff, String.eqb_eq, Nat.leb_le. split.
  - intros [Hsub Hlen].
    exists (String.substring 0 (String.length s - String.length suffix) s).
    pose proof (substring_split s (String.length s - String.length suffix)
                  ltac:(lia)) as Hs.
    replace (String.length s - (String.length s - String.length suffix))%nat
      with (String.length suffix) in Hs by lia.
    rewrite Hsub in Hs. exact Hs.
  - intros (stem & ->). rewrite string_length_app.
    replace (String.length stem + String.length suffix - String.length suffix)%nat
      with (String.length stem) by lia.
    rewrite substring_skip, substring_all. split; [reflexivity|lia].
Qed.

Lemma find_first {A} (p : A -> bool) (l : list A) (x : A) :
  List.find p l = Some x <->
  exists pre rest, l = pre ++ x :: rest /\ p x = true /\
                   Forall (fun a => p a = false) pre.
Proof.
  induction l as [|a l IH]; simpl.
  - split; [discriminate|]. intros (pre & rest & Heq & _). by destruct pre.
  - destruct (p a) eqn:Hpa.
    + split.
      * intros [= <-]. exists [], l. auto.
      * intros (pre & rest & Heq & Hpx & Hpre). destruct pre as [|b pre].
        -- by injection Heq as ->.
        -- injection Heq as <- _. apply Forall_cons in Hpre as [Hb _]. congruence.
    + rewrite IH. split.
      * intros (pre & rest & -> & Hpx & Hpre). exists (a :: pre), rest. auto.
      * intros (pre & rest & Heq & Hpx & Hpre). destruct pre as [|b pre].
        -- injection Heq as -> _. congruence.
        -- injection Heq as <- ->. apply Forall_cons in Hpre as [_ Hpre].
           by exists pre, rest.
Qed.

(** X17.  Where the source comes from: the argument after the first
    [-e] or [--eval] when it is not empty; otherwise the first argument
    that ends in [.santa]; otherwise standard input, when no argument
    ends in [.santa]. *)
Theorem chooseSource_precedence (args : list string) :
  match chooseSource args with
  | FromEval code =>
      code <> "" /\
      exists pre flag rest,
        args = pre ++ flag :: code :: rest /\
        (flag = "-e" \/ flag = "--eval") /\
        Forall (fun a => a <> "-e" /\ a <> "--eval") pre
  | FromFile path =>
      flagValue "-e" "--eval" args = None /\
      exists pre rest stem,
        args = pre ++ path :: rest /\ path = stem +:+ ".santa" /\
        Forall (fun a => forall stem', a <> stem' +:+ ".santa") pre
  | FromStdin =>
      flagValue "-e" "--eval" args = None /\
      forall a stem, In a args -> a <> stem +:+ ".santa"
  end.
Proof.
  unfold chooseSource, findScriptFile.
  destruct (flagValue "-e" "--eval" args) as [code|] eqn:He.
  - by apply flagValue_Some in He.
  - destruct (List.find _ args) as [path|] eqn:Hfind.
    + split; [reflexivity|].
      apply find_first in Hfind as (pre & rest & -> & Hp & Hpre).
      apply endsWith_spec in Hp as (stem & ->).
      exists pre, rest, stem. repeat split.
      eapply Forall_impl; [exact Hpre|]. intros a Ha stem' ->.
      assert (endsWith (stem' +:+ ".santa") ".santa" = true) as Ht
        by (apply endsWith_spec; eauto).
      congruence.
    + split; [reflexivity|]. intros a stem Hin ->.
      pose proof (List.find_none _ _ Hfind _ Hin) as Hf. cbn beta in Hf.
      assert (endsWith (stem +:+ ".santa") ".santa" = true) as Ht
        by (apply endsWith_spec; eauto).
      congruence.
Qed.

(** ** Solution or script, in what the CLI writes *)

Lemma isSectionNamed_declaration {E} name (s : Statement E) :
  isSectionNamed name s = true <-> exists body, declaration s = Section_ name body.
Proof.
  unfold isSectionNamed. destruct (declaration s); try (split; [discriminate|]);
    try (by intros (b & Hb)).
  rewrite String.eqb_eq. split.
  - intros ->. eauto.
  - intros (b & Hb). by injection Hb.
Qed.

(** The statement list declares a section exactly when one of its
    statements, under its annotations, is that section. *)
Lemma sectionCount_declared {E} name (program : list (Statement E)) :
  sectionCount name program <> 0%nat <->
  exists s body, In s program /\ declaration s = Section_ name body.
Proof.
  unfold sectionCount. split.
  - destruct (List.filter (isSectionNamed name) program) as [|s l] eqn:Hf;
      [by intros []|]. intros _.
    assert (In s (List.filter (isSectionNamed name) program)) as Hin
      by (rewrite Hf; by left).
    apply List.filter_In in Hin as [Hin Hs].
    apply isSectionNamed_declaration in Hs as (body & Hs). eauto.
  - intros (s & body & Hin & Hs).
    assert (In s (List.filter (isSectionNamed name) program)) as Hf.
    { apply List.filter_In. split; [exact Hin|].
      apply isSectionNamed_declaration. eauto. }
    by destruct (List.filter (isSectionNamed name) program).
Qed.

Lemma declaresPart_declared {E} (program : list (Statement E)) :
  declaresPart program = true <->
  exists s name body,
    In s program /\ declaration s = Section_ name body /\
    (name = "part_one" \/ name = "part_two").
Proof.
  unfold declaresPart.
  rewrite orb_true_iff, !negb_true_iff, !Nat.eqb_neq, !sectionsNamed_count,
    !sectionCount_declared.
  split.
  - intros [(s & body & Hin & Hs)|(s & body & Hin & Hs)]; eauto 8.
  - intros (s & name & body & Hin & Hs & [-> | ->]); eauto.
Qed.

(** A part of the result of the runner is absent exactly when the
    statement list does not declare it. *)
Lemma solvePart_declared {E V : Type} `{Evaluator E V}
    (program : list (Statement E)) elapsed p input r :
  solvePart program elapsed p input = Done r ->
  r = None <-> sectionCount (partName p) program = 0%nat.
Proof.
  unfold solvePart. rewrite <- sectionsNamed_count.
  destruct (sectionsNamed (partName p) program) as [|d ds].
  - by intros [= <-].
  - destruct (evalPart program _ input); [|discriminate].
    intros [= <-]. split; discriminate.
Qed.

(** In JSONL mode the value of a script is sent only when the text of
    the source mentions no part. *)
Lemma runMode_jsonl_script_value source value duration con :
  lastReplaced "/value"
    (patchesOf (runModePrelude jsonl source
                  ++ fst (runModeReport jsonl source (ScriptResult value duration)
                            con)))
  = if isSolution source then None else Some (PString value).
Proof.
  unfold isSolution, runModePrelude, runModeReport. cbn [fst].
  rewrite !patchesOf_app, patchesOf_consolePatches.
  destruct (isSolutionSource source) as [[] []];
    cbn [SolutionSource.hasPartOne SolutionSource.hasPartTwo orb];
    by rewrite ?lastReplaced_app, ?consolePatches_replaced.
Qed.

(** C5.  What the code does.  The runner takes a source for a solution
    iff its top-level statement list contains a Section declaration
    named [part_one] or [part_two], and evaluates it as a script
    returning its last value otherwise; text and JSON mode write what
    the runner returned: one line or one document part per declared
    part for a solution, the last value for a script.  The
    classification of the CLI itself, [isSolutionSource], which JSONL
    mode announces before the code runs, looks at the text instead: a
    source counts as a solution iff its text contains [part_one:] or
    [part_two:] as a substring, and then the value of a script is never
    sent. *)
Theorem isSolutionSource_substring {E V : Type} `{Evaluator E V}
    (source : string) (program : list (Statement E))
    (elapsedScript : Z) (elapsed : Part -> Z) (result : RunResult)
    (consoleEntries : list ConsoleEntry.t) :
  let s := isSolutionSource source in
  let written outputMode :=
    runModePrelude outputMode source
      ++ fst (runModeReport outputMode source result consoleEntries) in
  let partLine (n : nat) (p : option ResultValue.t) :=
    match p with
    | Some r => [LogPart n (ResultValue.value r) (ResultValue.duration r)]
    | None => []
    end in
  let partDocument (p : option ResultValue.t) :=
    match p with
    | Some r => Some (JsonPartResult.mk (ResultValue.value r) (ResultValue.duration r))
    | None => None
    end in
  (SolutionSource.hasPartOne s = true <->
     exists pre post, source = pre +:+ "part_one:" +:+ post) /\
  (SolutionSource.hasPartTwo s = true <->
     exists pre post, source = pre +:+ "part_two:" +:+ post) /\
  (isSolution source = true <->
     SolutionSource.hasPartOne s = true \/ SolutionSource.hasPartTwo s = true) /\
  head (written jsonl)
  = Some (LogJsonl
            (if isSolution source
             then SolutionInitialLine
                    (JsonlSolutionInitial.mk
                       (if SolutionSource.hasPartOne s then Some pendingPart else None)
                       (if SolutionSource.hasPartTwo s then Some pendingPart else None))
             else ScriptInitialLine)) /\
  (declaresPart program = true <->
     exists st name body,
       In st program /\ declaration st = Section_ name body /\
       (name = "part_one" \/ name = "part_two")) /\
  (run program elapsedScript elapsed = Done result ->
   if declaresPart program then
     exists p1 p2,
       result = SolutionResult p1 p2 /\
       (p1 = None <-> sectionCount "part_one" program = 0%nat) /\
       (p2 = None <-> sectionCount "part_two" program = 0%nat) /\
       written text = partLine 1%nat p1 ++ partLine 2%nat p2 /\
       written json
       = [LogJsonRun (JsonSolutionOutput (partDocument p1) (partDocument p2)
                        consoleEntries)]
   else
     exists v,
       evalScript program = Done v /\
       result = ScriptResult (inspect v) elapsedScript /\
       written text = [LogText (inspect v)] /\
       written json
       = [LogJsonRun (JsonScriptOutput (inspect v) elapsedScript consoleEntries)] /\
       lastReplaced "/value" (patchesOf (written jsonl))
       = (if isSolution source then None else Some (PString (inspect v)))).
Proof.
  cbv zeta.
  split; [apply includes_occurrence|]. split; [apply includes_occurrence|].
  split; [unfold isSolution; apply orb_true_iff|].
  split; [|split; [apply declaresPart_declared|]].
  - unfold isSolution, runModePrelude.
    by destruct (isSolutionSource source) as [[] []].
  - unfold run. destruct (declaresPart program).
    + destruct (evalInput program) as [input|]; [|discriminate].
      destruct (solvePart program elapsed part_one input) as [p1|] eqn:H1;
        [|discriminate].
      destruct (solvePart program elapsed part_two input) as [p2|] eqn:H2;
        [|discriminate].
      intros [= <-]. exists p1, p2.
      split; [reflexivity|].
      split; [exact (solvePart_declared _ _ _ _ _ H1)|].
      split; [exact (solvePart_declared _ _ _ _ _ H2)|].
      split; [by destruct p1, p2|by destruct p1, p2].
    + destruct (evalScript program) as [v|]; [|discriminate].
      intros [= <-]. exists v. repeat split.
      apply runMode_jsonl_script_value.
Qed.

(** C5 at the source that is the string literal ["part_one:"], and at a
    script with [part_two:] in a line comment.  Neither has a section:
    the runner evaluates both as scripts, and text and JSON mode write
    the value.  JSONL mode announces a solution, reports the part as
    running, completes without ever sending the value, and leaves the
    part at running. *)
Lemma isSolutionSource_is_textual :
  (parse (quoted "part_one:")
     = Some [ExpressionStatement (StringLiteral "part_one:")] /\
   declaresPart [ExpressionStatement (StringLiteral "part_one:")] = false /\
   run [ExpressionStatement (StringLiteral "part_one:")] 0 (fun _ => 0)
     = Done (ScriptResult (quoted "part_one:") 0) /\
   fst (report text false None (quoted "part_one:")
          (Done (ScriptResult (quoted "part_one:") 0)) (Done []) [])
     = [LogText (quoted "part_one:")] /\
   fst (report json false None (quoted "part_one:")
          (Done (ScriptResult (quoted "part_one:") 0)) (Done []) [])
     = [LogJsonRun (JsonScriptOutput (quoted "part_one:") 0 [])] /\
   fst (report jsonl false None (quoted "part_one:")
          (Done (ScriptResult (quoted "part_one:") 0)) (Done []) [])
     = [LogJsonl (SolutionInitialLine
                    (JsonlSolutionInitial.mk (Some pendingPart) None));
        LogJsonl (PatchesLine [replacePatch "/status" (PString "running")]);
        LogJsonl (PatchesLine
                    [replacePatch "/part_one/status" (PString "running")]);
        LogJsonl (PatchesLine [replacePatch "/status" (PString "complete")])])
  /\
  (parse commentedSource = Some [ExpressionStatement (IntegerLiteral "14")] /\
   declaresPart [ExpressionStatement (IntegerLiteral "14")] = false /\
   run [ExpressionStatement (IntegerLiteral "14")] 0 (fun _ => 0)
     = Done (ScriptResult "14" 0) /\
   fst (report text false None commentedSource
          (Done (ScriptResult "14" 0)) (Done []) [])
     = [LogText "14"] /\
   fst (report jsonl false None commentedSource
          (Done (ScriptResult "14" 0)) (Done []) [])
     = [LogJsonl (SolutionInitialLine
                    (JsonlSolutionInitial.mk None (Some pendingPart)));
        LogJsonl (PatchesLine [replacePatch "/status" (PString "running")]);
        LogJsonl (PatchesLine
                    [replacePatch "/part_two/status" (PString "running")]);
        LogJsonl (PatchesLine [replacePatch "/status" (PString "complete")])]).
Proof. repeat split; vm_compute; reflexivity. Qed.
